(** * IBEX 35 MCP server: query facade and analytics, embedded and verified

    The development follows [dist/database.js] (class [DatabaseManager]) and
    the analytics source (class [AnalyticsManager]).

    Conventions of the embedding:
    - a JavaScript number is read as an exact rational ([Q]); a quotient
      whose divisor may be zero is a [Num.number], which has the two
      infinities and [NaN]; where the rounding of IEEE doubles decides a
      statement, module [Binary64] evaluates the same expressions on the
      doubles themselves;
    - a JavaScript string is a [string] holding its UTF-8 bytes; lower
      case is taken of the ASCII and the Latin-1 letters;
    - a field that may be absent is an [optional] value, which keeps
      [undefined] and [null] apart as the code's tests do;
    - an [async] method is a computation in the monad [M]: it reads the
      remote service, logs every HTTP request it issues and either
      returns or throws. *)

From Stdlib Require Import List String Ascii Bool Arith ZArith QArith Qround Qminmax.
From Stdlib Require Import Sorted Permutation Lia Lqa.
From Stdlib Require DecimalString Qabs Floats.
Import ListNotations.

Set Implicit Arguments.

(** ** JavaScript values *)

Module Js.

Inductive optional (A : Type) : Type :=
| undefined
| null
| val (a : A).
Arguments undefined {A}.
Arguments null {A}.
Arguments val {A} a.

(** ToBoolean on the values of a type. *)
Class Truthy (A : Type) := truthy : A -> bool.

#[global] Instance truthy_string : Truthy string :=
  fun s => match s with EmptyString => false | String _ _ => true end.

#[global] Instance truthy_number : Truthy Q :=
  fun q => negb (Qeq_bool q 0).

(** Arrays and objects are always truthy. *)
#[global] Instance truthy_array (A : Type) : Truthy (list A) :=
  fun _ => true.

#[global] Instance truthy_optional (A : Type) `{Truthy A} : Truthy (optional A) :=
  fun o => match o with val a => truthy a | _ => false end.

(** [a || b] *)
Definition or_else {A : Type} `{Truthy A} (a b : A) : A :=
  if truthy a then a else b.

(** [a === b] on optional strings. *)
Definition strict_eq (a b : optional string) : bool :=
  match a, b with
  | undefined, undefined => true
  | null, null => true
  | val x, val y => String.eqb x y
  | _, _ => false
  end.

(** *** Strings *)

Definition lower_char (c : ascii) : ascii :=
  let n := N_of_ascii c in
  if ((65 <=? n) && (n <=? 90))%N then ascii_of_N (n + 32) else c.

Definition upper_char (c : ascii) : ascii :=
  let n := N_of_ascii c in
  if ((97 <=? n) && (n <=? 122))%N then ascii_of_N (n - 32) else c.

(** The second byte of a two-byte character that starts with byte 195:
    the capitals U+00C0 to U+00DE, but for the multiplication sign
    U+00D7, are 32 below their small letters. *)
Definition lower_latin1 (c : ascii) : ascii :=
  let n := N_of_ascii c in
  if ((128 <=? n) && (n <=? 158) && negb (n =? 151))%N then ascii_of_N (n + 32) else c.

(** [lead] tells that the byte before was 195. *)
Fixpoint lower_from (lead : bool) (s : string) : string :=
  match s with
  | EmptyString => EmptyString
  | String c s' =>
      if lead then String (lower_latin1 c) (lower_from false s')
      else String (lower_char c) (lower_from (N_of_ascii c =? 195)%N s')
  end.

(** [s.toLowerCase()], for texts in the Latin-1 repertoire. *)
Definition toLowerCase (s : string) : string := lower_from false s.

Fixpoint toUpperCase (s : string) : string :=
  match s with
  | EmptyString => EmptyString
  | String c s' => String (upper_char c) (toUpperCase s')
  end.

(** [s.startsWith(p)] *)
Fixpoint startsWith (s p : string) {struct p} : bool :=
  match p with
  | EmptyString => true
  | String a p' =>
      match s with
      | String b s' => Ascii.eqb a b && startsWith s' p'
      | EmptyString => false
      end
  end.

(** [s.includes(sub)]: [sub] starts at some position of [s]. *)
Fixpoint includes (s sub : string) : bool :=
  startsWith s sub ||
  match s with
  | EmptyString => false
  | String _ s' => includes s' sub
  end.

(** Template interpolation of an optional string. *)
Definition interpolate (o : optional string) : string :=
  match o with
  | undefined => "undefined"
  | null => "null"
  | val s => s
  end.

(** [xs.join(sep)]: [undefined] and [null] elements print as nothing. *)
Definition join (sep : string) (xs : list (optional string)) : string :=
  String.concat sep
    (map (fun o => match o with val s => s | _ => EmptyString end) xs).

(** *** Arrays *)

(** [xs.find(p)] *)
Definition find {A : Type} (p : A -> bool) (xs : list A) : optional A :=
  match List.find p xs with
  | Some a => val a
  | None => undefined
  end.

(** [xs.slice(0, stop)]: a negative [stop] counts from the end. *)
Definition slice0 {A : Type} (stop : Z) (xs : list A) : list A :=
  if (stop <? 0)%Z
  then firstn (Z.to_nat (Z.of_nat (List.length xs) + stop)) xs
  else firstn (Z.to_nat stop) xs.

(** [xs.sort(cmp)].  The language requires the sort to be stable, so for
    a comparator that is a total preorder the result is the one an
    insertion sort gives.  [after a b] stands for [cmp(a, b) > 0]. *)
Section Sort.
Variable A : Type.
Variable after : A -> A -> bool.

Fixpoint insert (x : A) (xs : list A) : list A :=
  match xs with
  | [] => [x]
  | y :: ys => if after x y then y :: insert x ys else x :: y :: ys
  end.

Fixpoint sort (xs : list A) : list A :=
  match xs with
  | [] => []
  | x :: xs' => insert x (sort xs')
  end.
End Sort.

(** A [Map] keeps its keys in the order of their first insertion.  The
    grouping idiom of the code,
    [if (!m.has(k)) m.set(k, []); m.get(k).push(v)],
    is [push_to]. *)
Section Grouping.
Variables K V : Type.
Variable same_key : K -> K -> bool.

Fixpoint push_to (k : K) (v : V) (m : list (K * list V)) : list (K * list V) :=
  match m with
  | [] => [(k, [v])]
  | (k', vs) :: m' =>
      if same_key k k' then (k', vs ++ [v]) :: m'
      else (k', vs) :: push_to k v m'
  end.

Definition group_by (key : V -> K) (xs : list V) : list (K * list V) :=
  fold_left (fun m x => push_to (key x) x m) xs [].
End Grouping.

End Js.

Import Js.

(** ** Data model: the JSON records of the remote service *)

Module Director.
Record t : Type := mk {
  name : optional string;
  position : optional string;
  company_id : optional string;
  company_name : optional string;
  company_symbol : optional string
}.
End Director.

Module Company.
Record t : Type := mk {
  id : optional string;
  symbol : optional string;
  name : optional string;
  ticker : optional string;
  sector : optional string;
  market_cap : optional Q;
  price_to_earnings : optional Q;
  pe_ratio : optional Q;
  directors : optional (list Director.t)
}.
End Company.

#[global] Instance truthy_company : Truthy Company.t := fun _ => true.

Module Position.
Record t : Type := mk {
  shareholder_name : optional string;
  name : optional string;
  company_symbol : optional string;
  ticker : optional string;
  percentage : optional Q
}.
End Position.

(** Of a price point only [close] is read, and it is taken to be a number. *)
Module HistoricalPrice.
Record t : Type := mk { close : Q }.
End HistoricalPrice.

(** [a > b] and [a < b] on numbers. *)
Definition gt (a b : Q) : bool := negb (Qle_bool a b).
Definition lt (a b : Q) : bool := gt b a.

(** ** Numbers that a division can leave

    A quotient is finite unless the divisor is zero; then it is an
    infinity, or not a number when the dividend is zero too.  Zero has no
    sign here: a divisor [-0], which would turn the infinity round, is
    read as [0]. *)

Module Num.

Inductive number : Type :=
| Finite (q : Q)
| Infinity (negative : bool)
| NaN.

Definition div (a b : Q) : number :=
  if Qeq_bool b 0
  then if Qeq_bool a 0 then NaN else Infinity (lt a 0)
  else Finite (a / b)%Q.

(** [x * c] for a finite [c]. *)
Definition times (x : number) (c : Q) : number :=
  match x with
  | Finite q => Finite (q * c)%Q
  | Infinity negative =>
      if Qeq_bool c 0 then NaN else Infinity (xorb negative (lt c 0))
  | NaN => NaN
  end.

(** [x - y] *)
Definition sub (x y : number) : number :=
  match x, y with
  | Finite a, Finite b => Finite (a - b)%Q
  | Finite _, Infinity negative => Infinity (negb negative)
  | Infinity negative, Finite _ => Infinity negative
  | Infinity n1, Infinity n2 => if Bool.eqb n1 n2 then NaN else Infinity n1
  | _, _ => NaN
  end.

(** [x > c] and [x < c] against a finite [c]. *)
Definition above (x : number) (c : Q) : bool :=
  match x with
  | Finite q => gt q c
  | Infinity negative => negb negative
  | NaN => false
  end.

Definition below (x : number) (c : Q) : bool :=
  match x with
  | Finite q => lt q c
  | Infinity negative => negative
  | NaN => false
  end.


(** [x <= y]; nothing compares with [NaN]. *)
Definition leb (x y : number) : bool :=
  match x, y with
  | NaN, _ | _, NaN => false
  | Infinity true, _ => true
  | _, Infinity false => true
  | Finite a, Finite b => Qle_bool a b
  | _, _ => false
  end.

Definition is_nan (x : number) : bool :=
  match x with NaN => true | _ => false end.

End Num.

(** Derived records. *)

Module Interlock.
Record t : Type := mk {
  director_name : optional string;
  companies : string;
  board_count : nat;
  positions : string
}.
End Interlock.

Module Overlap.
Record t : Type := mk {
  shareholder_name : optional string;
  companies : string;
  company_count : nat;
  avg_percentage : Q
}.
End Overlap.

Module Performance.
Record t : Type := mk {
  symbol : optional string;
  name : optional string;
  sector : optional string;
  current_price : Q;
  period_change : Num.number
}.
End Performance.

(** ** The remote gateway *)

Module Gateway.

(** Response envelopes, one per endpoint. *)
Record CompaniesData : Type := { data : optional (list Company.t) }.
Record PositionsData : Type := {
  shareholderPositions : optional (list Position.t);
  positions : optional (list Position.t)
}.
Record PricesData : Type := { historicalData : optional (list HistoricalPrice.t) }.

(** The GET requests the embedded methods issue.  A query parameter that
    is [undefined] or [null] is left out of the URL. *)
Inductive Request : Type :=
| GetCompanies
| GetShareholderPositions
| GetHistoricalPrices (symbol : option string) (days : Z).

Definition query_param (o : optional string) : option string :=
  match o with val s => Some s | _ => None end.

(** What the service answers: the parsed JSON, or the printed cause of a
    failure (bad status, network or parse error). *)
Definition Answer (A : Type) : Type := (string + A)%type.

Record Remote : Type := {
  companies_endpoint : Answer CompaniesData;
  positions_endpoint : Answer PositionsData;
  prices_endpoint : option string -> Z -> Answer PricesData
}.

Inductive Outcome (A : Type) : Type :=
| Returned (a : A)
| Thrown (message : string).
Arguments Thrown {A} message.

(** A method body: it reads the remote service and either returns or
    throws; the requests it issued on the way are logged in order. *)
Definition M (A : Type) : Type := Remote -> Outcome A * list Request.

Definition ret {A : Type} (a : A) : M A :=
  fun _ => (Returned a, []).

Definition throw {A : Type} (message : string) : M A :=
  fun _ => (Thrown message, []).

Definition bind {A B : Type} (m : M A) (k : A -> M B) : M B :=
  fun remote =>
    match m remote with
    | (Returned a, issued) =>
        let (outcome, issued') := k a remote in (outcome, issued ++ issued')
    | (Thrown e, issued) => (Thrown e, issued)
    end.

(** [try { m } catch (error) { handler }] *)
Definition try_catch {A : Type} (m : M A) (handler : string -> M A) : M A :=
  fun remote =>
    match m remote with
    | (Returned a, issued) => (Returned a, issued)
    | (Thrown e, issued) =>
        let (outcome, issued') := handler e remote in (outcome, issued ++ issued')
    end.

(** [for (const x of xs) { s = body(s, x) }] with the loop's mutable
    state [s] threaded through. *)
Fixpoint for_of {A S : Type} (xs : list A) (s : S) (body : S -> A -> M S) : M S :=
  match xs with
  | [] => ret s
  | x :: xs' => bind (body s x) (fun s' => for_of xs' s' body)
  end.

(** [fetchAPI(endpoint, params)] *)
Definition fetchAPI {A : Type} (request : Request) (endpoint : Remote -> Answer A) : M A :=
  fun remote =>
    (match endpoint remote with
     | inr json => Returned json
     | inl cause => Thrown ("API request failed: " ++ cause)%string
     end, [request]).

End Gateway.

Import Gateway.

Declare Scope js_scope.
Delimit Scope js_scope with js.
Notation "x <- m ;; k" := (bind m (fun x => k))
  (at level 61, m at next level, right associativity) : js_scope.
Close Scope Q_scope.
Open Scope js_scope.
Open Scope string_scope.
Open Scope list_scope.
Open Scope nat_scope.

(** [xs || []] on an array that may be absent. *)
Definition or_empty {A : Type} (o : optional (list A)) : list A :=
  match o with val xs => xs | _ => [] end.

(** [o && f(o)] in a boolean position. *)
Definition and_then {A : Type} `{Truthy A} (o : optional A) (f : A -> bool) : bool :=
  match o with val a => truthy a && f a | _ => false end.

(** [o || 0] *)
Definition or_zero (o : optional Q) : Q :=
  match o with val q => if truthy q then q else 0%Q | _ => 0%Q end.

(** ** The query facade: class [DatabaseManager] *)

Module DatabaseManager.

Definition getAllCompanies : M (list Company.t) :=
  data <- fetchAPI GetCompanies companies_endpoint ;;
  ret (or_empty (Gateway.data data)).

Definition getCompanyBySymbol (symbol : optional string) : M (optional Company.t) :=
  companies <- getAllCompanies ;;
  ret (or_else (Js.find (fun company => strict_eq (Company.symbol company) symbol) companies)
               null).

Definition getCompaniesBySector (sector : string) : M (list Company.t) :=
  companies <- getAllCompanies ;;
  ret (filter
         (fun company =>
            and_then (Company.sector company)
              (fun s => includes (toLowerCase s) (toLowerCase sector)))
         companies).

(** *** Board interlocks *)

(** The object pushed onto [allDirectors]: the director's own fields with
    the two company fields overwritten. *)
Definition tag_director (company : Company.t) (director : Director.t) : Director.t :=
  {| Director.name := Director.name director;
     Director.position := Director.position director;
     Director.company_id := Director.company_id director;
     Director.company_name := Company.name company;
     Director.company_symbol := Company.ticker company |}.

Definition allDirectors (companies : list Company.t) : list Director.t :=
  flat_map
    (fun company =>
       match Company.directors company with
       | val directors => map (tag_director company) directors
       | _ => []
       end)
    companies.

Definition directorMap (companies : list Company.t)
  : list (optional string * list Director.t) :=
  group_by strict_eq Director.name (allDirectors companies).

Definition interlock_of (entry : optional string * list Director.t) : list Interlock.t :=
  let (name, directorList) := entry in
  if 1 <? List.length directorList
  then [ {| Interlock.director_name := name;
            Interlock.companies :=
              join ", " (map Director.company_name directorList);
            Interlock.board_count := List.length directorList;
            Interlock.positions :=
              join "; "
                (map (fun d =>
                        val (interpolate (Director.company_name d) ++ " ("
                             ++ interpolate (Director.position d) ++ ")")%string)
                     directorList) |} ]
  else [].

(** [(a, b) => b.board_count - a.board_count], positive *)
Definition by_board_count (a b : Interlock.t) : bool :=
  (0 <? Z.of_nat (Interlock.board_count b) - Z.of_nat (Interlock.board_count a))%Z.

Definition interlocks_in (companies : list Company.t) : list Interlock.t :=
  sort by_board_count (flat_map interlock_of (directorMap companies)).

Definition getBoardInterlocks : M (list Interlock.t) :=
  companies <- getAllCompanies ;;
  ret (interlocks_in companies).

(** *** Shareholder overlap *)

Definition position_name (position : Position.t) : optional string :=
  or_else (Position.shareholder_name position) (Position.name position).

Definition shareholderMap (shareholders : list Position.t)
  : list (optional string * list Position.t) :=
  fold_left
    (fun m position =>
       let name := position_name position in
       if negb (truthy name) then m
       else push_to strict_eq name position m)
    shareholders [].

Definition position_company (p : Position.t) : optional string :=
  or_else (Position.company_symbol p) (Position.ticker p).

Definition overlap_of (entry : optional string * list Position.t) : list Overlap.t :=
  let (name, positions) := entry in
  if 1 <? List.length positions
  then
    let companies := filter truthy (map position_company positions) in
    let avgPercentage :=
      (fold_left (fun sum p => sum + or_zero (Position.percentage p)) positions 0
       / inject_Z (Z.of_nat (List.length positions)))%Q in
    [ {| Overlap.shareholder_name := name;
         Overlap.companies := join "," companies;
         Overlap.company_count := List.length companies;
         Overlap.avg_percentage := avgPercentage |} ]
  else [].

Definition by_company_count (a b : Overlap.t) : bool :=
  (0 <? Z.of_nat (Overlap.company_count b) - Z.of_nat (Overlap.company_count a))%Z.

Definition overlaps_in (shareholders : list Position.t) : list Overlap.t :=
  sort by_company_count (flat_map overlap_of (shareholderMap shareholders)).

Definition getShareholderOverlap : M (list Overlap.t) :=
  data <- fetchAPI GetShareholderPositions positions_endpoint ;;
  let shareholders :=
    or_empty (or_else (shareholderPositions data) (positions data)) in
  ret (overlaps_in shareholders).

(** *** Prices *)

Definition getHistoricalPrices (companyId : optional string) (days : Z)
  : M (list HistoricalPrice.t) :=
  companies <- getAllCompanies ;;
  match Js.find (fun c => strict_eq (Company.id c) companyId) companies with
  | val company =>
      data <- fetchAPI
                (GetHistoricalPrices (query_param (Company.symbol company)) days)
                (fun remote =>
                   prices_endpoint remote (query_param (Company.symbol company)) days) ;;
      ret (or_empty (historicalData data))
  | _ => ret []
  end.

(** [((recent.close - old.close) / old.close) * 100]; the division is by
    zero when the oldest close is. *)
Definition changePercent (recent old : HistoricalPrice.t) : Num.number :=
  Num.times
    (Num.div (HistoricalPrice.close recent - HistoricalPrice.close old)%Q
             (HistoricalPrice.close old))
    100.

(** The body of the [try] block for one company; reading a field of an
    element that is not there throws a [TypeError]. *)
Definition performance_step (days : Z) (performances : list Performance.t)
           (company : Company.t) : M (list Performance.t) :=
  historical <- getHistoricalPrices (Company.id company) days ;;
  if 2 <=? List.length historical
  then
    match nth_error historical 0,
          nth_error historical (List.length historical - 1) with
    | Some recent, Some old =>
        ret (performances ++
             [ {| Performance.symbol := Company.symbol company;
                  Performance.name := Company.name company;
                  Performance.sector := Company.sector company;
                  Performance.current_price := HistoricalPrice.close recent;
                  Performance.period_change := changePercent recent old |} ])
    | _, _ => throw "TypeError: Cannot read properties of undefined (reading 'close')"
    end
  else ret performances.

(** [(a, b) => b.period_change - a.period_change], positive.  With a
    change that is not a number the difference is not one either and the
    comparator orders nothing consistently: the order [sort] then leaves is
    up to the engine. *)
Definition by_period_change (a b : Performance.t) : bool :=
  Num.above (Num.sub (Performance.period_change b) (Performance.period_change a)) 0.

Definition getTopPerformers (days limit : Z) : M (list Performance.t) :=
  companies <- getAllCompanies ;;
  performances <-
    for_of (slice0 20 companies) []
      (fun performances company =>
         try_catch (performance_step days performances company)
                   (fun _ => ret performances)) ;;
  ret (slice0 limit (sort by_period_change performances)).

(** *** Operations the backend does not offer *)

Inductive ESGScore : Type := .
Inductive Row : Type := .

Definition getESGScores (companyId : optional string) : M (list ESGScore) :=
  ret [].

Definition executeCustomQuery (sql : string) (params : list string) : M (list Row) :=
  throw "Custom SQL queries are not supported via the Cloudflare Worker API. Please use the specific endpoints available.".

End DatabaseManager.

(** ** Regular expressions

    The fragment the query router uses: literals, alternation, sequence,
    the word boundary and a greedy [.*], matched by backtracking in the
    order the language prescribes (leftmost start, alternatives left to
    right, [.*] longest first). *)

Module Regex.

Inductive t : Type :=
| Lit (s : string)
| Alt (r1 r2 : t)
| Cat (r1 r2 : t)
| WordBoundary
| AnyStar.

Definition between (lo hi n : N) : bool := ((lo <=? n) && (n <=? hi))%N.

(** [\w] *)
Definition is_word_char (c : ascii) : bool :=
  let n := N_of_ascii c in
  between 48 57 n || between 65 90 n || (n =? 95)%N || between 97 122 n.

(** The characters [.] refuses. *)
Definition is_line_terminator (c : ascii) : bool :=
  let n := N_of_ascii c in ((n =? 10) || (n =? 13))%N.

(** [\b] between the character before the position and the one at it. *)
Definition at_boundary (prev : option ascii) (s : string) : bool :=
  xorb (match prev with Some c => is_word_char c | None => false end)
       (match s with String c _ => is_word_char c | EmptyString => false end).

Section Run.
Variable ignore_case : bool.
Variable R : Type.

Definition same_char (a b : ascii) : bool :=
  if ignore_case then Ascii.eqb (upper_char a) (upper_char b)
  else Ascii.eqb a b.

Fixpoint lit (p : string) (prev : option ascii) (s : string)
         (k : option ascii -> string -> option R) : option R :=
  match p with
  | EmptyString => k prev s
  | String a p' =>
      match s with
      | String b s' => if same_char a b then lit p' (Some b) s' k else None
      | EmptyString => None
      end
  end.

Fixpoint any_star (prev : option ascii) (s : string)
         (k : option ascii -> string -> option R) : option R :=
  match s with
  | EmptyString => k prev s
  | String c s' =>
      if is_line_terminator c then k prev s
      else match any_star (Some c) s' k with
           | Some r => Some r
           | None => k prev s
           end
  end.

Fixpoint run (r : t) (prev : option ascii) (s : string)
         (k : option ascii -> string -> option R) : option R :=
  match r with
  | Lit p => lit p prev s k
  | Alt r1 r2 =>
      match run r1 prev s k with
      | Some x => Some x
      | None => run r2 prev s k
      end
  | Cat r1 r2 => run r1 prev s (fun prev' s' => run r2 prev' s' k)
  | WordBoundary => if at_boundary prev s then k prev s else None
  | AnyStar => any_star prev s k
  end.
End Run.

(** A match starting exactly here: what is left of the input after it. *)
Definition match_here (ignore_case : bool) (r : t) (prev : option ascii) (s : string)
  : option string :=
  run ignore_case r prev s (fun _ rest => Some rest).

Fixpoint exec_from (ignore_case : bool) (r : t) (prev : option ascii) (s : string)
  : option string :=
  match match_here ignore_case r prev s with
  | Some rest => Some (substring 0 (String.length s - String.length rest) s)
  | None =>
      match s with
      | EmptyString => None
      | String c s' => exec_from ignore_case r (Some c) s'
      end
  end.

(** [s.match(r)]: the matched text [match[0]], if any. *)
Definition exec (ignore_case : bool) (r : t) (s : string) : option string :=
  exec_from ignore_case r None s.

Definition test (ignore_case : bool) (r : t) (s : string) : bool :=
  match exec ignore_case r s with Some _ => true | None => false end.

(** [(a|b|c)] *)
Fixpoint one_of (first : string) (others : list string) : t :=
  match others with
  | [] => Lit first
  | next :: rest => Alt (Lit first) (one_of next rest)
  end.

(** [\b(a|b|c)\b] *)
Definition word (first : string) (others : list string) : t :=
  Cat WordBoundary (Cat (one_of first others) WordBoundary).

End Regex.

(** ** Numeric comparison of values that may be absent *)

(** ToNumber: [null] is [0]; [undefined] is not a number, and every
    comparison with it is false. *)
Definition to_number (o : optional Q) : option Q :=
  match o with
  | undefined => None
  | null => Some 0%Q
  | val q => Some q
  end.

Definition gt_opt (a b : optional Q) : bool :=
  match to_number a, to_number b with
  | Some x, Some y => gt x y
  | _, _ => false
  end.

Definition lt_opt (a b : optional Q) : bool := gt_opt b a.

(** [Math.round]: to the nearest integer, halves upwards. *)
Definition round (x : Q) : Z := Qfloor (x + (1 # 2))%Q.

(** ** The analytics engine: class [AnalyticsManager] *)

Module SectorPerformance.
Record t : Type := mk {
  sector : string;
  company_count : nat;
  total_market_cap : Q;
  avg_market_cap : Q;
  avg_pe_ratio : optional Q;
  companies : list (optional string * optional string * optional Q)
}.
End SectorPerformance.

Module Concentration.
Record t : Type := mk {
  hhi_index : Z;
  concentration_level : string;
  top_3_market_share : optional Q
}.
End Concentration.

Module Correlation.
Record t : Type := mk {
  period_days : Z;
  sector_performance : list SectorPerformance.t;
  total_sectors : nat;
  largest_sector : string;
  market_concentration : Concentration.t
}.
End Correlation.

Module Opportunity.
Record t : Type := mk {
  company : Company.t;
  symbol : optional string;
  name : optional string;
  sector : optional string;
  score : Q;
  key_metrics : optional Q * optional Q
}.
End Opportunity.

Module Criteria.
Record t : Type := mk {
  pe_ratio_min : optional Q;
  pe_ratio_max : optional Q;
  market_cap_min : optional Q;
  market_cap_max : optional Q;
  sectors : optional (list string);
  exclude_sectors : optional (list string)
}.
End Criteria.

Module Screening.
(** The time stamp and the summary's [top_scoring_sector] are left out of
    the record; nothing below depends on them. *)
Record t : Type := mk {
  criteria : Criteria.t;
  total_companies_screened : nat;
  opportunities : list Opportunity.t;
  companies_passed_screening : nat;
  average_score : Q
}.
End Screening.

Module AnalyticsManager.

(** *** Market concentration *)

Definition totalMarketCap (sectorPerformance : list SectorPerformance.t) : Q :=
  fold_left (fun sum sector => sum + SectorPerformance.total_market_cap sector)%Q
            sectorPerformance 0%Q.

(** The Herfindahl-Hirschman index, before rounding. *)
Definition hhi (sectorPerformance : list SectorPerformance.t) : Q :=
  fold_left
    (fun sum sector =>
       let share :=
         (SectorPerformance.total_market_cap sector / totalMarketCap sectorPerformance)%Q in
       sum + share * share * 10000)%Q
    sectorPerformance 0%Q.

Definition concentrationLevel (hhi : Q) : string :=
  if gt hhi 2500 then "highly_concentrated"
  else if gt hhi 1500 then "moderately_concentrated"
  else "competitive".

Definition calculateMarketConcentration (sectorPerformance : list SectorPerformance.t)
  : Concentration.t :=
  let total := totalMarketCap sectorPerformance in
  if Qeq_bool total 0
  then {| Concentration.hhi_index := 0;
          Concentration.concentration_level := "unknown";
          Concentration.top_3_market_share := undefined |}
  else {| Concentration.hhi_index := round (hhi sectorPerformance);
          Concentration.concentration_level := concentrationLevel (hhi sectorPerformance);
          Concentration.top_3_market_share :=
            val (fold_left
                   (fun sum sector =>
                      sum + SectorPerformance.total_market_cap sector / total)%Q
                   (slice0 3 sectorPerformance) 0 * 100)%Q |}.

(** *** Sector correlation *)

Definition sectorMap (companies : list Company.t) : list (string * list Company.t) :=
  fold_left
    (fun m company =>
       match Company.sector company with
       | val sector =>
           if negb (truthy sector) then m
           else push_to String.eqb sector company m
       | _ => m
       end)
    companies [].

Definition company_pe (company : Company.t) : optional Q :=
  or_else (Company.price_to_earnings company) (Company.pe_ratio company).

Definition sector_entry (entry : string * list Company.t) : SectorPerformance.t :=
  let (sector, sectorCompanies) := entry in
  let '(totalMarketCap, companiesWithData, avgPE, peCount) :=
    fold_left
      (fun '(totalMarketCap, companiesWithData, avgPE, peCount) company =>
         let '(totalMarketCap, companiesWithData) :=
           if truthy (Company.market_cap company)
           then ((totalMarketCap + or_zero (Company.market_cap company))%Q,
                 S companiesWithData)
           else (totalMarketCap, companiesWithData) in
         let pe := company_pe company in
         if truthy pe
         then (totalMarketCap, companiesWithData, (avgPE + or_zero pe)%Q, S peCount)
         else (totalMarketCap, companiesWithData, avgPE, peCount))
      sectorCompanies (0%Q, 0, 0%Q, 0) in
  {| SectorPerformance.sector := sector;
     SectorPerformance.company_count := List.length sectorCompanies;
     SectorPerformance.total_market_cap := totalMarketCap;
     SectorPerformance.avg_market_cap :=
       if 0 <? companiesWithData
       then (totalMarketCap / inject_Z (Z.of_nat companiesWithData))%Q else 0%Q;
     SectorPerformance.avg_pe_ratio :=
       if 0 <? peCount then val (avgPE / inject_Z (Z.of_nat peCount))%Q else null;
     SectorPerformance.companies :=
       map (fun c => (Company.symbol c, Company.name c, Company.market_cap c))
           (slice0 5 sectorCompanies) |}.

(** [(a, b) => b.total_market_cap - a.total_market_cap], positive *)
Definition by_total_market_cap (a b : SectorPerformance.t) : bool :=
  gt (SectorPerformance.total_market_cap b - SectorPerformance.total_market_cap a) 0.

Definition sector_performance_of (companies : list Company.t) : list SectorPerformance.t :=
  sort by_total_market_cap (map sector_entry (sectorMap companies)).

Definition getSectorCorrelationAnalysis (days : Z) : M Correlation.t :=
  companies <- DatabaseManager.getAllCompanies ;;
  let sectorPerformance := sector_performance_of companies in
  ret {| Correlation.period_days := days;
         Correlation.sector_performance := sectorPerformance;
         Correlation.total_sectors := List.length sectorPerformance;
         Correlation.largest_sector :=
           match sectorPerformance with
           | first :: _ =>
               or_else (SectorPerformance.sector first) "Unknown"
           | [] => "Unknown"
           end;
         Correlation.market_concentration :=
           calculateMarketConcentration sectorPerformance |}.

(** *** Opportunity screening *)

Definition base_score : Q := 5.

Definition raw_score (company : Company.t) : Q :=
  let score := base_score in
  let pe := company_pe company in
  let score := if and_then pe (fun pe => lt pe 15) then (score + 1)%Q else score in
  let score := if and_then pe (fun pe => gt pe 25) then (score - (5 # 10))%Q else score in
  let score :=
    if gt_opt (Company.market_cap company) (val 10000000000%Q)
    then (score + (5 # 10))%Q else score in
  let score :=
    if lt_opt (Company.market_cap company) (val 1000000000%Q)
    then (score - (3 # 10))%Q else score in
  if and_then (Company.sector company)
       (fun sector =>
          existsb (String.eqb (toLowerCase sector))
                  ["banking"; "technology"; "healthcare"])
  then (score + (3 # 10))%Q else score.

Definition score_company (company : Company.t) : Opportunity.t :=
  {| Opportunity.company := company;
     Opportunity.symbol := Company.symbol company;
     Opportunity.name := Company.name company;
     Opportunity.sector := Company.sector company;
     Opportunity.score := Qmax 0 (Qmin 10 (raw_score company));
     Opportunity.key_metrics := (Company.market_cap company, company_pe company) |}.

(** [(a, b) => b.score - a.score], positive *)
Definition by_score (a b : Opportunity.t) : bool :=
  gt (Opportunity.score b - Opportunity.score a) 0.

Definition scoreOpportunities (companies : list Company.t) (criteria : Criteria.t)
  : M (list Opportunity.t) :=
  ret (sort by_score (map score_company companies)).

Definition is_defined {A : Type} (o : optional A) : bool :=
  match o with undefined => false | _ => true end.

Definition nullish {A : Type} (o : optional A) : bool :=
  match o with val _ => false | _ => true end.

(** [company.sector?.toLowerCase().includes(sector.toLowerCase())] *)
Definition sector_matches (company : Company.t) (sector : string) : bool :=
  match Company.sector company with
  | val s => includes (toLowerCase s) (toLowerCase sector)
  | _ => false
  end.

Definition pe_filter (criteria : Criteria.t) (company : Company.t) : bool :=
  let pe := company_pe company in
  if nullish pe then false
  else if is_defined (Criteria.pe_ratio_min criteria)
          && lt_opt pe (Criteria.pe_ratio_min criteria) then false
  else if is_defined (Criteria.pe_ratio_max criteria)
          && gt_opt pe (Criteria.pe_ratio_max criteria) then false
  else true.

Definition market_cap_filter (criteria : Criteria.t) (company : Company.t) : bool :=
  let cap := Company.market_cap company in
  if negb (truthy cap) then false
  else if is_defined (Criteria.market_cap_min criteria)
          && lt_opt cap (Criteria.market_cap_min criteria) then false
  else if is_defined (Criteria.market_cap_max criteria)
          && gt_opt cap (Criteria.market_cap_max criteria) then false
  else true.

Definition apply_filters (criteria : Criteria.t) (companies : list Company.t)
  : list Company.t :=
  let filteredCompanies := companies in
  let filteredCompanies :=
    if is_defined (Criteria.pe_ratio_min criteria)
       || is_defined (Criteria.pe_ratio_max criteria)
    then filter (pe_filter criteria) filteredCompanies else filteredCompanies in
  let filteredCompanies :=
    if is_defined (Criteria.market_cap_min criteria)
       || is_defined (Criteria.market_cap_max criteria)
    then filter (market_cap_filter criteria) filteredCompanies else filteredCompanies in
  let filteredCompanies :=
    match Criteria.sectors criteria with
    | val ((_ :: _) as sectors) =>
        filter (fun company => existsb (sector_matches company) sectors)
               filteredCompanies
    | _ => filteredCompanies
    end in
  match Criteria.exclude_sectors criteria with
  | val ((_ :: _) as exclude_sectors) =>
      filter (fun company => negb (existsb (sector_matches company) exclude_sectors))
             filteredCompanies
  | _ => filteredCompanies
  end.

Definition print_error (message : string) : string := ("Error: " ++ message)%string.

Definition screenOpportunities (criteria : Criteria.t) (limit : Z) : M Screening.t :=
  try_catch
    (companies <- DatabaseManager.getAllCompanies ;;
     scoredOpportunities <- scoreOpportunities (apply_filters criteria companies) criteria ;;
     ret {| Screening.criteria := criteria;
            Screening.total_companies_screened := List.length companies;
            Screening.opportunities := slice0 limit scoredOpportunities;
            Screening.companies_passed_screening := List.length scoredOpportunities;
            Screening.average_score :=
              if 0 <? List.length scoredOpportunities
              then (fold_left (fun sum opp => sum + Opportunity.score opp)%Q
                              scoredOpportunities 0%Q
                    / inject_Z (Z.of_nat (List.length scoredOpportunities)))%Q
              else 0%Q |})
    (fun error => throw ("Opportunity screening failed: " ++ print_error error)%string).

End AnalyticsManager.

(** ** Natural-language query routing *)

Module Router.

Import Regex.

(** The tests of the [if]/[else if] chain, in source order. *)
Definition banking_pattern : Regex.t :=
  Cat (word "bank" ["banking"; "financial"])
      (Cat AnyStar (word "grow" ["growth"; "performance"; "best"; "worst"])).

Definition risk_pattern : Regex.t :=
  word "risk" ["risky"; "governance"; "red flag"].

Definition comparison_pattern : Regex.t :=
  word "compare" ["vs"; "versus"; "against"].

Definition sector_pattern : Regex.t :=
  Cat WordBoundary
      (Cat (one_of "sector" ["industry"])
           (Cat AnyStar (word "performance" ["trend"; "growth"]))).

Definition price_pattern : Regex.t :=
  word "price" ["trend"; "forecast"; "prediction"].

Definition sector_name_pattern : Regex.t :=
  word "banking" ["energy"; "telecom"; "textile"; "steel"; "aviation"; "infrastructure"].

(** [companyPatterns], each with the [i] flag. *)
Definition companyPatterns : list Regex.t :=
  [ word "santander" ["san.mc"; "san"];
    word "bbva" ["bbva.mc"];
    word "iberdrola" ["ibe.mc"; "ibe"];
    word "telefonica" ["tef.mc"; "tef"];
    word "inditex" ["itx.mc"; "itx"] ].

Inductive QueryKind : Type :=
| BankingPerformance
| RiskGovernance
| Comparison
| SectorTrend
| PriceTrend
| GeneralOverview.

Definition classify (lowerQuery : string) : QueryKind :=
  if test false banking_pattern lowerQuery then BankingPerformance
  else if test false risk_pattern lowerQuery then RiskGovernance
  else if test false comparison_pattern lowerQuery then Comparison
  else if test false sector_pattern lowerQuery then SectorTrend
  else if test false price_pattern lowerQuery then PriceTrend
  else GeneralOverview.

(** The loop that fills [foundCompanies]. *)
Definition foundCompanies (lowerQuery : string) : list string :=
  fold_left
    (fun found pattern =>
       if test true pattern lowerQuery
       then match exec true pattern lowerQuery with
            | Some match0 => found ++ [toUpperCase match0]
            | None => found
            end
       else found)
    companyPatterns [].

(** A text between double quotes. *)
Definition quoted (s : string) : string :=
  (String "034"%char s ++ String "034"%char EmptyString)%string.

Definition generateActionSuggestions (interpretation : string) : list string :=
  (if includes interpretation "Banking"
   then [("Use get_companies_by_sector with " ++ quoted "banking"
          ++ " for more details")%string;
         "Try compare_companies to analyze specific banking stocks"]
   else [])
  ++ (if includes interpretation "risk"
      then ["Use assess_investment_risk for detailed risk analysis";
            "Try get_board_interlocks to analyze governance connections"]
      else [])
  ++ ["Use generate_analyst_report for comprehensive analysis";
      "Try screen_opportunities to find investment candidates"].

Section Analyze.

(** The collaborators of the router that are not embedded: the
    comparison operation, and the data gathering of the other
    branches. *)
Variables ComparisonReport Payload : Type.
Variable compareCompanies : list string -> list string -> M ComparisonReport.
Variable bankingResults riskResults priceResults generalResults : M Payload.
Variable sectorResults : string -> M Payload.

Inductive Results : Type :=
| NoResults
| Compared (report : ComparisonReport)
| NotCompared (error suggestion : string)
| Gathered (payload : Payload).

Record Analysis : Type := {
  original_query : string;
  context : optional string;
  interpretation : string;
  suggested_actions : list string;
  results : Results;
  execution_plan : list string;
  error : optional string;
  fallback_suggestion : optional string
}.

Definition interpreted (a : Analysis) (interpretation : string) (plan : list string)
  : Analysis :=
  {| original_query := original_query a;
     context := context a;
     interpretation := interpretation;
     suggested_actions := suggested_actions a;
     results := results a;
     execution_plan := execution_plan a ++ plan;
     error := error a;
     fallback_suggestion := fallback_suggestion a |}.

Definition completed (a : Analysis) (r : Results) : Analysis :=
  {| original_query := original_query a;
     context := context a;
     interpretation := interpretation a;
     suggested_actions := generateActionSuggestions (interpretation a);
     results := r;
     execution_plan := execution_plan a;
     error := error a;
     fallback_suggestion := fallback_suggestion a |}.

Definition failed (a : Analysis) (message : string) : Analysis :=
  {| original_query := original_query a;
     context := context a;
     interpretation := interpretation a;
     suggested_actions := suggested_actions a;
     results := results a;
     execution_plan := execution_plan a;
     error :=
       val ("Failed to process natural language query: "
            ++ AnalyticsManager.print_error message)%string;
     fallback_suggestion :=
       val "Try using specific tool names like get_all_companies, get_recent_news, or get_board_interlocks" |}.

(** One branch of the chain: the analysis as it stands once the branch
    has set its interpretation and plan, and the awaited work whose
    value becomes [analysis.results]. *)
Definition branch (lowerQuery : string) (analysis : Analysis)
  : Analysis * M Results :=
  match classify lowerQuery with
  | BankingPerformance =>
      (interpreted analysis "Banking sector performance analysis"
         ["Get banking sector companies"; "Analyze recent performance"; "Rank by growth"],
       p <- bankingResults ;; ret (Gathered p))
  | RiskGovernance =>
      (interpreted analysis "Risk assessment analysis"
         ["Analyze governance risks"; "Check market risks"; "Generate risk report"],
       p <- riskResults ;; ret (Gathered p))
  | Comparison =>
      (interpreted analysis "Company comparison analysis" [],
       let found := foundCompanies lowerQuery in
       if 2 <=? List.length found
       then report <- compareCompanies found ["all"] ;; ret (Compared report)
       else ret (NotCompared
                   "Could not identify companies to compare"
                   ("Try: " ++ quoted "Compare Santander vs BBVA"
                    ++ " or use company symbols like SAN.MC vs BBVA.MC")%string))
  | SectorTrend =>
      let sector :=
        match exec false sector_name_pattern lowerQuery with
        | Some name => name
        | None => "energy"
        end in
      (interpreted analysis (sector ++ " sector performance analysis")%string [],
       p <- sectorResults sector ;; ret (Gathered p))
  | PriceTrend =>
      (interpreted analysis "Price trend analysis" [],
       p <- priceResults ;; ret (Gathered p))
  | GeneralOverview =>
      (interpreted analysis "General market overview" [],
       p <- generalResults ;; ret (Gathered p))
  end.

Definition analyzeNaturalQuery (query : string) (context : optional string)
  : M Analysis :=
  let lowerQuery := toLowerCase query in
  let analysis :=
    {| original_query := query;
       context := context;
       interpretation := EmptyString;
       suggested_actions := [];
       results := NoResults;
       execution_plan := [];
       error := undefined;
       fallback_suggestion := undefined |} in
  let (analysis, work) := branch lowerQuery analysis in
  try_catch
    (r <- work ;; ret (completed analysis r))
    (fun message => ret (failed analysis message)).

End Analyze.

End Router.

(** * The concentration figures on IEEE doubles

    The program's numbers are binary64 values.  Sums, quotients and
    products of such values are rounded, and where a statement turns on
    the last bits of a sum of squared shares the rational reading of
    [AnalyticsManager] says nothing of the program.  This module evaluates
    [calculateMarketConcentration] again, expression by expression, on
    the doubles. *)

Module Binary64.

Import Floats.
Local Open Scope float_scope.

(** Of a sector row only [total_market_cap] is read. *)
Module Sector.
Record t : Type := mk { total_market_cap : float }.
End Sector.

Module Concentration.
Record t : Type := mk {
  hhi_index : float;
  concentration_level : string;
  top_3_market_share : optional float
}.
End Concentration.

(** [Math.round]: the integer nearest to [x], the upper one of two that
    are equally near; a value without fraction, an infinity and [NaN] are
    returned as they are, and a negative value that rounds to zero gives
    [-0].  Below [2^52] in size the integer is found exactly, from the
    mantissa [m] and the exponent [e] of [x = m * 2^e]. *)
Definition round (x : float) : float :=
  match Prim2SF x with
  | S754_finite negative m e =>
      if (0 <=? e)%Z then x
      else
        let signed := if negative then Z.neg m else Z.pos m in
        let nearest := ((2 * signed + 2 ^ (- e)) / 2 ^ (1 - e))%Z in
        if (nearest <? 0)%Z then - of_uint63 (Uint63.of_Z (- nearest))
        else if negative && (nearest =? 0)%Z then neg_zero
        else of_uint63 (Uint63.of_Z nearest)
  | _ => x
  end.

Definition totalMarketCap (sectorPerformance : list Sector.t) : float :=
  fold_left (fun sum sector => sum + Sector.total_market_cap sector)
            sectorPerformance 0.

(** The Herfindahl-Hirschman index, before [Math.round]. *)
Definition hhi (sectorPerformance : list Sector.t) : float :=
  fold_left
    (fun sum sector =>
       let share := Sector.total_market_cap sector / totalMarketCap sectorPerformance in
       sum + share * share * 10000)
    sectorPerformance 0.

Definition concentrationLevel (hhi : float) : string :=
  if 2500 <? hhi then "highly_concentrated"
  else if 1500 <? hhi then "moderately_concentrated"
  else "competitive".

Definition calculateMarketConcentration (sectorPerformance : list Sector.t)
  : Concentration.t :=
  let total := totalMarketCap sectorPerformance in
  if total =? 0
  then {| Concentration.hhi_index := 0;
          Concentration.concentration_level := "unknown";
          Concentration.top_3_market_share := undefined |}
  else {| Concentration.hhi_index := round (hhi sectorPerformance);
          Concentration.concentration_level := concentrationLevel (hhi sectorPerformance);
          Concentration.top_3_market_share :=
            val (fold_left
                   (fun sum sector => sum + Sector.total_market_cap sector / total)
                   (slice0 3 sectorPerformance) 0 * 100) |}.

End Binary64.

(** ** Further queries of [DatabaseManager] *)

Module Queries.

Import DatabaseManager.

Definition getCompaniesWithPERatio (minPE maxPE : optional Q) : M (list Company.t) :=
  companies <- getAllCompanies ;;
  ret (filter
         (fun company =>
            let pe := AnalyticsManager.company_pe company in
            if AnalyticsManager.nullish pe then false
            else if AnalyticsManager.is_defined minPE && lt_opt pe minPE then false
            else if AnalyticsManager.is_defined maxPE && gt_opt pe maxPE then false
            else true)
         companies).

(** [position.company_symbol === symbol || position.ticker === symbol] *)
Definition held_in (symbol : optional string) (position : Position.t) : bool :=
  strict_eq (Position.company_symbol position) symbol
  || strict_eq (Position.ticker position) symbol.

Definition getCompanyShareholders (companyId : optional string) : M (list Position.t) :=
  data <- fetchAPI GetShareholderPositions positions_endpoint ;;
  let shareholders :=
    or_empty (or_else (shareholderPositions data) (positions data)) in
  companies <- getAllCompanies ;;
  match Js.find (fun c => strict_eq (Company.id c) companyId) companies with
  | val company => ret (filter (held_in (Company.symbol company)) shareholders)
  | _ => ret []
  end.

(** [(a, b) => (b.percentage || 0) - (a.percentage || 0)], positive *)
Definition by_percentage (a b : Position.t) : bool :=
  gt (or_zero (Position.percentage b) - or_zero (Position.percentage a)) 0.

(** [xs.includes(x)] on an array of optional strings. *)
Definition array_includes (xs : list (optional string)) (x : optional string) : bool :=
  existsb (fun y => strict_eq y x) xs.

Definition getTopShareholdersBySector (sector : string) (limit : Z) : M (list Position.t) :=
  companies <- getCompaniesBySector sector ;;
  data <- fetchAPI GetShareholderPositions positions_endpoint ;;
  let shareholders :=
    or_empty (or_else (shareholderPositions data) (positions data)) in
  let sectorSymbols := map Company.symbol companies in
  let sectorShareholders :=
    filter (fun position => array_includes sectorSymbols (position_company position))
           shareholders in
  ret (slice0 limit (sort by_percentage sectorShareholders)).

End Queries.

(** ** Network analysis of [AnalyticsManager] *)

Module DirectorMetrics.
Record t : Type := mk {
  total_interlocks : nat;
  interlocked_directors : list Interlock.t;
  most_connected_directors : list Interlock.t;
  network_density : Q
}.
End DirectorMetrics.

Module ShareholderMetrics.
Record t : Type := mk {
  multi_company_shareholders : list Overlap.t;
  cross_sector_investors : list Overlap.t;
  total_overlap_connections : nat;
  average_holdings_per_investor : Q
}.
End ShareholderMetrics.

Module RedFlag.
Record t : Type := mk {
  company : optional string;
  risk_type : string;
  description : string;
  severity : string
}.
End RedFlag.

Module GovernanceRisks.
Record t : Type := mk {
  governance_red_flags : list RedFlag.t;
  total_red_flags : nat;
  high_risk_companies : nat
}.
End GovernanceRisks.

Module NetworkAnalysis.
Record t : Type := mk {
  director_network : DirectorMetrics.t;
  shareholder_network : ShareholderMetrics.t;
  cross_ownership_analysis : list Overlap.t;
  governance_risk_factors : GovernanceRisks.t
}.
End NetworkAnalysis.

Module Network.

Import DatabaseManager.

(** A length as a number. *)
Definition number_of_nat (n : nat) : Q := inject_Z (Z.of_nat n).

(** A non-negative integer printed in a template. *)
Definition print_nat (n : nat) : string :=
  DecimalString.NilZero.string_of_uint (Nat.to_uint n).

(** The loop over the interlocks that splits [companies] has no effect and
    is left out. *)
Definition calculateDirectorNetworkMetrics (interlocks : list Interlock.t)
  : DirectorMetrics.t :=
  let totalInterlocks := List.length interlocks in
  let topDirectors := slice0 10 interlocks in
  {| DirectorMetrics.total_interlocks := totalInterlocks;
     DirectorMetrics.interlocked_directors := topDirectors;
     DirectorMetrics.most_connected_directors := slice0 5 topDirectors;
     DirectorMetrics.network_density :=
       if 0 <? totalInterlocks then (number_of_nat totalInterlocks / 35)%Q else 0%Q |}.

Definition calculateShareholderNetworkMetrics (overlaps : list Overlap.t)
  : ShareholderMetrics.t :=
  {| ShareholderMetrics.multi_company_shareholders := overlaps;
     ShareholderMetrics.cross_sector_investors :=
       filter (fun s => 2 <? Overlap.company_count s) overlaps;
     ShareholderMetrics.total_overlap_connections := List.length overlaps;
     ShareholderMetrics.average_holdings_per_investor :=
       if 0 <? List.length overlaps
       then (fold_left (fun sum s => sum + number_of_nat (Overlap.company_count s))%Q
                       overlaps 0%Q
             / number_of_nat (List.length overlaps))%Q
       else 0%Q |}.

(** The flags one company adds to [redFlags]. *)
Definition flags_of (interlocks : list Interlock.t) (company : Company.t)
  : list RedFlag.t :=
  let companyInterlocks :=
    filter (fun interlock =>
              includes (Interlock.companies interlock)
                       (interpolate (Company.symbol company)))
           interlocks in
  (if 3 <? List.length companyInterlocks
   then [ {| RedFlag.company := Company.symbol company;
             RedFlag.risk_type := "high_director_interlocks";
             RedFlag.description :=
               ("Company has " ++ print_nat (List.length companyInterlocks)
                ++ " interlocked directors")%string;
             RedFlag.severity := "medium" |} ]
   else [])
  ++
  (if and_then (Company.market_cap company) (fun cap => gt cap 50000000000)
   then [ {| RedFlag.company := Company.symbol company;
             RedFlag.risk_type := "market_dominance";
             RedFlag.description := "Large market cap may indicate market concentration";
             RedFlag.severity := "low" |} ]
   else []).

(** [severity === 'high' ? 3 : severity === 'medium' ? 2 : 1] *)
Definition severity_rank (flag : RedFlag.t) : Z :=
  if String.eqb (RedFlag.severity flag) "high" then 3
  else if String.eqb (RedFlag.severity flag) "medium" then 2
  else 1.

Definition by_severity (a b : RedFlag.t) : bool :=
  (0 <? severity_rank b - severity_rank a)%Z.

Definition getGovernanceRiskFactors (companies : list Company.t)
           (interlocks : list Interlock.t) : M GovernanceRisks.t :=
  let redFlags := flat_map (flags_of interlocks) companies in
  (* the array is sorted in place before its length and its high flags are read *)
  let redFlags := sort by_severity redFlags in
  ret {| GovernanceRisks.governance_red_flags := redFlags;
         GovernanceRisks.total_red_flags := List.length redFlags;
         GovernanceRisks.high_risk_companies :=
           List.length
             (filter (fun f => String.eqb (RedFlag.severity f) "high") redFlags) |}.

Definition getComplexNetworkAnalysis : M NetworkAnalysis.t :=
  companies <- getAllCompanies ;;
  directors <- getBoardInterlocks ;;
  shareholders <- getShareholderOverlap ;;
  let directorNetworkMetrics := calculateDirectorNetworkMetrics directors in
  let shareholderNetworkMetrics := calculateShareholderNetworkMetrics shareholders in
  governance <- getGovernanceRiskFactors companies directors ;;
  ret {| NetworkAnalysis.director_network := directorNetworkMetrics;
         NetworkAnalysis.shareholder_network := shareholderNetworkMetrics;
         NetworkAnalysis.cross_ownership_analysis := shareholders;
         NetworkAnalysis.governance_risk_factors := governance |}.

End Network.

(** ** Helper methods of [AnalyticsManager] *)

Module Trend.
Record t : Type := mk {
  direction : string;
  strength : Num.number;
  support_level : Q;
  resistance_level : Q;
  current_position : string
}.
End Trend.

Module Competition.
Record t : Type := mk {
  total_companies : nat;
  market_leaders : list Company.t;
  competition_intensity : string;
  concentration_ratio : Q
}.
End Competition.

Module Metrics.

Import Network.

Definition assessCompanyRisk (company : Company.t) (directors : list Director.t) : string :=
  let riskLevel := "low" in
  let riskLevel := if 15 <? List.length directors then "medium" else riskLevel in
  let riskLevel :=
    if negb (truthy (Company.market_cap company))
       || lt_opt (Company.market_cap company) (val 1000000000%Q)
    then "medium" else riskLevel in
  if negb (truthy (Company.price_to_earnings company))
     && negb (truthy (Company.pe_ratio company))
  then "high" else riskLevel.

Definition calculateGovernanceScore (directors : list Director.t)
           (interlocks : list Interlock.t) : Q :=
  let score := 8%Q in
  let score := if 15 <? List.length directors then (score - 1)%Q else score in
  let score := if List.length directors <? 5 then (score - (5 # 10))%Q else score in
  let score := if 5 <? List.length interlocks then (score - 2)%Q else score in
  Qmax 0 (Qmin 10 score).

(** [(a, b) => a - b], positive *)
Definition ascending (a b : Q) : bool := gt (a - b) 0.

(** [xs.findIndex(p)], with [None] for [-1]. *)
Fixpoint findIndex {A : Type} (p : A -> bool) (xs : list A) : option nat :=
  match xs with
  | [] => None
  | x :: xs' =>
      if p x then Some 0
      else match findIndex p xs' with
           | Some i => Some (S i)
           | None => None
           end
  end.

(** The values of an array that are neither [null] nor [undefined]. *)
Definition present (dataset : list (optional Q)) : list Q :=
  flat_map (fun v => match v with val q => [q] | _ => [] end) dataset.

Definition calculatePercentile (value : optional Q) (dataset : list (optional Q)) : Q :=
  match value with
  | val value =>
      if negb (truthy value) || (List.length dataset =? 0) then 0%Q
      else
        let sorted := sort ascending (present dataset) in
        match findIndex (fun v => negb (lt v value)) sorted with
        | None => 100%Q
        | Some index =>
            (number_of_nat index / number_of_nat (List.length sorted) * 100)%Q
        end
  | _ => 0%Q
  end.

(** [(a, b) => b - a], positive *)
Definition descending (a b : Q) : bool := gt (b - a) 0.





End Metrics.

(** ** Risk assessment *)

Module RiskDimension.
Record t : Type := mk {
  risk_level : string;
  factors : list string;
  score : Q;
  recommendations : list string
}.
End RiskDimension.

Module RiskAssessment.
(** The time stamp is left out of the record. *)
Record t : Type := mk {
  target : string;
  risk_types_analyzed : list string;
  overall_risk_score : Num.number;
  risk_breakdown : list (string * RiskDimension.t);
  recommendations : list string
}.
End RiskAssessment.

Module Risk.

Import DatabaseManager Network.

Definition assessMarketRisk : M RiskDimension.t :=
  ret {| RiskDimension.risk_level := "medium";
         RiskDimension.factors := ["Market volatility"; "Sector concentration"];
         RiskDimension.score := 65 # 10;
         RiskDimension.recommendations :=
           ["Diversify across sectors"; "Monitor market trends"] |}.

Definition assessGovernanceRisk : M RiskDimension.t :=
  ret {| RiskDimension.risk_level := "low";
         RiskDimension.factors := ["Board composition"; "Director interlocks"];
         RiskDimension.score := 32 # 10;
         RiskDimension.recommendations :=
           ["Review board independence"; "Monitor governance changes"] |}.

Definition assessSectorRisk : M RiskDimension.t :=
  ret {| RiskDimension.risk_level := "medium";
         RiskDimension.factors := ["Sector volatility"; "Regulatory environment"];
         RiskDimension.score := 58 # 10;
         RiskDimension.recommendations :=
           ["Consider sector rotation"; "Monitor regulatory changes"] |}.

Definition assessLiquidityRisk : M RiskDimension.t :=
  ret {| RiskDimension.risk_level := "low";
         RiskDimension.factors := ["Trading volume"; "Market cap"];
         RiskDimension.score := 29 # 10;
         RiskDimension.recommendations :=
           ["Monitor trading volumes";
            "Ensure sufficient liquidity for position size"] |}.

Definition assessConcentrationRisk : M RiskDimension.t :=
  ret {| RiskDimension.risk_level := "medium";
         RiskDimension.factors := ["Position size"; "Sector exposure"];
         RiskDimension.score := 61 # 10;
         RiskDimension.recommendations :=
           ["Diversify holdings"; "Limit single position exposure"] |}.

(** [risk.score || 5] *)
Definition score_or_5 (risk : RiskDimension.t) : Q :=
  if truthy (RiskDimension.score risk) then RiskDimension.score risk else 5%Q.

Definition calculateOverallRiskScore (riskBreakdown : list (string * RiskDimension.t))
  : Num.number :=
  let scores := map (fun entry => score_or_5 (snd entry)) riskBreakdown in
  Num.div (fold_left Qplus scores 0%Q) (number_of_nat (List.length scores)).

(** [set.add(x)] on a [Set] that keeps insertion order. *)
Definition set_add (s : list string) (x : string) : list string :=
  if existsb (String.eqb x) s then s else s ++ [x].

(** [[...new Set(xs)]] *)
Definition unique (xs : list string) : list string := fold_left set_add xs [].

Definition generateRiskRecommendations (riskBreakdown : list (string * RiskDimension.t))
  : list string :=
  unique (flat_map (fun entry => RiskDimension.recommendations (snd entry)) riskBreakdown).

Definition requested (riskTypes : list string) (riskType : string) : bool :=
  existsb (String.eqb "all") riskTypes || existsb (String.eqb riskType) riskTypes.

(** One of the five [if] blocks that fill [riskBreakdown]. *)
Definition assess_if (riskTypes : list string) (riskType : string)
           (assess : M RiskDimension.t) (riskBreakdown : list (string * RiskDimension.t))
  : M (list (string * RiskDimension.t)) :=
  if requested riskTypes riskType
  then risk <- assess ;; ret (riskBreakdown ++ [(riskType, risk)])
  else ret riskBreakdown.

(** The nested [try] blocks that look the target up; what they find is
    handed to assessments that do not read it. *)
Definition resolve_target (target : string) : M string :=
  try_catch
    (_ <- getCompanyBySymbol (val target) ;; ret "company")
    (fun _ =>
       try_catch
         (_ <- getCompaniesBySector target ;; ret "sector")
         (fun _ => ret "portfolio")).

Definition assessInvestmentRisk (target : string) (riskTypes : list string)
  : M RiskAssessment.t :=
  try_catch
    (_ <- resolve_target target ;;
     riskBreakdown <- assess_if riskTypes "market_risk" assessMarketRisk [] ;;
     riskBreakdown <- assess_if riskTypes "governance_risk" assessGovernanceRisk riskBreakdown ;;
     riskBreakdown <- assess_if riskTypes "sector_risk" assessSectorRisk riskBreakdown ;;
     riskBreakdown <- assess_if riskTypes "liquidity_risk" assessLiquidityRisk riskBreakdown ;;
     riskBreakdown <- assess_if riskTypes "concentration_risk" assessConcentrationRisk riskBreakdown ;;
     ret {| RiskAssessment.target := target;
            RiskAssessment.risk_types_analyzed := riskTypes;
            RiskAssessment.overall_risk_score := calculateOverallRiskScore riskBreakdown;
            RiskAssessment.risk_breakdown := riskBreakdown;
            RiskAssessment.recommendations := generateRiskRecommendations riskBreakdown |})
    (fun error =>
       throw ("Risk assessment failed: " ++ AnalyticsManager.print_error error)%string).

End Risk.

(** ** The other endpoints of the gateway

    Directors, news, lobbying meetings and reports come from endpoints of
    their own.  A service holds the remote above and these; a method over
    it logs its calls as before. *)

Module NewsItem.
Record t : Type := mk { title : optional string; sentiment : optional string }.
End NewsItem.

Module Meeting.
Record t : Type := mk {
  organization_name : optional string;
  eu_institution : optional string;
  quarterly_spending : optional Q
}.
End Meeting.

Module Report.
Record t : Type := mk { report_type : optional string; content : optional string }.
End Report.

Module Lobbyist.
(** The entry kept per organization while the meetings are counted. *)
Record entry : Type := mk_entry {
  entry_name : string;
  entry_count : nat;
  entry_institutions : list string;
  entry_spending : list Q
}.
Record t : Type := mk {
  organization_name : string;
  meeting_count : nat;
  institutions : string;
  spending : list Q;
  avg_spending : optional Q
}.
End Lobbyist.

Module Feeds.

Import DatabaseManager.

Record NetworkData : Type := { directors : optional (list Director.t) }.
Record NewsData : Type := { news : optional (list NewsItem.t) }.
Record LobbyingData : Type := {
  meetings : optional (list Meeting.t);
  lobbying : optional (list Meeting.t)
}.
Record ReportsData : Type := { reports : optional (list Report.t) }.

Inductive Call : Type :=
| Core (request : Request)
| GetNetwork
| GetNews (limit : Z)
| GetCompanyNews (symbol : option string) (limit : Z)
| GetNewsBySentiment (sentiment : option string) (limit : Z)
| GetLobbying (limit : option Z)
| GetReports (type : option string) (limit : Z).

Record Service : Type := {
  core : Remote;
  network_endpoint : Answer NetworkData;
  news_endpoint : Z -> Answer NewsData;
  company_news_endpoint : option string -> Z -> Answer NewsData;
  sentiment_endpoint : option string -> Z -> Answer NewsData;
  lobbying_endpoint : option Z -> Answer LobbyingData;
  reports_endpoint : option string -> Z -> Answer ReportsData
}.

Definition Task (A : Type) : Type := Service -> Outcome A * list Call.

Definition ret {A : Type} (a : A) : Task A :=
  fun _ => (Returned a, []).

Definition throw {A : Type} (message : string) : Task A :=
  fun _ => (Thrown message, []).

Definition bind {A B : Type} (m : Task A) (k : A -> Task B) : Task B :=
  fun service =>
    match m service with
    | (Returned a, issued) =>
        let (outcome, issued') := k a service in (outcome, issued ++ issued')
    | (Thrown e, issued) => (Thrown e, issued)
    end.

(** A method of the facade above, run against the core of the service. *)
Definition lift {A : Type} (m : M A) : Task A :=
  fun service =>
    let (outcome, issued) := m (core service) in (outcome, map Core issued).

Definition fetchAPI {A : Type} (call : Call) (endpoint : Service -> Answer A) : Task A :=
  fun service =>
    (match endpoint service with
     | inr json => Returned json
     | inl cause => Thrown ("API request failed: " ++ cause)%string
     end, [call]).

End Feeds.

Declare Scope feeds_scope.
Delimit Scope feeds_scope with feeds.
Notation "x <- m ;; k" := (Feeds.bind m (fun x => k))
  (at level 61, m at next level, right associativity) : feeds_scope.

Module FeedQueries.

Import Feeds.
Local Open Scope feeds_scope.

Definition getCompanyDirectors (companyId : optional string) : Task (list Director.t) :=
  data <- fetchAPI GetNetwork network_endpoint ;;
  ret (filter (fun director => strict_eq (Director.company_id director) companyId)
              (or_empty (directors data))).

Definition getDirectorsByName (name : string) : Task (list Director.t) :=
  data <- fetchAPI GetNetwork network_endpoint ;;
  ret (filter
         (fun director =>
            and_then (Director.name director)
              (fun n => includes (toLowerCase n) (toLowerCase name)))
         (or_empty (directors data))).

Definition getRecentNews (companyId : optional string) (limit : Z) : Task (list NewsItem.t) :=
  if truthy companyId
  then
    companies <- lift DatabaseManager.getAllCompanies ;;
    match Js.find (fun c => strict_eq (Company.id c) companyId) companies with
    | val company =>
        data <- fetchAPI (GetCompanyNews (query_param (Company.symbol company)) limit)
                  (fun service =>
                     company_news_endpoint service
                       (query_param (Company.symbol company)) limit) ;;
        ret (or_empty (news data))
    | _ => ret []
    end
  else
    data <- fetchAPI (GetNews limit) (fun service => news_endpoint service limit) ;;
    ret (or_empty (news data)).

Definition getNewsBySentiment (sentiment : optional string) (limit : Z)
  : Task (list NewsItem.t) :=
  data <- fetchAPI (GetNewsBySentiment (query_param sentiment) limit)
            (fun service => sentiment_endpoint service (query_param sentiment) limit) ;;
  ret (or_empty (news data)).

(** The meetings of a lobbying answer: [data.meetings || data.lobbying || []] *)
Definition meetings_of (data : LobbyingData) : list Meeting.t :=
  or_empty (or_else (meetings data) (lobbying data)).

Definition getLobbyingMeetings (companyId : optional string) (limit : Z)
  : Task (list Meeting.t) :=
  data <- fetchAPI (GetLobbying (Some limit))
            (fun service => lobbying_endpoint service (Some limit)) ;;
  let meetings := meetings_of data in
  if truthy companyId
  then
    companies <- lift DatabaseManager.getAllCompanies ;;
    match Js.find (fun c => strict_eq (Company.id c) companyId) companies with
    | val company =>
        match Company.name company with
        | val name =>
            ret (filter
                   (fun meeting =>
                      and_then (Meeting.organization_name meeting)
                        (fun org => includes (toLowerCase org) (toLowerCase name)))
                   meetings)
        | missing =>
            (* [company.name.toLowerCase()] is reached at the first meeting
               that names an organization *)
            if existsb (fun meeting => truthy (Meeting.organization_name meeting)) meetings
            then throw ("TypeError: Cannot read properties of "
                        ++ match missing with null => "null" | _ => "undefined" end
                        ++ " (reading 'toLowerCase')")%string
            else ret []
        end
    | _ => ret []
    end
  else ret meetings.

(** *** The most active lobbyists *)

Definition fresh (org : string) : Lobbyist.entry :=
  {| Lobbyist.entry_name := org;
     Lobbyist.entry_count := 0;
     Lobbyist.entry_institutions := [];
     Lobbyist.entry_spending := [] |}.

(** What one meeting does to the entry of its organization. *)
Definition record_meeting (entry : Lobbyist.entry) (meeting : Meeting.t) : Lobbyist.entry :=
  {| Lobbyist.entry_name := Lobbyist.entry_name entry;
     Lobbyist.entry_count := S (Lobbyist.entry_count entry);
     Lobbyist.entry_institutions :=
       match Meeting.eu_institution meeting with
       | val institution =>
           if truthy institution
           then Risk.set_add (Lobbyist.entry_institutions entry) institution
           else Lobbyist.entry_institutions entry
       | _ => Lobbyist.entry_institutions entry
       end;
     Lobbyist.entry_spending :=
       match Meeting.quarterly_spending meeting with
       | val amount =>
           if truthy amount
           then Lobbyist.entry_spending entry ++ [amount]
           else Lobbyist.entry_spending entry
       | _ => Lobbyist.entry_spending entry
       end |}.

Definition has_key (org : string) (m : list (string * Lobbyist.entry)) : bool :=
  existsb (fun e => String.eqb org (fst e)) m.

(** [m.get(org)] updated in place. *)
Definition update (org : string) (f : Lobbyist.entry -> Lobbyist.entry)
           (m : list (string * Lobbyist.entry)) : list (string * Lobbyist.entry) :=
  map (fun e => if String.eqb org (fst e) then (fst e, f (snd e)) else e) m.

(** One turn of the loop over the meetings. *)
Definition tally (orgCounts : list (string * Lobbyist.entry)) (meeting : Meeting.t)
  : list (string * Lobbyist.entry) :=
  match Meeting.organization_name meeting with
  | val org =>
      if negb (truthy org) then orgCounts
      else
        let orgCounts :=
          if has_key org orgCounts then orgCounts
          else orgCounts ++ [(org, fresh org)] in
        update org (fun entry => record_meeting entry meeting) orgCounts
  | _ => orgCounts
  end.

Definition orgCounts (meetings : list Meeting.t) : list (string * Lobbyist.entry) :=
  fold_left tally meetings [].

Definition lobbyist_of (entry : Lobbyist.entry) : Lobbyist.t :=
  {| Lobbyist.organization_name := Lobbyist.entry_name entry;
     Lobbyist.meeting_count := Lobbyist.entry_count entry;
     Lobbyist.institutions :=
       String.concat "," (Lobbyist.entry_institutions entry);
     Lobbyist.spending := Lobbyist.entry_spending entry;
     Lobbyist.avg_spending :=
       if 0 <? List.length (Lobbyist.entry_spending entry)
       then val (fold_left Qplus (Lobbyist.entry_spending entry) 0
                 / Network.number_of_nat (List.length (Lobbyist.entry_spending entry)))%Q
       else null |}.

(** [(a, b) => b.meeting_count - a.meeting_count], positive *)
Definition by_meeting_count (a b : Lobbyist.t) : bool :=
  (0 <? Z.of_nat (Lobbyist.meeting_count b) - Z.of_nat (Lobbyist.meeting_count a))%Z.

Definition ranked_lobbyists (meetings : list Meeting.t) : list Lobbyist.t :=
  sort by_meeting_count (map (fun e => lobbyist_of (snd e)) (orgCounts meetings)).

Definition getMostActiveLobbyists (limit : Z) : Task (list Lobbyist.t) :=
  data <- fetchAPI (GetLobbying None) (fun service => lobbying_endpoint service None) ;;
  ret (slice0 limit (ranked_lobbyists (meetings_of data))).

Definition getWeeklyReports (reportType : optional string) (limit : Z)
  : Task (list Report.t) :=
  data <- fetchAPI (GetReports (query_param reportType) limit)
            (fun service => reports_endpoint service (query_param reportType) limit) ;;
  ret (or_empty (reports data)).

End FeedQueries.

(** ** The market position of a company *)

Module MarketPosition.
Record t : Type := mk {
  sector_rank : nat;
  sector_companies : nat;
  market_cap_percentile : Q;
  competitive_position : string
}.
End MarketPosition.

Module Standing.

Import DatabaseManager Metrics.

(** [this.db.getCompaniesBySector(company.sector)].  A sector that is not
    a string has no [toLowerCase]; the filter finds that out at the first
    company that has a sector. *)
Definition sector_peers (sector : optional string) : M (list Company.t) :=
  match sector with
  | val s => getCompaniesBySector s
  | missing =>
      companies <- getAllCompanies ;;
      if existsb (fun c => truthy (Company.sector c)) companies
      then throw ("TypeError: Cannot read properties of "
                  ++ match missing with null => "null" | _ => "undefined" end
                  ++ " (reading 'toLowerCase')")%string
      else ret []
  end.

Definition getCompanyMarketPosition (company : Company.t) : M MarketPosition.t :=
  sectorCompanies <- sector_peers (Company.sector company) ;;
  let position :=
    match findIndex (fun c => strict_eq (Company.id c) (Company.id company))
                    sectorCompanies with
    | Some index => S index
    | None => 0
    end in
  ret {| MarketPosition.sector_rank := position;
         MarketPosition.sector_companies := List.length sectorCompanies;
         MarketPosition.market_cap_percentile :=
           calculatePercentile (Company.market_cap company)
                               (map Company.market_cap sectorCompanies);
         MarketPosition.competitive_position :=
           if position <=? 3 then "leader"
           else if position <=? 10 then "challenger"
           else "follower" |}.

End Standing.
(** ** A small remote service to run the methods on *)

Module Sample.

Definition director (name position : string) : Director.t :=
  {| Director.name := val name;
     Director.position := val position;
     Director.company_id := undefined;
     Director.company_name := undefined;
     Director.company_symbol := undefined |}.

Definition company (id symbol name : string) (sector : optional string)
           (market_cap pe : optional Q) (directors : optional (list Director.t))
  : Company.t :=
  {| Company.id := val id;
     Company.symbol := val symbol;
     Company.name := val name;
     Company.ticker := val symbol;
     Company.sector := sector;
     Company.market_cap := market_cap;
     Company.price_to_earnings := pe;
     Company.pe_ratio := undefined;
     Company.directors := directors |}.

Definition santander : Company.t :=
  company "1" "SAN" "Banco Santander" (val "Banking")
          (val 60000000000%Q) (val 8%Q)
          (val [director "Ana Botin" "Chair"; director "Jose Alvarez" "Director"]).

Definition bbva : Company.t :=
  company "2" "BBVA" "BBVA" (val "Retail banking")
          (val 40000000000%Q) (val 30%Q)
          (val [director "Ana Botin" "Director"; director "Carlos Torres" "Chair"]).

Definition iberdrola : Company.t :=
  company "3" "IBE" "Iberdrola" (val "Energy")
          (val 70000000000%Q) null
          (val [director "Ignacio Galan" "Chair"]).

Definition unlisted : Company.t :=
  company "4" "XYZ" "Unlisted" undefined (val 500000000%Q) undefined undefined.

Definition companies : list Company.t := [santander; bbva; iberdrola; unlisted].

(** One company whose board lists the same name under two positions. *)
Definition double_listing : Company.t :=
  company "5" "ACS" "ACS" (val "Construction") (val 9000000000%Q) (val 12%Q)
          (val [director "Florentino Perez" "Chair"; director "Florentino Perez" "CEO"]).

Definition acs_only : Remote :=
  {| companies_endpoint := inr {| data := val [double_listing] |};
     positions_endpoint := inl "Error: API request failed: 404 Not Found";
     prices_endpoint := fun _ _ => inl "Error: API request failed: 404 Not Found" |}.

Definition position (holder : optional string) (symbol : optional string) (pct : Q)
  : Position.t :=
  {| Position.shareholder_name := holder;
     Position.name := undefined;
     Position.company_symbol := symbol;
     Position.ticker := undefined;
     Position.percentage := val pct |}.

Definition shareholders : list Position.t :=
  [ position (val "BlackRock") (val "SAN") 5;
    position (val "Norges Bank") (val "IBE") 3;
    position undefined (val "SAN") 1;
    position (val "BlackRock") (val "BBVA") 6;
    position (val "Trust") undefined 2;
    position (val "Trust") (val "IBE") 4 ].

Definition price (close : Q) : HistoricalPrice.t :=
  {| HistoricalPrice.close := close |}.

(** Prices come most recent first; one company has a single point and
    one has no price feed at all. *)
Definition prices (symbol : option string) (days : Z) : Answer PricesData :=
  match symbol with
  | Some "SAN" => inr {| historicalData := val [price 110; price 105; price 100] |}
  | Some "BBVA" => inr {| historicalData := val [price 90; price 100] |}
  | Some "IBE" => inr {| historicalData := val [price 50] |}
  | _ => inl "Error: API request failed: 404 Not Found"
  end.

Definition remote : Remote :=
  {| companies_endpoint := inr {| data := val companies |};
     positions_endpoint :=
       inr {| shareholderPositions := val shareholders; positions := undefined |};
     prices_endpoint := prices |}.

(** A list with a sector in Spanish capitals. *)
Definition endesa : Company.t :=
  company "6" "ELE" "Endesa" (val "ENERGÍA") (val 20000000000%Q) (val 11%Q) undefined.

Definition spanish : Remote :=
  {| companies_endpoint := inr {| data := val [endesa; santander] |};
     positions_endpoint := positions_endpoint remote;
     prices_endpoint := prices |}.

(** Windows that end at a close of zero: one that starts at zero too, one
    that starts above it. *)
Definition halted_prices (symbol : option string) (days : Z) : Answer PricesData :=
  match symbol with
  | Some "SAN" => inr {| historicalData := val [price 0; price 3; price 0] |}
  | Some "BBVA" => inr {| historicalData := val [price 5; price 0] |}
  | Some "IBE" => inr {| historicalData := val [price 90; price 100] |}
  | _ => inl "Error: API request failed: 404 Not Found"
  end.

Definition halted : Remote :=
  {| companies_endpoint := companies_endpoint remote;
     positions_endpoint := positions_endpoint remote;
     prices_endpoint := halted_prices |}.

(** Sector rows that carry only a total market cap. *)
Definition sector_row (cap : Q) : SectorPerformance.t :=
  {| SectorPerformance.sector := "Sector";
     SectorPerformance.company_count := 1;
     SectorPerformance.total_market_cap := cap;
     SectorPerformance.avg_market_cap := cap;
     SectorPerformance.avg_pe_ratio := null;
     SectorPerformance.companies := [] |}.

(** Four equal sectors: the index is exactly 2500. *)
Definition four_sectors : list SectorPerformance.t :=
  map sector_row [25; 25; 25; 25]%Q.

(** Seven sectors whose index is exactly 1500. *)
Definition seven_sectors : list SectorPerformance.t :=
  map sector_row [3; 3; 3; 3; 2; 2; 4]%Q.


(** Three equal sectors: the index is a third of 10000. *)
Definition equal_thirds : list SectorPerformance.t :=
  map sector_row [1; 1; 1]%Q.

Definition any_criteria : Criteria.t :=
  {| Criteria.pe_ratio_min := undefined;
     Criteria.pe_ratio_max := val 25%Q;
     Criteria.market_cap_min := undefined;
     Criteria.market_cap_max := undefined;
     Criteria.sectors := undefined;
     Criteria.exclude_sectors := val ["energy"] |}.

End Sample.

(** ** A service with the further endpoints *)

Module SampleFeeds.

Import Feeds.

Definition meeting (org : optional string) (institution : optional string)
           (spending : optional Q) : Meeting.t :=
  {| Meeting.organization_name := org;
     Meeting.eu_institution := institution;
     Meeting.quarterly_spending := spending |}.

Definition agenda : list Meeting.t :=
  [ meeting (val "Iberdrola SA") (val "Commission") (val 100%Q);
    meeting (val "Banco Santander") (val "Parliament") undefined;
    meeting undefined (val "Commission") (val 10%Q);
    meeting (val "Iberdrola SA") (val "Commission") (val 300%Q);
    meeting (val "Iberdrola SA") (val "Council") null ].

Definition network_director (name : optional string) (company_id : optional string)
  : Director.t :=
  {| Director.name := name;
     Director.position := undefined;
     Director.company_id := company_id;
     Director.company_name := undefined;
     Director.company_symbol := undefined |}.

Definition board : list Director.t :=
  [ network_director (val "Ana Botin") (val "1");
    network_director undefined (val "1");
    network_director (val "Carlos Torres") (val "2");
    network_director (val "ANA PATRICIA") undefined ].

Definition item (title : string) : NewsItem.t :=
  {| NewsItem.title := val title; NewsItem.sentiment := undefined |}.

Definition service : Service :=
  {| core := Sample.remote;
     network_endpoint := inr {| directors := val board |};
     news_endpoint := fun _ => inr {| news := val [item "Markets"] |};
     company_news_endpoint :=
       fun symbol _ =>
         match symbol with
         | Some "SAN" => inr {| news := val [item "Santander"] |}
         | _ => inr {| news := undefined |}
         end;
     sentiment_endpoint := fun _ _ => inl "Error: 500 Internal Server Error";
     lobbying_endpoint := fun _ => inr {| meetings := val agenda; lobbying := undefined |};
     reports_endpoint := fun _ _ => inr {| reports := undefined |} |}.

End SampleFeeds.
(** * The vocabulary of the statements *)

Unset Implicit Arguments.

Module Spec.

Import DatabaseManager AnalyticsManager Router.

(** ** Sectors of companies *)

(** The sector of a company is missing when the field is absent, [null]
    or the empty text. *)
Definition sector_missing (company : Company.t) : Prop :=
  Company.sector company = undefined \/
  Company.sector company = null \/
  Company.sector company = val EmptyString.

(** The company has a sector, and [query] occurs in it once both are in
    lower case. *)
Definition sector_contains (company : Company.t) (query : string) : Prop :=
  exists s pre post,
    Company.sector company = val s /\ s <> EmptyString /\
    toLowerCase s = (pre ++ toLowerCase query ++ post)%string.

(** The company has a sector text, and [query] occurs in it once both are
    in lower case.  Every text contains the empty one. *)
Definition sector_includes (company : Company.t) (query : string) : Prop :=
  exists s pre post,
    Company.sector company = val s /\
    toLowerCase s = (pre ++ toLowerCase query ++ post)%string.

(** ** Sums and counts over sector rows *)

Section Rationals.
Local Open Scope Q_scope.

(** Sums over a list, the way [reduce] adds them up. *)
Fixpoint sum (xs : list Q) : Q :=
  match xs with
  | [] => 0
  | x :: xs' => x + sum xs'
  end.

Definition caps (sectorPerformance : list SectorPerformance.t) : list Q :=
  map SectorPerformance.total_market_cap sectorPerformance.


(** Every sector's total market cap multiplied by [k]. *)
Definition rescale (k : Q) (sector : SectorPerformance.t) : SectorPerformance.t :=
  {| SectorPerformance.sector := SectorPerformance.sector sector;
     SectorPerformance.company_count := SectorPerformance.company_count sector;
     SectorPerformance.total_market_cap := k * SectorPerformance.total_market_cap sector;
     SectorPerformance.avg_market_cap := SectorPerformance.avg_market_cap sector;
     SectorPerformance.avg_pe_ratio := SectorPerformance.avg_pe_ratio sector;
     SectorPerformance.companies := SectorPerformance.companies sector |}.

(** The size of a list as a number. *)
Definition count (A : Type) (xs : list A) : Q := inject_Z (Z.of_nat (List.length xs)).

Definition in_range (opportunity : Opportunity.t) : Prop :=
  0 <= Opportunity.score opportunity /\ Opportunity.score opportunity <= 10.

End Rationals.

(** ** Maps filled by grouping *)

Section Collect.
Variables K V : Type.
Variable same_key : K -> K -> bool.

(** What [m.get(k)] finds. *)
Fixpoint lookup (k : K) (m : list (K * list V)) : option (list V) :=
  match m with
  | [] => None
  | (k', vs) :: m' => if same_key k k' then Some vs else lookup k m'
  end.

Definition pushed (before : option (list V)) (v : V) : list V :=
  match before with
  | Some vs => vs ++ [v]
  | None => [v]
  end.

(** The loop that fills the map: an element is skipped or pushed under
    its key. *)
Variable skip : V -> bool.
Variable key : V -> K.

Definition step (m : list (K * list V)) (x : V) : list (K * list V) :=
  if skip x then m else push_to same_key (key x) x m.

Definition filed_under (k : K) (x : V) : bool :=
  negb (skip x) && same_key k (key x).

End Collect.

(** ** Directors and shareholders *)

(** The director entries, over all boards, that bear [name]. *)
Definition entries_named (name : optional string) (companies : list Company.t)
  : list Director.t :=
  filter (fun d => strict_eq name (Director.name d)) (allDirectors companies).

Definition sits_on (name : optional string) (company : Company.t) : bool :=
  existsb (fun d => strict_eq name (Director.name d))
          (or_empty (Company.directors company)).

(** The number of companies of the list on whose board [name] appears. *)
Definition boards_with (name : optional string) (companies : list Company.t) : nat :=
  List.length (filter (sits_on name) companies).

(** No board lists a name twice. *)
Definition single_listings (companies : list Company.t) : Prop :=
  Forall (fun c => NoDup (map Director.name (or_empty (Company.directors c)))) companies.

Definition descending (interlocks : list Interlock.t) : Prop :=
  StronglySorted
    (fun a b => Interlock.board_count b <= Interlock.board_count a) interlocks.

(** A text field is missing when it is absent, [null] or empty. *)
Definition missing (field : optional string) : Prop :=
  field = undefined \/ field = null \/ field = val EmptyString.

(** The position has a [shareholder_name] or a [name]. *)
Definition has_name (position : Position.t) : bool :=
  truthy (Position.shareholder_name position) || truthy (Position.name position).

(** The position goes by [name]: that is its [shareholder_name] or, when
    it has none, its [name]. *)
Definition bears (name : optional string) (position : Position.t) : bool :=
  truthy name &&
  (if truthy (Position.shareholder_name position)
   then strict_eq name (Position.shareholder_name position)
   else strict_eq name (Position.name position)).

(** The positions that go by [name]. *)
Definition group_of (name : optional string) (shareholders : list Position.t)
  : list Position.t :=
  filter (bears name) shareholders.

(** The position carries a [company_symbol] or a [ticker]. *)
Definition carries_symbol (position : Position.t) : bool :=
  truthy (Position.company_symbol position) || truthy (Position.ticker position).

Definition lacks_symbols (position : Position.t) : Prop :=
  missing (Position.company_symbol position) /\ missing (Position.ticker position).

(** How many of the positions carry a company symbol or a ticker. *)
Definition with_company (positions : list Position.t) : nat :=
  List.length (filter carries_symbol positions).

(** ** Price windows *)

(** The price window of a company: what [getHistoricalPrices] gives for
    its id. *)
Definition window (remote : Remote) (days : Z) (company : Company.t)
  : Outcome (list HistoricalPrice.t) :=
  fst (getHistoricalPrices (Company.id company) days remote).

(** [(recent - old) / old * 100]: a quotient by zero is an infinity with
    the sign of [recent], or not a number when [recent] is zero as well. *)
Definition percent_change (recent old : Q) : Num.number :=
  if Qeq_bool old 0
  then if Qeq_bool recent 0 then Num.NaN else Num.Infinity (lt recent 0)
  else Num.Finite ((recent - old) / old * 100)%Q.

(** The entry a company contributes: none unless its window arrived with
    two prices or more; else the change from the last (oldest) price of the
    window to the first (most recent). *)
Definition performance_of (remote : Remote) (days : Z) (company : Company.t)
  : list Performance.t :=
  match window remote days company with
  | Returned ((recent :: _ :: _) as historical) =>
      [ {| Performance.symbol := Company.symbol company;
           Performance.name := Company.name company;
           Performance.sector := Company.sector company;
           Performance.current_price := HistoricalPrice.close recent;
           Performance.period_change :=
             percent_change (HistoricalPrice.close recent)
                            (HistoricalPrice.close (last historical recent)) |} ]
  | _ => []
  end.

(** The window did not arrive, or it holds fewer than two prices. *)
Definition excluded (remote : Remote) (days : Z) (company : Company.t) : Prop :=
  (exists message, window remote days company = Thrown message) \/
  (exists historical,
      window remote days company = Returned historical /\ List.length historical < 2).

(** The first and the last price of the window are both zero: the change
    over it is not a number. *)
Definition flat_at_zero (remote : Remote) (days : Z) (company : Company.t) : Prop :=
  exists recent rest,
    window remote days company = Returned (recent :: rest) /\
    rest <> [] /\
    (HistoricalPrice.close recent == 0)%Q /\
    (HistoricalPrice.close (last rest recent) == 0)%Q.

(** In non-increasing order of [period_change]; a change that is not a
    number is in order with nothing. *)
Definition ranked (performers : list Performance.t) : Prop :=
  StronglySorted
    (fun a b =>
       Num.leb (Performance.period_change b) (Performance.period_change a) = true)
    performers.

Definition is_price_request (request : Request) : bool :=
  match request with
  | GetHistoricalPrices _ _ => true
  | _ => false
  end.

(** The requests of one price lookup: the company list again, then the
    prices of the company the id resolves to, if any. *)
Definition lookup_requests (companies : list Company.t) (days : Z)
           (companyId : optional string) : list Request :=
  GetCompanies ::
  match Js.find (fun c => strict_eq (Company.id c) companyId) companies with
  | val company => [GetHistoricalPrices (query_param (Company.symbol company)) days]
  | _ => []
  end.

(** ** Comparison analyses *)

Section Comparison.
Variables ComparisonReport Payload : Type.

Definition generic_suggestions : list string :=
  ["Use generate_analyst_report for comprehensive analysis";
   "Try screen_opportunities to find investment candidates"].

(** The comparison branch before its results are in. *)
Definition comparison_pending (query : string) (context : optional string)
  : Analysis ComparisonReport Payload :=
  {| original_query := query;
     context := context;
     interpretation := "Company comparison analysis";
     suggested_actions := [];
     results := NoResults ComparisonReport Payload;
     execution_plan := [];
     error := undefined;
     fallback_suggestion := undefined |}.

Definition comparison_done (query : string) (context : optional string)
           (r : Results ComparisonReport Payload)
  : Analysis ComparisonReport Payload :=
  {| original_query := query;
     context := context;
     interpretation := "Company comparison analysis";
     suggested_actions := generic_suggestions;
     results := r;
     execution_plan := [];
     error := undefined;
     fallback_suggestion := undefined |}.

End Comparison.

End Spec.

(** ** Sector rows on doubles *)

Module Doubles.

Import Floats.
Local Open Scope float_scope.

(** Rows with the given total market caps. *)
Definition rows (caps : list float) : list Binary64.Sector.t :=
  map Binary64.Sector.mk caps.

(** Every sector's total market cap multiplied by [k]. *)
Definition rescale (k : float) (sectorPerformance : list Binary64.Sector.t)
  : list Binary64.Sector.t :=
  map (fun sector =>
         Binary64.Sector.mk (k * Binary64.Sector.total_market_cap sector))
      sectorPerformance.


End Doubles.
(** * Further vocabulary *)

Module Vocabulary.

Import DatabaseManager AnalyticsManager Queries.

(** ** Price-earnings bounds *)

(** The company has a price-earnings ratio, and it respects each bound
    that is given; a [null] bound stands for zero. *)
Definition pe_within (minPE maxPE : optional Q) (company : Company.t) : Prop :=
  exists pe,
    company_pe company = val pe /\
    (forall low, to_number minPE = Some low -> (low <= pe)%Q) /\
    (forall high, to_number maxPE = Some high -> (pe <= high)%Q).

(** ** Shareholder positions *)

(** The positions of a shareholder-positions answer. *)
Definition positions_of (json : PositionsData) : list Position.t :=
  or_empty (or_else (shareholderPositions json) (positions json)).

(** [company] is the first of the list to carry the id. *)
Definition resolves_to (companies : list Company.t) (companyId : optional string)
           (company : Company.t) : Prop :=
  exists before after,
    companies = before ++ company :: after /\
    Company.id company = companyId /\
    forall c, In c before -> Company.id c <> companyId.

Definition by_share (positions : list Position.t) : Prop :=
  StronglySorted
    (fun a b => (or_zero (Position.percentage b) <= or_zero (Position.percentage a))%Q)
    positions.

(** ** Governance flags *)

(** The market cap is a number above fifty billion. *)
Definition dominant (company : Company.t) : bool :=
  and_then (Company.market_cap company) (fun cap => gt cap 50000000000).

Definition interlock_flag (flag : RedFlag.t) : Prop :=
  RedFlag.severity flag = "medium" /\ RedFlag.risk_type flag = "high_director_interlocks".

Definition dominance_flag (flag : RedFlag.t) : Prop :=
  RedFlag.severity flag = "low" /\ RedFlag.risk_type flag = "market_dominance".

Definition two_levels (flags : list RedFlag.t) : Prop :=
  Forall (fun f => interlock_flag f \/ dominance_flag f) flags.

Definition by_holdings (overlaps : list Overlap.t) : Prop :=
  StronglySorted
    (fun a b => Overlap.company_count b <= Overlap.company_count a) overlaps.

(** ** Sectors *)

(** The company has a sector: a non-empty string. *)
Definition has_sector (company : Company.t) : bool :=
  match Company.sector company with val s => truthy s | _ => false end.

Definition in_sector (sector : string) (company : Company.t) : bool :=
  match Company.sector company with
  | val s => truthy s && String.eqb sector s
  | _ => false
  end.

Definition sector_key (company : Company.t) : string :=
  match Company.sector company with val s => s | _ => EmptyString end.

Definition cap_of (company : Company.t) : Q := or_zero (Company.market_cap company).

(** How many of the companies have a market cap that counts. *)
Definition with_cap (companies : list Company.t) : nat :=
  List.length (filter (fun c => truthy (Company.market_cap c)) companies).

Definition pe_of (company : Company.t) : Q := or_zero (company_pe company).

Definition with_pe (companies : list Company.t) : nat :=
  List.length (filter (fun c => truthy (company_pe c)) companies).

Definition by_cap (sectorPerformance : list SectorPerformance.t) : Prop :=
  StronglySorted
    (fun a b => (SectorPerformance.total_market_cap b
                 <= SectorPerformance.total_market_cap a)%Q) sectorPerformance.

(** The running totals of one sector: market cap, companies with a cap,
    summed P/E, companies with a P/E. *)
Definition running : Type := (Q * nat * Q * nat)%type.


(** ** Screening *)




Definition by_scores (opportunities : list Opportunity.t) : Prop :=
  StronglySorted
    (fun a b => (Opportunity.score b <= Opportunity.score a)%Q) opportunities.

(** ** Metrics *)

(** The data that are strictly below a value. *)
Definition below (value : Q) (known : list Q) : list Q :=
  filter (fun v => lt v value) known.


End Vocabulary.

Module FeedVocabulary.

Import Feeds FeedQueries.

(** The meeting names the organization, by a non-empty name. *)
Definition named (org : string) (meeting : Meeting.t) : bool :=
  match Meeting.organization_name meeting with
  | val o => truthy o && String.eqb org o
  | _ => false
  end.

(** What [orgCounts.get(org)] finds. *)
Fixpoint entry_of (org : string) (m : list (string * Lobbyist.entry))
  : option Lobbyist.entry :=
  match m with
  | [] => None
  | (k, e) :: m' => if String.eqb org k then Some e else entry_of org m'
  end.

(** The spendings that count: the non-zero numbers. *)
Definition amounts (meetings : list Meeting.t) : list Q :=
  flat_map
    (fun m =>
       match Meeting.quarterly_spending m with
       | val amount => if truthy amount then [amount] else []
       | _ => []
       end)
    meetings.

Definition by_meetings (lobbyists : list Lobbyist.t) : Prop :=
  StronglySorted
    (fun a b => Lobbyist.meeting_count b <= Lobbyist.meeting_count a) lobbyists.

(** [s] contains [sub], letter case aside. *)
Definition contains (s sub : string) : Prop :=
  exists pre post, toLowerCase s = (pre ++ toLowerCase sub ++ post)%string.

End FeedVocabulary.

Module RouterVocabulary.

Import Router.

(** The text [m] spells the word [w], letter case aside when the pattern
    ignores it. *)
Definition spells (ignore_case : bool) (m w : string) : Prop :=
  if ignore_case then toUpperCase m = toUpperCase w else m = w.

(** What one company pattern contributes to the names found. *)
Definition pick (query : string) (pattern : Regex.t) : list string :=
  if Regex.test true pattern query
  then match Regex.exec true pattern query with
       | Some match0 => [toUpperCase match0]
       | None => []
       end
  else [].

(** Nothing, or one of the names. *)
Definition one_alias (picked names : list string) : Prop :=
  picked = [] \/ exists name, picked = [name] /\ In name names.

Definition banking_suggestions : list string :=
  [("Use get_companies_by_sector with " ++ quoted "banking" ++ " for more details")%string;
   "Try compare_companies to analyze specific banking stocks"].

Definition risk_suggestions : list string :=
  ["Use assess_investment_risk for detailed risk analysis";
   "Try get_board_interlocks to analyze governance connections"].

End RouterVocabulary.
(** * Properties *)

(** ** Strings, sorting, slicing and grouping *)

Module JsFacts.

Lemma strict_eq_spec (a b : optional string) : strict_eq a b = true <-> a = b.
Proof.
  destruct a as [| |x], b as [| |y]; simpl; split; intro H;
    try reflexivity; try discriminate.
  - apply String.eqb_eq in H. now subst.
  - inversion H. apply String.eqb_refl.
Qed.

Lemma strict_eq_false (a b : optional string) : strict_eq a b = false <-> a <> b.
Proof.
  split; intro H.
  - intro E. apply strict_eq_spec in E. congruence.
  - destruct (strict_eq a b) eqn:E; [|reflexivity].
    apply strict_eq_spec in E. contradiction.
Qed.

Lemma startsWith_spec (s p : string) :
  startsWith s p = true <-> exists post, s = (p ++ post)%string.
Proof.
  revert s. induction p as [|a p IH]; intros s; simpl.
  - split; [intros _; now exists s | reflexivity].
  - destruct s as [|b s].
    + split; [discriminate | intros [post H]; discriminate].
    + rewrite andb_true_iff, Ascii.eqb_eq, IH. split.
      * intros [-> [post H]]. exists post. now rewrite H.
      * intros [post H]. inversion H. split; [reflexivity | now exists post].
Qed.

Lemma includes_spec (s sub : string) :
  includes s sub = true <->
  exists pre post, s = (pre ++ sub ++ post)%string.
Proof.
  induction s as [|c s IH].
  - cbn [includes]. rewrite orb_false_r, startsWith_spec. split.
    + intros [post H]. now exists EmptyString, post.
    + intros [[|a pre] [post H]]; [now exists post | discriminate].
  - cbn [includes]. rewrite orb_true_iff, startsWith_spec, IH. split.
    + intros [[post H]|[pre [post H]]].
      * now exists EmptyString, post.
      * exists (String c pre), post. simpl. now rewrite H.
    + intros [[|a pre] [post H]].
      * left. now exists post.
      * right. exists pre, post. simpl in H. now inversion H.
Qed.

(** Lower case reaches the accented capitals of Spanish, and leaves the
    multiplication sign, which sits among them, alone. *)
Lemma toLowerCase_accented :
  toLowerCase "ENERGÍA" = "energía" /\
  toLowerCase "Construcción Ñ×Ü" = "construcción ñ×ü".
Proof. split; reflexivity. Qed.

Section SortFacts.
Variable A : Type.
Variable after : A -> A -> bool.

Lemma insert_perm (x : A) (xs : list A) :
  Permutation (x :: xs) (insert after x xs).
Proof.
  induction xs as [|y ys IH]; simpl; [reflexivity|].
  destruct (after x y); [|reflexivity].
  rewrite perm_swap. now constructor.
Qed.

Lemma sort_perm (xs : list A) : Permutation xs (sort after xs).
Proof.
  induction xs as [|x xs IH]; simpl; [constructor|].
  rewrite <- insert_perm. now constructor.
Qed.

Lemma sort_In (x : A) (xs : list A) : In x (sort after xs) <-> In x xs.
Proof.
  split; apply Permutation_in; [symmetry|]; apply sort_perm.
Qed.

Lemma sort_length (xs : list A) : List.length (sort after xs) = List.length xs.
Proof. symmetry. apply Permutation_length, sort_perm. Qed.

(** The comparator decides an order [precedes] of the elements. *)
Variable precedes : A -> A -> Prop.
Hypothesis precedes_trans :
  forall a b c, precedes a b -> precedes b c -> precedes a c.
Hypothesis after_true : forall a b, after a b = true -> precedes b a.
Hypothesis after_false : forall a b, after a b = false -> precedes a b.

Lemma insert_sorted (x : A) (xs : list A) :
  StronglySorted precedes xs -> StronglySorted precedes (insert after x xs).
Proof.
  induction 1 as [|y ys Hs IH Hy]; simpl.
  - repeat constructor.
  - destruct (after x y) eqn:E.
    + constructor; [exact IH|].
      rewrite Forall_forall in *. intros z Hz.
      apply (Permutation_in _ (Permutation_sym (insert_perm x ys))) in Hz.
      destruct Hz as [<-|Hz]; [now apply after_true | now apply Hy].
    + constructor; [now constructor|].
      constructor; [now apply after_false|].
      rewrite Forall_forall in *. intros z Hz.
      apply precedes_trans with y; [now apply after_false | now apply Hy].
Qed.

Lemma sort_sorted (xs : list A) : StronglySorted precedes (sort after xs).
Proof.
  induction xs as [|x xs IH]; simpl; [constructor | now apply insert_sorted].
Qed.
End SortFacts.

Lemma firstn_In (A : Type) (n : nat) (x : A) (xs : list A) :
  In x (firstn n xs) -> In x xs.
Proof.
  intros H. rewrite <- (firstn_skipn n xs). apply in_or_app. now left.
Qed.

Lemma firstn_sorted (A : Type) (R : A -> A -> Prop) (n : nat) (xs : list A) :
  StronglySorted R xs -> StronglySorted R (firstn n xs).
Proof.
  intros H. revert n. induction H as [|x xs Hs IH Hx]; intros [|n]; simpl;
    try constructor.
  - apply IH.
  - rewrite Forall_forall in *. intros z Hz. apply Hx.
    eapply firstn_In; eauto.
Qed.

Lemma slice0_sorted (A : Type) (R : A -> A -> Prop) (stop : Z) (xs : list A) :
  StronglySorted R xs -> StronglySorted R (slice0 stop xs).
Proof. unfold slice0. destruct (stop <? 0)%Z; apply firstn_sorted. Qed.

Lemma slice0_In (A : Type) (stop : Z) (x : A) (xs : list A) :
  In x (slice0 stop xs) -> In x xs.
Proof. unfold slice0. destruct (stop <? 0)%Z; apply firstn_In. Qed.

Lemma slice0_length (A : Type) (stop : Z) (xs : list A) :
  (0 <= stop)%Z -> (Z.of_nat (List.length (slice0 stop xs)) <= stop)%Z.
Proof.
  intros H. unfold slice0.
  destruct (stop <? 0)%Z eqn:E; [apply Z.ltb_lt in E; lia|].
  rewrite length_firstn. lia.
Qed.

Lemma slice0_nat (A : Type) (n : nat) (xs : list A) :
  slice0 (Z.of_nat n) xs = firstn n xs.
Proof.
  unfold slice0. destruct (Z.of_nat n <? 0)%Z eqn:E.
  - apply Z.ltb_lt in E. lia.
  - now rewrite Nat2Z.id.
Qed.

End JsFacts.

(** ** The query facade *)

Module FacadeFacts.

Import DatabaseManager Spec JsFacts.

Lemma getAllCompanies_run (remote : Remote) :
  getAllCompanies remote =
  (match companies_endpoint remote with
   | inr json => Returned (or_empty (data json))
   | inl cause => Thrown ("API request failed: " ++ cause)%string
   end, [GetCompanies]).
Proof.
  unfold getAllCompanies, bind, fetchAPI, ret.
  now destruct (companies_endpoint remote).
Qed.

(** Once the company list has arrived, a method that starts by fetching
    it continues with that list. *)
Lemma with_companies (A : Type) (k : list Company.t -> M A)
      (remote : Remote) (companies : list Company.t) :
  fst (getAllCompanies remote) = Returned companies ->
  bind getAllCompanies k remote =
  (fst (k companies remote), GetCompanies :: snd (k companies remote)).
Proof.
  intros H. unfold bind. pose proof (getAllCompanies_run remote) as R.
  destruct (getAllCompanies remote) as [outcome issued]. simpl in H. subst outcome.
  assert (issued = [GetCompanies]) as -> by now inversion R.
  now destruct (k companies remote).
Qed.

(** What the filter of [getCompaniesBySector] keeps. *)
Lemma kept_by_sector (sector : string) (c : Company.t) :
  and_then (Company.sector c)
           (fun s => includes (toLowerCase s) (toLowerCase sector)) = true
  <-> ~ sector_missing c /\ sector_includes c sector.
Proof.
  unfold sector_missing, sector_includes, and_then.
  destruct (Company.sector c) as [| |s].
  - split; [discriminate | intros [H _]; exfalso; apply H; now left].
  - split; [discriminate | intros [H _]; exfalso; apply H; right; now left].
  - rewrite andb_true_iff, includes_spec. split.
    + intros [Ht (pre & post & H)]. split.
      * intros [E|[E|E]]; try discriminate. inversion E; subst s. discriminate.
      * now exists s, pre, post.
    + intros [Hpresent (s' & pre & post & E & H)]. inversion E; subst s'. split.
      * destruct s; [exfalso; apply Hpresent; right; now right | reflexivity].
      * now exists pre, post.
Qed.

(** C6. For every company list and query [sector],
    [getCompaniesBySector] returns the companies of the list, in the
    order of the list, whose sector is not missing and contains the query
    as a substring once both are in lower case; a company whose sector is
    missing is never among them. *)
Theorem getCompaniesBySector_exact :
  forall (remote : Remote) (companies : list Company.t) (sector : string),
    fst (getAllCompanies remote) = Returned companies ->
    exists keep : Company.t -> bool,
      fst (getCompaniesBySector sector remote) = Returned (filter keep companies) /\
      (forall c, keep c = true <-> ~ sector_missing c /\ sector_includes c sector) /\
      (forall c, sector_missing c -> ~ In c (filter keep companies)).
Proof.
  intros remote companies sector Hfetch.
  exists (fun company : Company.t =>
            and_then (Company.sector company)
              (fun s => includes (toLowerCase s) (toLowerCase sector))).
  split; [|split].
  - unfold getCompaniesBySector. now rewrite (with_companies _ _ _ _ Hfetch).
  - intros c. apply kept_by_sector.
  - intros c Hmissing Hin. apply filter_In in Hin. destruct Hin as [_ Hc].
    apply kept_by_sector in Hc. now destruct Hc.
Qed.

(** The query in capitals finds the two banking sectors, and a query in
    small letters finds the sector written in Spanish capitals. *)
Lemma getCompaniesBySector_exact_witness :
  (exists keep : Company.t -> bool,
      fst (getCompaniesBySector "BANK" Sample.remote)
      = Returned (filter keep Sample.companies) /\
      filter keep Sample.companies = [Sample.santander; Sample.bbva] /\
      (forall c, keep c = true <-> ~ sector_missing c /\ sector_includes c "BANK") /\
      (forall c, sector_missing c -> ~ In c (filter keep Sample.companies))) /\
  (exists keep : Company.t -> bool,
      fst (getCompaniesBySector "energía" Sample.spanish)
      = Returned (filter keep [Sample.endesa; Sample.santander]) /\
      filter keep [Sample.endesa; Sample.santander] = [Sample.endesa] /\
      (forall c, keep c = true <-> ~ sector_missing c /\ sector_includes c "energía")).
Proof.
  split.
  - destruct (getCompaniesBySector_exact Sample.remote Sample.companies "BANK" eq_refl)
      as (keep & Hrun & Hkeep & Hmissing).
    exists keep. split; [exact Hrun|]. split; [|split; assumption].
    assert (E : fst (getCompaniesBySector "BANK" Sample.remote)
                = Returned [Sample.santander; Sample.bbva]) by reflexivity.
    rewrite Hrun in E. now inversion E.
  - destruct (getCompaniesBySector_exact Sample.spanish
                [Sample.endesa; Sample.santander] "energía" eq_refl)
      as (keep & Hrun & Hkeep & _).
    exists keep. split; [exact Hrun|]. split; [|assumption].
    assert (E : fst (getCompaniesBySector "energía" Sample.spanish)
                = Returned [Sample.endesa]) by reflexivity.
    rewrite Hrun in E. now inversion E.
Defined.

(** C7. A lookup that finds nothing is an ordinary result: for a symbol
    that no company of the list carries, [getCompanyBySymbol] returns
    [null]; for a company id that no company of the list carries,
    [getHistoricalPrices] returns the empty list, without throwing and
    without asking for prices. *)
Theorem failed_lookups_are_results :
  forall (remote : Remote) (companies : list Company.t),
    fst (getAllCompanies remote) = Returned companies ->
    (forall symbol,
        (forall c, In c companies -> Company.symbol c <> symbol) ->
        getCompanyBySymbol symbol remote = (Returned null, [GetCompanies])) /\
    (forall companyId days,
        (forall c, In c companies -> Company.id c <> companyId) ->
        getHistoricalPrices companyId days remote = (Returned [], [GetCompanies])).
Proof.
  intros remote companies Hfetch. split.
  - intros symbol Habsent. unfold getCompanyBySymbol.
    rewrite (with_companies _ _ _ _ Hfetch). unfold Js.find.
    destruct (List.find _ companies) as [c|] eqn:E; [|reflexivity].
    apply find_some in E. destruct E as [Hin Heq].
    apply strict_eq_spec in Heq. now apply Habsent in Hin.
  - intros companyId days Habsent. unfold getHistoricalPrices.
    rewrite (with_companies _ _ _ _ Hfetch). unfold Js.find.
    destruct (List.find _ companies) as [c|] eqn:E; [|reflexivity].
    apply find_some in E. destruct E as [Hin Heq].
    apply strict_eq_spec in Heq. now apply Habsent in Hin.
Qed.

Lemma failed_lookups_are_results_witness :
  getCompanyBySymbol (val "SANTANDER") Sample.remote = (Returned null, [GetCompanies]) /\
  getHistoricalPrices (val "99") 30 Sample.remote = (Returned [], [GetCompanies]).
Proof.
  destruct (failed_lookups_are_results Sample.remote Sample.companies eq_refl)
    as [Hsymbol Hid].
  split.
  - apply Hsymbol. intros c Hc. simpl in Hc.
    repeat (destruct Hc as [<-|Hc]; [discriminate|]). contradiction.
  - apply Hid. intros c Hc. simpl in Hc.
    repeat (destruct Hc as [<-|Hc]; [discriminate|]). contradiction.
Defined.

(** C8. [executeCustomQuery] throws its unsupported-operation error for
    every input and issues no request, so the SQL is never executed;
    [getESGScores] returns the empty list for every company id, again
    without a request. *)
Theorem unsupported_operations :
  forall (remote : Remote),
    (forall sql params,
        executeCustomQuery sql params remote =
        (Thrown "Custom SQL queries are not supported via the Cloudflare Worker API. Please use the specific endpoints available.",
         [])) /\
    (forall companyId, getESGScores companyId remote = (Returned [], [])).
Proof. intros remote. split; reflexivity. Qed.

End FacadeFacts.

(** ** Market concentration *)

Module ConcentrationFacts.

Import AnalyticsManager Spec.
Local Open Scope Q_scope.

Lemma gt_spec (a b : Q) : gt a b = true <-> b < a.
Proof.
  unfold gt. rewrite negb_true_iff. split; intro H.
  - apply Qnot_le_lt. intro L. apply Qle_bool_iff in L. congruence.
  - destruct (Qle_bool a b) eqn:E; [|reflexivity].
    apply Qle_bool_iff in E. exfalso. now apply (Qlt_not_le b a).
Qed.

Lemma gt_false (a b : Q) : gt a b = false <-> a <= b.
Proof.
  unfold gt. rewrite negb_false_iff. apply Qle_bool_iff.
Qed.



(** The three buckets of the classifier. *)
Lemma concentrationLevel_buckets (h : Q) :
  (2500 < h -> concentrationLevel h = "highly_concentrated"%string) /\
  (1500 < h /\ h <= 2500 -> concentrationLevel h = "moderately_concentrated"%string) /\
  (h <= 1500 -> concentrationLevel h = "competitive"%string).
Proof.
  unfold concentrationLevel. repeat split.
  - intros H. apply gt_spec in H. now rewrite H.
  - intros [H1 H2]. apply gt_spec in H1. apply gt_false in H2. now rewrite H2, H1.
  - intros H. assert (H' : h <= 2500) by lra.
    apply gt_false in H, H'. now rewrite H', H.
Qed.


















Lemma round_near (x : Q) : x - (1 # 2) < inject_Z (round x) /\ inject_Z (round x) <= x + (1 # 2).
Proof.
  unfold round. split.
  - pose proof (Qlt_floor (x + (1 # 2))) as H.
    rewrite inject_Z_plus in H. change (inject_Z 1) with 1 in H. lra.
  - apply Qfloor_le.
Qed.

(** The bounds below are bounds on the accumulated sum, not on its
    rounding: for three equal sectors the function reports 3333, which is
    below a third of 10000. *)
Lemma reported_index_below_bound :
  Concentration.hhi_index (calculateMarketConcentration Sample.equal_thirds) = 3333%Z /\
  ~ 10000 / count _ Sample.equal_thirds
    <= inject_Z (Concentration.hhi_index (calculateMarketConcentration Sample.equal_thirds)).
Proof.
  split; [reflexivity|].
  intros H. apply Qle_bool_iff in H. vm_compute in H. discriminate.
Qed.



End ConcentrationFacts.

(** ** Opportunity screening *)

Module ScreeningFacts.

Import AnalyticsManager Spec FacadeFacts JsFacts.
Local Open Scope Q_scope.

Lemma score_company_in_range (company : Company.t) : in_range (score_company company).
Proof.
  unfold in_range, score_company. cbn [Opportunity.score]. split.
  - apply Q.le_max_l.
  - apply Q.max_lub; [discriminate | apply Q.le_min_l].
Qed.

Lemma scored_in_range (companies : list Company.t) :
  Forall in_range (sort by_score (map score_company companies)).
Proof.
  apply Forall_forall. intros o Ho. apply sort_In in Ho.
  apply in_map_iff in Ho. destruct Ho as (c & <- & _).
  apply score_company_in_range.
Qed.

(** C9. Whatever the companies and the criteria, screening returns once the
    company list has arrived, and every score it produces, in the ranked
    list of [scoreOpportunities] and in the opportunities of
    [screenOpportunities], lies between 0 and 10. *)
Theorem opportunity_scores_in_range :
  forall (remote : Remote) (companies : list Company.t)
         (criteria : Criteria.t) (limit : Z),
    fst (DatabaseManager.getAllCompanies remote) = Returned companies ->
    (exists screening,
        fst (screenOpportunities criteria limit remote) = Returned screening /\
        Forall in_range (Screening.opportunities screening)) /\
    (forall candidates,
        exists scored,
          scoreOpportunities candidates criteria remote = (Returned scored, []) /\
          Forall in_range scored).
Proof.
  intros remote companies criteria limit Hfetch. split.
  - unfold screenOpportunities, try_catch.
    rewrite (with_companies _ _ _ _ Hfetch).
    unfold scoreOpportunities, bind, ret. cbn [fst snd].
    eexists. split; [reflexivity|]. cbn [Screening.opportunities].
    apply Forall_forall. intros o Ho. apply slice0_In in Ho.
    revert o Ho. apply Forall_forall. apply scored_in_range.
  - intros candidates. eexists. split; [reflexivity|]. apply scored_in_range.
Qed.

Lemma opportunity_scores_in_range_witness :
  exists screening,
    fst (screenOpportunities Sample.any_criteria 10 Sample.remote) = Returned screening /\
    Forall in_range (Screening.opportunities screening).
Proof.
  apply (opportunity_scores_in_range Sample.remote Sample.companies
           Sample.any_criteria 10 eq_refl).
Defined.

End ScreeningFacts.
(** ** The concentration figures on doubles *)

Module FloatOrder.

Import Floats.
Local Open Scope float_scope.

Lemma SFcompare_antisym (x y : spec_float) :
  SFcompare y x = option_map CompOpp (SFcompare x y).
Proof.
  destruct x as [sx|sx| |sx mx ex], y as [sy|sy| |sy my ey]; try reflexivity;
    try (destruct sx; reflexivity); try (destruct sy; reflexivity);
    try (destruct sx, sy; reflexivity).
  cbn [SFcompare option_map]. f_equal.
  destruct sx, sy; try reflexivity.
  - rewrite (Z.compare_antisym ex ey).
    destruct (ex ?= ey)%Z; try reflexivity.
    cbn [CompOpp]. now rewrite (Pos.compare_cont_antisym mx my Eq).
  - rewrite (Z.compare_antisym ex ey).
    destruct (ex ?= ey)%Z; try reflexivity.
    cbn [CompOpp]. now rewrite (Pos.compare_cont_antisym mx my Eq).
Qed.

Lemma leb_not_ltb (x y : float) : (x <=? y) = true -> (y <? x) = false.
Proof.
  rewrite leb_spec, ltb_spec. unfold SFleb, SFltb.
  rewrite (SFcompare_antisym (Prim2SF x) (Prim2SF y)).
  now destruct (SFcompare (Prim2SF x) (Prim2SF y)) as [[ | | ]|].
Qed.

Lemma eqb_leb (x y : float) : (x =? y) = true -> (x <=? y) = true.
Proof.
  rewrite leb_spec, eqb_spec. unfold SFleb, SFeqb.
  now destruct (SFcompare (Prim2SF x) (Prim2SF y)) as [[ | | ]|].
Qed.

(** What is not a number compares with nothing. *)
Lemma nan_not_ltb (x y : float) : (y =? y) = false -> (x <? y) = false.
Proof.
  rewrite eqb_spec, ltb_spec. unfold SFeqb, SFltb.
  destruct (Prim2SF y) as [s|s| |s m e].
  - discriminate.
  - now destruct s.
  - intros _. now destruct (Prim2SF x).
  - cbn [SFcompare]. destruct s.
    + now rewrite Z.compare_refl, Pos.compare_cont_refl.
    + now rewrite Z.compare_refl, Pos.compare_cont_refl.
Qed.

(** Nothing at or below 1500 is above 2500. *)
Lemma below_both (h : float) : (h <=? 1500) = true -> (2500 <? h) = false.
Proof.
  rewrite leb_spec, ltb_spec. unfold SFleb, SFltb.
  change (Prim2SF 1500) with (S754_finite false 6597069766656000 (-42)).
  change (Prim2SF 2500) with (S754_finite false 5497558138880000 (-41)).
  destruct (Prim2SF h) as [s|s| |s m e]; cbn [SFcompare].
  - reflexivity.
  - now destruct s.
  - reflexivity.
  - destruct s; [reflexivity|].
    destruct (e ?= -42)%Z eqn:E.
    + apply Z.compare_eq in E. subst e. reflexivity.
    + intros _. rewrite Z.compare_lt_iff in E.
      assert (G : (-41 ?= e)%Z = Gt) by (apply Z.compare_gt_iff; lia).
      now rewrite G.
    + discriminate.
Qed.

(** What equals 2500 is above 1500. *)
Lemma at_2500_above_1500 (h : float) : (h =? 2500) = true -> (1500 <? h) = true.
Proof.
  rewrite eqb_spec, ltb_spec. unfold SFeqb, SFltb.
  change (Prim2SF 1500) with (S754_finite false 6597069766656000 (-42)).
  change (Prim2SF 2500) with (S754_finite false 5497558138880000 (-41)).
  destruct (Prim2SF h) as [s|s| |s m e]; cbn [SFcompare].
  - now destruct s.
  - now destruct s.
  - discriminate.
  - destruct s; [discriminate|].
    destruct (e ?= -41)%Z eqn:E; try discriminate.
    apply Z.compare_eq in E. subst e. reflexivity.
Qed.

End FloatOrder.

Module DoubleFacts.

Import Floats.
Import Binary64 Doubles FloatOrder.
Local Open Scope float_scope.

(** The three buckets of the classifier. *)
Lemma level_by_comparison (h : float) :
  ((2500 <? h) = true -> concentrationLevel h = "highly_concentrated"%string) /\
  ((1500 <? h) = true -> (h <=? 2500) = true ->
   concentrationLevel h = "moderately_concentrated"%string) /\
  ((h <=? 1500) = true -> concentrationLevel h = "competitive"%string).
Proof.
  unfold concentrationLevel. repeat split.
  - now intros ->.
  - intros Hlow Hup. now rewrite (leb_not_ltb _ _ Hup), Hlow.
  - intros Hup. now rewrite (below_both _ Hup), (leb_not_ltb _ _ Hup).
Qed.

(** With no total, nothing is computed: the level is [unknown], though the
    index reported, 0, is below 1500; so it is for no rows at all, for
    which the sum of squared shares is 0 as well. *)
Lemma zero_total_is_unknown :
  let reported := calculateMarketConcentration [] in
  hhi [] = 0 /\
  (Concentration.hhi_index reported <=? 1500) = true /\
  Concentration.concentration_level reported = "unknown"%string /\
  Concentration.concentration_level reported <> "competitive"%string.
Proof. repeat split. discriminate. Qed.

(** C4. When the total market cap is zero the function reports an index of
    0 and the level [unknown].  Otherwise the index is the rounded sum of
    the squared shares and the level is read off the sum as accumulated,
    before rounding, with strict comparisons: above 2500 it is
    [highly_concentrated], above 1500 and up to 2500
    [moderately_concentrated], up to 1500 [competitive]; a sum of exactly
    2500 is [moderately_concentrated], one of exactly 1500 [competitive],
    and so is one that is not a number. *)
Theorem concentration_thresholds_strict :
  forall sectorPerformance : list Sector.t,
    let total := totalMarketCap sectorPerformance in
    let h := hhi sectorPerformance in
    let reported := calculateMarketConcentration sectorPerformance in
    let level := Concentration.concentration_level reported in
    ((total =? 0) = true ->
     reported = {| Concentration.hhi_index := 0;
                   Concentration.concentration_level := "unknown";
                   Concentration.top_3_market_share := undefined |}) /\
    ((total =? 0) = false ->
     Concentration.hhi_index reported = round h /\
     ((2500 <? h) = true -> level = "highly_concentrated"%string) /\
     ((1500 <? h) = true -> (h <=? 2500) = true ->
      level = "moderately_concentrated"%string) /\
     ((h <=? 1500) = true -> level = "competitive"%string) /\
     ((h =? 2500) = true -> level = "moderately_concentrated"%string) /\
     ((h =? 1500) = true -> level = "competitive"%string) /\
     ((h =? h) = false -> level = "competitive"%string)).
Proof.
  intros sp total h reported level. split.
  - intros Hzero. unfold reported, calculateMarketConcentration.
    fold total. now rewrite Hzero.
  - intros Hsome.
    assert (Hlevel : level = concentrationLevel h).
    { unfold level, reported, calculateMarketConcentration.
      fold total. now rewrite Hsome. }
    assert (Hindex : Concentration.hhi_index reported = round h).
    { unfold reported, calculateMarketConcentration. fold total. now rewrite Hsome. }
    destruct (level_by_comparison h) as (Hhigh & Hmid & Hlow).
    rewrite Hlevel. repeat split; trivial.
    + intros E. apply Hmid; [now apply at_2500_above_1500 | now apply eqb_leb].
    + intros E. apply Hlow. now apply eqb_leb.
    + intros E. unfold concentrationLevel.
      now rewrite !(nan_not_ltb _ h E).
Qed.

(** Four equal sectors add up to exactly 2500 and seven sectors of caps
    3, 3, 3, 3, 2, 2 and 4 to exactly 1500; caps 7, 7, 6, 3 and 1 add up to
    the next double after 2500, which is reported as index 2500 with the
    level [highly_concentrated]. *)
Lemma concentration_thresholds_strict_witness :
  Concentration.concentration_level
    (calculateMarketConcentration (rows [25; 25; 25; 25]))
  = "moderately_concentrated"%string /\
  Concentration.concentration_level
    (calculateMarketConcentration (rows [3; 3; 3; 3; 2; 2; 4]))
  = "competitive"%string /\
  (Concentration.hhi_index (calculateMarketConcentration (rows [7; 7; 6; 3; 1])) = 2500 /\
   Concentration.concentration_level (calculateMarketConcentration (rows [7; 7; 6; 3; 1]))
   = "highly_concentrated"%string) /\
  calculateMarketConcentration (rows [5; -5])
  = {| Concentration.hhi_index := 0;
       Concentration.concentration_level := "unknown";
       Concentration.top_3_market_share := undefined |}.
Proof.
  split; [|split; [|split]].
  - destruct (concentration_thresholds_strict (rows [25; 25; 25; 25])) as [_ H].
    destruct (H eq_refl) as (_ & _ & _ & _ & Hboundary & _).
    apply Hboundary. reflexivity.
  - destruct (concentration_thresholds_strict (rows [3; 3; 3; 3; 2; 2; 4])) as [_ H].
    destruct (H eq_refl) as (_ & _ & _ & _ & _ & Hboundary & _).
    apply Hboundary. reflexivity.
  - destruct (concentration_thresholds_strict (rows [7; 7; 6; 3; 1])) as [_ H].
    destruct (H eq_refl) as (Hindex & Hhigh & _).
    split; [rewrite Hindex; reflexivity | apply Hhigh; reflexivity].
  - destruct (concentration_thresholds_strict (rows [5; -5])) as [H _].
    apply H. reflexivity.
Defined.

(** The sum of caps 7, 7, 6, 3 and 1 is the double that follows 2500. *)
Lemma index_2500_highly_concentrated :
  hhi (rows [7; 7; 6; 3; 1]) = next_up 2500 /\
  round (next_up 2500) = 2500.
Proof. split; reflexivity. Qed.


End DoubleFacts.

(** ** Grouping by key *)

Module GroupingFacts.

Section Collect.
Variables K V : Type.
Variable same_key : K -> K -> bool.
Hypothesis same_key_spec : forall a b, same_key a b = true <-> a = b.

Local Abbreviation lookup := (Spec.lookup K V same_key).
Local Abbreviation pushed := (Spec.pushed V).

Lemma same_key_refl (k : K) : same_key k k = true.
Proof. now apply same_key_spec. Qed.

Lemma lookup_push_to (k0 : K) (v : V) (m : list (K * list V)) (k : K) :
  lookup k (push_to same_key k0 v m) =
  if same_key k k0 then Some (pushed (lookup k0 m) v) else lookup k m.
Proof.
  induction m as [|[k' vs] m IH]; simpl.
  - reflexivity.
  - destruct (same_key k0 k') eqn:E0; simpl.
    + apply same_key_spec in E0. subst k'.
      now destruct (same_key k k0).
    + rewrite IH. destruct (same_key k k0) eqn:E; [|reflexivity].
      apply same_key_spec in E. subst k. now rewrite E0.
Qed.

Lemma keys_push_to (k0 : K) (v : V) (m : list (K * list V)) (k : K) :
  In k (map fst (push_to same_key k0 v m)) -> k = k0 \/ In k (map fst m).
Proof.
  induction m as [|[k' vs] m IH]; simpl.
  - intros [H|[]]. now left.
  - destruct (same_key k0 k'); simpl.
    + intros [H|H]; right; [now left | now right].
    + intros [H|H]; [right; now left|].
      destruct (IH H) as [H'|H']; [now left | right; now right].
Qed.

Lemma NoDup_push_to (k0 : K) (v : V) (m : list (K * list V)) :
  NoDup (map fst m) -> NoDup (map fst (push_to same_key k0 v m)).
Proof.
  induction m as [|[k' vs] m IH]; simpl; intros H.
  - repeat constructor. intros [].
  - inversion H as [|? ? Hnotin Hrest]; subst.
    destruct (same_key k0 k') eqn:E; simpl.
    + now constructor.
    + constructor; [|now apply IH].
      intros Hin. apply keys_push_to in Hin. destruct Hin as [->|Hin].
      * rewrite same_key_refl in E. discriminate.
      * contradiction.
Qed.

Lemma In_lookup (k : K) (vs : list V) (m : list (K * list V)) :
  NoDup (map fst m) -> In (k, vs) m -> lookup k m = Some vs.
Proof.
  induction m as [|[k' vs'] m IH]; simpl; intros Hnd Hin; [contradiction|].
  inversion Hnd as [|? ? Hnotin Hrest]; subst.
  destruct Hin as [Heq|Hin].
  - inversion Heq; subst. now rewrite same_key_refl.
  - destruct (same_key k k') eqn:E.
    + apply same_key_spec in E. subst k'.
      exfalso. apply Hnotin. change k with (fst (k, vs)). now apply in_map.
    + now apply IH.
Qed.

Variable skip : V -> bool.
Variable key : V -> K.

Local Abbreviation step := (Spec.step K V same_key skip key).
Local Abbreviation filed_under := (Spec.filed_under K V same_key skip key).

Lemma NoDup_collect (xs : list V) (m : list (K * list V)) :
  NoDup (map fst m) -> NoDup (map fst (fold_left step xs m)).
Proof.
  revert m. induction xs as [|x xs IH]; intros m H; simpl; [exact H|].
  apply IH. unfold Spec.step. destruct (skip x); [exact H | now apply NoDup_push_to].
Qed.

Lemma lookup_collect (xs : list V) (m : list (K * list V)) (k : K) :
  lookup k (fold_left step xs m) =
  match filter (filed_under k) xs with
  | [] => lookup k m
  | vs => Some (match lookup k m with Some before => before | None => [] end ++ vs)
  end.
Proof.
  revert m. induction xs as [|x xs IH]; intros m; simpl; [reflexivity|].
  rewrite IH. unfold Spec.step, Spec.filed_under at 2.
  destruct (skip x); simpl; [reflexivity|].
  rewrite lookup_push_to.
  destruct (same_key k (key x)) eqn:E.
  - apply same_key_spec in E. subst k. unfold Spec.pushed.
    destruct (filter (filed_under (key x)) xs) as [|y ys];
      destruct (lookup (key x) m); simpl; try reflexivity;
      now rewrite <- app_assoc.
  - reflexivity.
Qed.

(** Every entry of the finished map holds, in their order, exactly the
    elements filed under its key, and there is at least one. *)
Lemma collect_entry (xs : list V) (k : K) (vs : list V) :
  In (k, vs) (fold_left step xs []) ->
  vs = filter (filed_under k) xs /\ vs <> [].
Proof.
  intros Hin. apply In_lookup in Hin; [|apply NoDup_collect; constructor].
  rewrite lookup_collect in Hin. simpl in Hin.
  destruct (filter (filed_under k) xs) as [|y ys]; [discriminate|].
  inversion Hin. split; [reflexivity | discriminate].
Qed.

Lemma collect_skips (xs : list V) (m : list (K * list V)) :
  fold_left step (filter (fun x => negb (skip x)) xs) m = fold_left step xs m.
Proof.
  revert m. induction xs as [|x xs IH]; intros m; simpl; [reflexivity|].
  destruct (skip x) eqn:E; simpl.
  - assert (Hskip : step m x = m) by (unfold Spec.step; now rewrite E).
    rewrite Hskip. apply IH.
  - apply IH.
Qed.

End Collect.

Lemma filter_map_length (A B : Type) (f : A -> B) (p : B -> bool) (xs : list A) :
  List.length (filter p (map f xs)) = List.length (filter (fun x => p (f x)) xs).
Proof.
  induction xs as [|x xs IH]; simpl; [reflexivity|].
  destruct (p (f x)); simpl; now rewrite IH.
Qed.

End GroupingFacts.

(** ** Board interlocks and shareholder overlap *)

Module InterlockFacts.

Import DatabaseManager Spec JsFacts GroupingFacts FacadeFacts.

Lemma directorMap_collect (companies : list Company.t) :
  directorMap companies =
  fold_left (step _ _ strict_eq (fun _ => false) Director.name) (allDirectors companies) [].
Proof. reflexivity. Qed.

Lemma interlock_entry (companies : list Company.t) (i : Interlock.t) :
  In i (interlocks_in companies) ->
  2 <= Interlock.board_count i /\
  Interlock.board_count i
  = List.length (entries_named (Interlock.director_name i) companies).
Proof.
  unfold interlocks_in. rewrite sort_In, in_flat_map.
  intros ([name directorList] & Hentry & Hi).
  rewrite directorMap_collect in Hentry.
  apply (collect_entry _ _ strict_eq strict_eq_spec) in Hentry.
  destruct Hentry as [Hlist _].
  unfold interlock_of in Hi.
  destruct (1 <? List.length directorList) eqn:E; [|contradiction].
  destruct Hi as [<-|[]]. cbn [Interlock.board_count Interlock.director_name].
  apply Nat.ltb_lt in E. split; [lia|].
  rewrite Hlist at 1. reflexivity.
Qed.

Lemma interlocks_descending (companies : list Company.t) :
  descending (interlocks_in companies).
Proof.
  unfold descending, interlocks_in. apply sort_sorted.
  - intros a b c Hab Hbc. lia.
  - intros a b H. unfold by_board_count in H. apply Z.ltb_lt in H. lia.
  - intros a b H. unfold by_board_count in H. apply Z.ltb_ge in H. lia.
Qed.

Lemma listed_once (name : optional string) (ds : list Director.t) :
  NoDup (map Director.name ds) ->
  List.length (filter (fun d => strict_eq name (Director.name d)) ds)
  = if existsb (fun d => strict_eq name (Director.name d)) ds then 1 else 0.
Proof.
  induction ds as [|d ds IH]; simpl; intros Hnd; [reflexivity|].
  inversion Hnd as [|? ? Hnotin Hrest]; subst.
  destruct (strict_eq name (Director.name d)) eqn:E; simpl.
  - apply strict_eq_spec in E. subst name.
    rewrite (IH Hrest).
    destruct (existsb _ ds) eqn:Ex; [|reflexivity].
    apply existsb_exists in Ex. destruct Ex as (d' & Hin & Heq).
    apply strict_eq_spec in Heq. exfalso. apply Hnotin.
    rewrite Heq. now apply in_map.
  - now apply IH.
Qed.

Lemma tagged_named (name : optional string) (company : Company.t) (ds : list Director.t) :
  filter (fun d => strict_eq name (Director.name d)) (map (tag_director company) ds)
  = map (tag_director company)
        (filter (fun d => strict_eq name (Director.name d)) ds).
Proof.
  induction ds as [|d ds IH]; simpl; [reflexivity|].
  destruct (strict_eq name (Director.name d)); simpl; now rewrite IH.
Qed.

Lemma entries_are_boards (name : optional string) (companies : list Company.t) :
  single_listings companies ->
  List.length (entries_named name companies) = boards_with name companies.
Proof.
  unfold single_listings, entries_named, boards_with, allDirectors.
  induction 1 as [|c cs Hc _ IH]; simpl; [reflexivity|].
  rewrite filter_app, length_app, IH. unfold sits_on at 2.
  destruct (Company.directors c) as [| |ds]; simpl; try reflexivity.
  simpl in Hc. rewrite tagged_named, length_map, (listed_once name ds Hc).
  now destruct (existsb _ ds).
Qed.

(** C1. On a board that lists one name twice the record counts two
    boards where there is one company: for the one company ACS, whose board
    has Florentino Perez as chair and as chief executive,
    [getBoardInterlocks] emits a record of [board_count] 2 with the
    companies [ACS, ACS], though the name appears at one company. *)
Theorem board_count_is_not_company_count :
  exists i,
    fst (getBoardInterlocks Sample.acs_only) = Returned [i] /\
    Interlock.director_name i = val "Florentino Perez" /\
    Interlock.companies i = "ACS, ACS" /\
    Interlock.board_count i = 2 /\
    boards_with (Interlock.director_name i) [Sample.double_listing] = 1.
Proof.
  eexists. split; [reflexivity|]. repeat split.
Qed.

(** What the records do count: every record has a [board_count] of at
    least 2, which is the number of director entries, over all boards, that
    bear the record's name; that is the number of companies where the name
    appears when no board lists a name twice.  The records come out in
    non-increasing order of [board_count]. *)
Lemma interlocks_count_entries :
  forall (remote : Remote) (companies : list Company.t),
    fst (getAllCompanies remote) = Returned companies ->
    exists interlocks,
      fst (getBoardInterlocks remote) = Returned interlocks /\
      descending interlocks /\
      forall i, In i interlocks ->
        2 <= Interlock.board_count i /\
        Interlock.board_count i
        = List.length (entries_named (Interlock.director_name i) companies) /\
        (single_listings companies ->
         Interlock.board_count i = boards_with (Interlock.director_name i) companies).
Proof.
  intros remote companies Hfetch. exists (interlocks_in companies).
  split; [|split].
  - unfold getBoardInterlocks. now rewrite (with_companies _ _ _ _ Hfetch).
  - apply interlocks_descending.
  - intros i Hi. destruct (interlock_entry companies i Hi) as [Htwo Hcount].
    repeat split; trivial.
    intros Hsingle. rewrite Hcount. now apply entries_are_boards.
Qed.

Lemma sample_single_listings : single_listings Sample.companies.
Proof.
  repeat constructor; simpl; intuition discriminate.
Qed.

Lemma interlocks_count_entries_sample :
  exists i,
    In i (interlocks_in Sample.companies) /\
    2 <= Interlock.board_count i /\
    Interlock.board_count i = boards_with (Interlock.director_name i) Sample.companies.
Proof.
  destruct (interlocks_count_entries Sample.remote Sample.companies eq_refl)
    as (interlocks & Hrun & _ & Hall).
  assert (Hsame : interlocks = interlocks_in Sample.companies).
  { change (fst (getBoardInterlocks Sample.remote))
      with (Returned (interlocks_in Sample.companies)) in Hrun.
    now inversion Hrun. }
  subst interlocks.
  assert (Hin : In (hd (Interlock.mk undefined EmptyString 0 EmptyString)
                       (interlocks_in Sample.companies))
                   (interlocks_in Sample.companies)) by (left; reflexivity).
  destruct (Hall _ Hin) as (Htwo & _ & Hboards).
  eexists. split; [exact Hin|]. split; [exact Htwo|].
  apply Hboards. exact sample_single_listings.
Defined.

End InterlockFacts.

Module OverlapFacts.

Import DatabaseManager Spec JsFacts GroupingFacts FacadeFacts.

Lemma truthy_or_else (a b : optional string) :
  truthy (or_else a b) = truthy a || truthy b.
Proof. unfold or_else. now destruct (truthy a) eqn:E. Qed.

Lemma has_name_spec (p : Position.t) : has_name p = truthy (position_name p).
Proof. unfold has_name, position_name. now rewrite truthy_or_else. Qed.

Lemma carries_symbol_spec (p : Position.t) :
  carries_symbol p = truthy (position_company p).
Proof. unfold carries_symbol, position_company. now rewrite truthy_or_else. Qed.

Lemma bears_spec (name : optional string) (p : Position.t) :
  bears name p = truthy (position_name p) && strict_eq name (position_name p).
Proof.
  unfold bears, position_name, or_else.
  destruct (truthy (Position.shareholder_name p)) eqn:E.
  - rewrite E. destruct (strict_eq name (Position.shareholder_name p)) eqn:S.
    + apply strict_eq_spec in S. subst name. now rewrite E.
    + now rewrite andb_false_r.
  - destruct (strict_eq name (Position.name p)) eqn:S.
    + apply strict_eq_spec in S. subst name. now rewrite andb_true_r.
    + now rewrite !andb_false_r.
Qed.

Lemma missing_spec (field : optional string) : truthy field = false <-> missing field.
Proof.
  unfold missing. destruct field as [| |s]; cbn.
  - split; auto.
  - split; auto.
  - destruct s; cbn; split; auto; try discriminate.
    intros [H|[H|H]]; discriminate.
Qed.

Lemma shareholderMap_collect (shareholders : list Position.t) :
  shareholderMap shareholders =
  fold_left (step _ _ strict_eq (fun p => negb (truthy (position_name p))) position_name)
            shareholders [].
Proof. reflexivity. Qed.

Lemma filed_under_group (name : optional string) (shareholders : list Position.t) :
  filter (filed_under _ _ strict_eq (fun p => negb (truthy (position_name p)))
                      position_name name) shareholders
  = group_of name shareholders.
Proof.
  unfold group_of. apply filter_ext. intros p.
  unfold filed_under. now rewrite negb_involutive, bears_spec.
Qed.

Lemma shareholderMap_skips (shareholders : list Position.t) :
  shareholderMap (filter has_name shareholders) = shareholderMap shareholders.
Proof.
  rewrite !shareholderMap_collect.
  rewrite <- (collect_skips _ _ strict_eq (fun p => negb (truthy (position_name p)))
                position_name shareholders []).
  f_equal. apply filter_ext. intros p.
  now rewrite negb_involutive, has_name_spec.
Qed.

Lemma overlap_entry (shareholders : list Position.t) (r : Overlap.t) :
  In r (overlaps_in shareholders) ->
  truthy (Overlap.shareholder_name r) = true /\
  2 <= List.length (group_of (Overlap.shareholder_name r) shareholders) /\
  Overlap.company_count r
  = with_company (group_of (Overlap.shareholder_name r) shareholders).
Proof.
  unfold overlaps_in. rewrite sort_In, in_flat_map.
  intros ([name positions] & Hentry & Hr).
  rewrite shareholderMap_collect in Hentry.
  apply (collect_entry _ _ strict_eq strict_eq_spec) in Hentry.
  destruct Hentry as [Hlist Hne]. rewrite filed_under_group in Hlist.
  unfold overlap_of in Hr.
  destruct (1 <? List.length positions) eqn:E; [|contradiction].
  destruct Hr as [<-|[]].
  cbn [Overlap.shareholder_name Overlap.company_count].
  apply Nat.ltb_lt in E. rewrite <- Hlist. repeat split.
  - destruct positions as [|p ps]; [contradiction|].
    assert (Hp : In p (group_of name shareholders)) by (rewrite <- Hlist; now left).
    apply filter_In in Hp. destruct Hp as [_ Hp].
    unfold bears in Hp. now apply andb_true_iff in Hp.
  - lia.
  - unfold with_company. rewrite filter_map_length. f_equal.
    apply filter_ext. intros p. now rewrite carries_symbol_spec.
Qed.

(** C10. [getShareholderOverlap] leaves out the positions that have neither
    a [shareholder_name] nor a [name]: they change nothing in the result
    and belong to no group.  Every record it emits goes by a name that at
    least two positions bear, and its [company_count] is the number of
    those positions that carry a [company_symbol] or a [ticker]; so a
    record whose group has a position that lacks both can have a
    [company_count] below 2. *)
Theorem shareholder_overlap_counts_symbols :
  forall (remote : Remote) (json : PositionsData),
    positions_endpoint remote = inr json ->
    let shareholders :=
      or_empty (or_else (shareholderPositions json) (positions json)) in
    exists overlaps,
      fst (getShareholderOverlap remote) = Returned overlaps /\
      overlaps = overlaps_in (filter has_name shareholders) /\
      (forall p name,
          missing (Position.shareholder_name p) -> missing (Position.name p) ->
          ~ In p (group_of name shareholders)) /\
      (forall r, In r overlaps ->
         truthy (Overlap.shareholder_name r) = true /\
         2 <= List.length (group_of (Overlap.shareholder_name r) shareholders) /\
         Overlap.company_count r
         = with_company (group_of (Overlap.shareholder_name r) shareholders)) /\
      (exists other input emitted r p,
          positions_endpoint other
          = inr {| shareholderPositions := val input; positions := undefined |} /\
          fst (getShareholderOverlap other) = Returned emitted /\
          In r emitted /\
          Overlap.company_count r < 2 /\
          In p (group_of (Overlap.shareholder_name r) input) /\
          lacks_symbols p).
Proof.
  intros remote json Hjson shareholders.
  exists (overlaps_in shareholders). split; [|split; [|split; [|split]]].
  - unfold getShareholderOverlap, bind, fetchAPI, ret. now rewrite Hjson.
  - unfold overlaps_in. now rewrite shareholderMap_skips.
  - intros p name Hholder Hname Hin. apply filter_In in Hin.
    destruct Hin as [_ Hp]. rewrite bears_spec, <- has_name_spec in Hp.
    apply andb_true_iff in Hp. destruct Hp as [Hp _]. unfold has_name in Hp.
    apply missing_spec in Hholder, Hname. rewrite Hholder, Hname in Hp. discriminate.
  - intros r Hr. now apply overlap_entry.
  - exists Sample.remote, Sample.shareholders. eexists. eexists.
    exists (Sample.position (val "Trust") undefined 2).
    split; [reflexivity|]. split; [reflexivity|]. split; [right; left; reflexivity|].
    split; [cbn; lia|]. split; [left; reflexivity|].
    split; left; reflexivity.
Qed.

(** The sample has two positions of BlackRock, both with a symbol, and
    two of Trust, one of them without. *)
Lemma shareholder_overlap_counts_symbols_witness :
  exists overlaps,
    fst (getShareholderOverlap Sample.remote) = Returned overlaps /\
    map (fun r => (Overlap.shareholder_name r, Overlap.company_count r)) overlaps
    = [(val "BlackRock", 2); (val "Trust", 1)] /\
    (forall r, In r overlaps ->
       truthy (Overlap.shareholder_name r) = true /\
       2 <= List.length (group_of (Overlap.shareholder_name r) Sample.shareholders) /\
       Overlap.company_count r
       = with_company (group_of (Overlap.shareholder_name r) Sample.shareholders)).
Proof.
  destruct (shareholder_overlap_counts_symbols Sample.remote _ eq_refl)
    as (overlaps & Hrun & _ & _ & Hall & _).
  exists overlaps. split; [exact Hrun|]. split; [|exact Hall].
  assert (E : fst (getShareholderOverlap Sample.remote)
              = Returned (overlaps_in Sample.shareholders)) by reflexivity.
  rewrite Hrun in E. inversion E. reflexivity.
Defined.

End OverlapFacts.

(** ** Top performers *)

Module PerformerFacts.

Import DatabaseManager Spec JsFacts FacadeFacts.

Lemma nth_error_last (A : Type) (xs : list A) (d : A) :
  xs <> [] -> nth_error xs (List.length xs - 1) = Some (last xs d).
Proof.
  induction xs as [|x xs IH]; intros Hne; [contradiction|].
  destruct xs as [|y ys]; [reflexivity|].
  replace (List.length (x :: y :: ys) - 1) with (S (List.length (y :: ys) - 1))
    by (cbn [List.length]; lia).
  cbn [nth_error]. rewrite (IH ltac:(discriminate)). reflexivity.
Qed.

Lemma getHistoricalPrices_requests (remote : Remote) (companies : list Company.t)
      (days : Z) (companyId : optional string) :
  fst (getAllCompanies remote) = Returned companies ->
  snd (getHistoricalPrices companyId days remote)
  = lookup_requests companies days companyId.
Proof.
  intros Hfetch. unfold getHistoricalPrices, lookup_requests.
  rewrite (with_companies _ _ _ _ Hfetch). cbn [snd].
  destruct (Js.find _ companies); try reflexivity.
  unfold bind, fetchAPI, ret.
  now destruct (prices_endpoint remote _ days).
Qed.

Lemma Qeq_bool_comp (a b : Q) : (a == b)%Q -> Qeq_bool a 0 = Qeq_bool b 0.
Proof.
  intros E. destruct (Qeq_bool a 0) eqn:Ha, (Qeq_bool b 0) eqn:Hb; trivial.
  - apply Qeq_bool_eq in Ha. rewrite E in Ha.
    apply Qeq_eq_bool in Ha. congruence.
  - apply Qeq_bool_eq in Hb. rewrite <- E in Hb.
    apply Qeq_eq_bool in Hb. congruence.
Qed.

Lemma lt_comp (a b : Q) : (a == b)%Q -> lt a 0 = lt b 0.
Proof. intros E. unfold lt, gt. now rewrite E. Qed.

(** The change the code computes is the quotient of the claim, with the
    values a division by zero leaves. *)
Lemma changePercent_spec (recent old : HistoricalPrice.t) :
  changePercent recent old
  = percent_change (HistoricalPrice.close recent) (HistoricalPrice.close old).
Proof.
  unfold changePercent, percent_change, Num.div.
  destruct (Qeq_bool (HistoricalPrice.close old) 0) eqn:E; [|reflexivity].
  apply Qeq_bool_eq in E.
  assert (Hsame : (HistoricalPrice.close recent - HistoricalPrice.close old
                   == HistoricalPrice.close recent)%Q) by (rewrite E; ring).
  rewrite (Qeq_bool_comp _ _ Hsame), (lt_comp _ _ Hsame).
  destruct (Qeq_bool (HistoricalPrice.close recent) 0); [reflexivity|].
  cbn. now rewrite xorb_false_r.
Qed.

(** One turn of the loop never throws: it appends what the company
    contributes. *)
Lemma loop_turn (remote : Remote) (days : Z) (performances : list Performance.t)
      (company : Company.t) :
  try_catch (performance_step days performances company)
            (fun _ => ret performances) remote
  = (Returned (performances ++ performance_of remote days company),
     snd (getHistoricalPrices (Company.id company) days remote)).
Proof.
  unfold try_catch, performance_step, bind, performance_of, window.
  destruct (getHistoricalPrices (Company.id company) days remote)
    as [[historical|message] issued]; cbn [fst snd].
  - destruct historical as [|recent [|second rest]].
    + cbn. now rewrite !app_nil_r.
    + cbn. now rewrite !app_nil_r.
    + change (2 <=? List.length (recent :: second :: rest)) with true. cbv iota.
      rewrite (nth_error_last _ (recent :: second :: rest) recent ltac:(discriminate)).
      cbn [nth_error]. unfold ret. now rewrite changePercent_spec, app_nil_r.
  - unfold ret. now rewrite !app_nil_r.
Qed.

Lemma loop_run (remote : Remote) (days : Z) (companies : list Company.t)
      (performances : list Performance.t) :
  for_of companies performances
         (fun performances company =>
            try_catch (performance_step days performances company)
                      (fun _ => ret performances)) remote
  = (Returned (performances ++ flat_map (performance_of remote days) companies),
     List.concat (map (fun c => snd (getHistoricalPrices (Company.id c) days remote))
                 companies)).
Proof.
  revert performances. induction companies as [|c cs IH]; intros performances.
  - cbn. now rewrite app_nil_r.
  - cbn [for_of flat_map map List.concat]. unfold bind at 1.
    rewrite loop_turn, IH. now rewrite app_assoc.
Qed.

Lemma getTopPerformers_run (remote : Remote) (days limit : Z)
      (companies : list Company.t) :
  fst (getAllCompanies remote) = Returned companies ->
  getTopPerformers days limit remote
  = (Returned
       (slice0 limit
          (sort by_period_change
             (flat_map (performance_of remote days) (firstn 20 companies)))),
     GetCompanies ::
     List.concat (map (fun c => lookup_requests companies days (Company.id c))
                 (firstn 20 companies))).
Proof.
  intros Hfetch. unfold getTopPerformers.
  rewrite (with_companies _ _ _ _ Hfetch).
  change (slice0 20 companies) with (firstn 20 companies).
  unfold bind. rewrite !loop_run. unfold ret. cbn [fst snd app].
  rewrite app_nil_r. f_equal. f_equal. f_equal.
  apply map_ext. intros c. now apply getHistoricalPrices_requests.
Qed.

Lemma find_in_prefix (A : Type) (p : A -> bool) (n : nat) (xs : list A) (x : A) :
  In x (firstn n xs) -> p x = true ->
  exists y, List.find p xs = Some y /\ In y (firstn n xs).
Proof.
  revert n. induction xs as [|a xs IH]; intros [|n] Hin Hp; simpl in *;
    try contradiction.
  destruct (p a) eqn:E.
  - exists a. split; [reflexivity | now left].
  - destruct Hin as [->|Hin]; [congruence|].
    destruct (IH n Hin Hp) as (y & Hy & Hyin). exists y. split; [exact Hy | now right].
Qed.

Lemma price_requests_bounded (companies : list Company.t) (days : Z)
      (scanned : list Company.t) :
  List.length
    (filter is_price_request
       (List.concat (map (fun c => lookup_requests companies days (Company.id c)) scanned)))
  <= List.length scanned.
Proof.
  induction scanned as [|c cs IH]; [cbn; lia|].
  cbn [map List.concat List.length]. rewrite filter_app, length_app.
  assert (Hone : List.length
                   (filter is_price_request
                      (lookup_requests companies days (Company.id c))) <= 1).
  { unfold lookup_requests. destruct (Js.find _ companies); cbn; lia. }
  lia.
Qed.

(** *** Sorting what can be compared *)

Section SortWithin.
Variable A : Type.
Variable after : A -> A -> bool.
Variable comparable : A -> Prop.
Variable precedes : A -> A -> Prop.
Hypothesis precedes_trans :
  forall a b c, comparable a -> comparable b -> comparable c ->
                precedes a b -> precedes b c -> precedes a c.
Hypothesis after_true :
  forall a b, comparable a -> comparable b -> after a b = true -> precedes b a.
Hypothesis after_false :
  forall a b, comparable a -> comparable b -> after a b = false -> precedes a b.

Lemma insert_sorted_within (x : A) (xs : list A) :
  comparable x -> Forall comparable xs ->
  StronglySorted precedes xs -> StronglySorted precedes (insert after x xs).
Proof.
  intros Hx Hall Hsorted. induction Hsorted as [|y ys Hs IH Hy]; simpl.
  - repeat constructor.
  - inversion Hall as [|? ? Hcy Hcys]; subst.
    destruct (after x y) eqn:E.
    + constructor; [now apply IH|].
      rewrite Forall_forall in *. intros z Hz.
      apply (Permutation_in _ (Permutation_sym (insert_perm _ after x ys))) in Hz.
      destruct Hz as [<-|Hz]; [now apply after_true | now apply Hy].
    + constructor; [now constructor|].
      constructor; [now apply after_false|].
      rewrite Forall_forall in *. intros z Hz.
      apply precedes_trans with y; auto.
Qed.

Lemma sort_sorted_within (xs : list A) :
  Forall comparable xs -> StronglySorted precedes (sort after xs).
Proof.
  induction 1 as [|x xs Hx Hxs IH]; simpl; [constructor|].
  apply insert_sorted_within; trivial.
  rewrite Forall_forall in *. intros z Hz. apply Hxs. now apply sort_In in Hz.
Qed.

End SortWithin.

(** *** The order of the changes *)

Lemma leb_trans (x y z : Num.number) :
  Num.leb x y = true -> Num.leb y z = true -> Num.leb x z = true.
Proof.
  destruct x as [a|[|]|], y as [b|[|]|], z as [c|[|]|]; cbn; trivial; try discriminate.
  rewrite !Qle_bool_iff. apply Qle_trans.
Qed.

Lemma comparator_true (x y : Num.number) :
  Num.above (Num.sub y x) 0 = true -> Num.leb x y = true.
Proof.
  destruct x as [a|[|]|], y as [b|[|]|]; cbn; trivial; try discriminate.
  unfold gt. rewrite negb_true_iff. intros H. apply Qle_bool_iff.
  destruct (Qlt_le_dec b a) as [Hlt|Hle]; [|exact Hle].
  assert (Hb : Qle_bool (b - a) 0 = true) by (apply Qle_bool_iff; lra).
  congruence.
Qed.

Lemma comparator_false (x y : Num.number) :
  Num.is_nan x = false -> Num.is_nan y = false ->
  Num.above (Num.sub y x) 0 = false -> Num.leb y x = true.
Proof.
  destruct x as [a|[|]|], y as [b|[|]|]; cbn; trivial; try discriminate.
  unfold gt. rewrite negb_false_iff, !Qle_bool_iff. intros _ _ H. lra.
Qed.

Lemma sorted_changes (performances : list Performance.t) :
  Forall (fun p => Num.is_nan (Performance.period_change p) = false) performances ->
  ranked (sort by_period_change performances).
Proof.
  intros Hall. unfold ranked.
  apply (sort_sorted_within _ by_period_change
           (fun p => Num.is_nan (Performance.period_change p) = false)).
  - intros a b c _ _ _ Hab Hbc. now apply leb_trans with (Performance.period_change b).
  - intros a b _ _ H. now apply comparator_true.
  - intros a b Ha Hb H. now apply comparator_false.
  - exact Hall.
Qed.

(** A change that is not a number is in order with nothing: a list that
    holds one beside another entry is not ranked, however it is arranged. *)
Lemma nan_never_ranked (performers : list Performance.t) :
  ranked performers ->
  existsb (fun p => Num.is_nan (Performance.period_change p)) performers = true ->
  List.length performers <= 1.
Proof.
  unfold ranked. intros Hranked Hsome.
  apply existsb_exists in Hsome. destruct Hsome as (p & Hin & Hnan).
  destruct performers as [|a [|b rest]]; cbn; try lia.
  exfalso. inversion Hranked as [|? ? Hrest Hfirst]; subst.
  inversion Hfirst as [|? ? Hab Hmore]; subst.
  destruct Hin as [<-|Hin].
  - destruct (Performance.period_change a), (Performance.period_change b) as [?|[|]|];
      discriminate.
  - assert (Hp : Num.leb (Performance.period_change p) (Performance.period_change a) = true).
    { rewrite Forall_forall in Hfirst. now apply Hfirst. }
    destruct (Performance.period_change p), (Performance.period_change a) as [?|[|]|];
      discriminate.
Qed.

Lemma contributes_a_number (remote : Remote) (days : Z) (c : Company.t)
      (p : Performance.t) :
  ~ flat_at_zero remote days c ->
  In p (performance_of remote days c) ->
  Num.is_nan (Performance.period_change p) = false.
Proof.
  intros Hflat Hp. unfold performance_of in Hp.
  destruct (window remote days c) as [historical|message] eqn:Hw; [|contradiction].
  destruct historical as [|recent [|second rest]]; try contradiction.
  destruct Hp as [<-|[]]. cbn [Performance.period_change].
  unfold percent_change.
  destruct (Qeq_bool (HistoricalPrice.close (last (recent :: second :: rest) recent)) 0)
    eqn:Eold; [|reflexivity].
  destruct (Qeq_bool (HistoricalPrice.close recent) 0) eqn:Erecent; [|reflexivity].
  exfalso. apply Hflat. exists recent, (second :: rest).
  split; [exact Hw|]. split; [discriminate|].
  split; now apply Qeq_bool_eq.
Qed.

Lemma slice0_negative_length (A : Type) (stop : Z) (xs : list A) :
  (stop < 0)%Z ->
  Z.of_nat (List.length (slice0 stop xs)) = Z.max 0 (Z.of_nat (List.length xs) + stop).
Proof.
  intros H. unfold slice0.
  destruct (stop <? 0)%Z eqn:E; [|apply Z.ltb_ge in E; lia].
  rewrite length_firstn. lia.
Qed.

(** With a [limit] of -1 the last entry is dropped and what remains is
    returned: one entry, which is more than [limit]. *)
Lemma negative_limit_drops_from_the_end :
  exists performers issued,
    getTopPerformers 30 (-1) Sample.remote = (Returned performers, issued) /\
    map Performance.symbol performers = [val "SAN"] /\
    ~ (Z.of_nat (List.length performers) <= -1)%Z.
Proof.
  eexists. eexists. split; [reflexivity|]. split; [reflexivity|].
  cbn. lia.
Qed.

(** Windows that end at a close of zero give changes that are infinite or
    not a number, and the entries returned are not ranked. *)
Lemma zero_closes_are_not_ranked :
  exists performers issued,
    getTopPerformers 30 10 Sample.halted = (Returned performers, issued) /\
    Permutation
      (map (fun p => (Performance.symbol p, Performance.period_change p)) performers)
      [(val "SAN", Num.NaN); (val "BBVA", Num.Infinity false);
       (val "IBE", Num.Finite ((90 - 100) / 100 * 100))] /\
    ~ ranked performers.
Proof.
  eexists. eexists. split; [reflexivity|]. split; [reflexivity|].
  intros Hranked. apply nan_never_ranked in Hranked; [|reflexivity].
  vm_compute in Hranked. lia.
Qed.

(** C3. Once the company list has arrived, [getTopPerformers] returns the
    entries of the first 20 companies in some order, cut by [limit]: at
    most [limit] entries for a [limit] that is not negative, and all but
    the last [-limit] for a negative one.  Unless some window starts and
    ends at a close of zero, the order is the non-increasing one of
    [period_change].  It asks for prices at most 20 times, each time for a
    company among the first 20 of the list.  A company whose window has
    fewer than two prices or did not arrive contributes nothing, and the
    [period_change] of every entry is
    [(recent.close - old.close) / old.close * 100] over the first and the
    last price of a window: an infinity when only the last close is zero,
    not a number when both are. *)
Theorem top_performers_ranked_and_capped :
  forall (remote : Remote) (days limit : Z) (companies : list Company.t),
    fst (getAllCompanies remote) = Returned companies ->
    let entries := flat_map (performance_of remote days) (firstn 20 companies) in
    exists performers issued,
      getTopPerformers days limit remote = (Returned performers, issued) /\
      (exists arranged, Permutation arranged entries /\ performers = slice0 limit arranged) /\
      ((0 <= limit)%Z -> (Z.of_nat (List.length performers) <= limit)%Z) /\
      ((limit < 0)%Z ->
       Z.of_nat (List.length performers)
       = Z.max 0 (Z.of_nat (List.length entries) + limit)) /\
      ((forall c, In c (firstn 20 companies) -> ~ flat_at_zero remote days c) ->
       performers = slice0 limit (sort by_period_change entries) /\
       ranked performers) /\
      List.length (filter is_price_request issued) <= 20 /\
      (forall symbol d,
          In (GetHistoricalPrices symbol d) issued ->
          d = days /\
          exists c, In c (firstn 20 companies) /\ symbol = query_param (Company.symbol c)) /\
      (forall p, In p performers ->
         exists c historical recent old,
           In c (firstn 20 companies) /\
           window remote days c = Returned historical /\
           2 <= List.length historical /\
           nth_error historical 0 = Some recent /\
           nth_error historical (List.length historical - 1) = Some old /\
           Performance.symbol p = Company.symbol c /\
           Performance.current_price p = HistoricalPrice.close recent /\
           (~ (HistoricalPrice.close old == 0)%Q ->
            Performance.period_change p
            = Num.Finite ((HistoricalPrice.close recent - HistoricalPrice.close old)
                          / HistoricalPrice.close old * 100)%Q) /\
           ((HistoricalPrice.close old == 0)%Q ->
            ~ (HistoricalPrice.close recent == 0)%Q ->
            exists negative, Performance.period_change p = Num.Infinity negative) /\
           ((HistoricalPrice.close old == 0)%Q ->
            (HistoricalPrice.close recent == 0)%Q ->
            Performance.period_change p = Num.NaN)) /\
      (forall c, excluded remote days c -> performance_of remote days c = []).
Proof.
  intros remote days limit companies Hfetch entries.
  eexists. eexists.
  split; [exact (getTopPerformers_run remote days limit companies Hfetch)|].
  fold entries.
  split; [|split; [|split; [|split; [|split; [|split; [|split]]]]]].
  - exists (sort by_period_change entries).
    split; [apply Permutation_sym, sort_perm | reflexivity].
  - intros Hlimit. now apply slice0_length.
  - intros Hlimit. rewrite slice0_negative_length by exact Hlimit.
    now rewrite sort_length.
  - intros Hnumbers. split; [reflexivity|].
    apply slice0_sorted, sorted_changes.
    apply Forall_forall. intros p Hp. unfold entries in Hp.
    apply in_flat_map in Hp. destruct Hp as (c & Hc & Hp).
    apply (contributes_a_number remote days c p); auto.
  - cbn [filter is_price_request].
    etransitivity; [apply price_requests_bounded|].
    rewrite length_firstn. lia.
  - intros symbol d Hin. destruct Hin as [Hin|Hin]; [discriminate|].
    apply in_concat in Hin. destruct Hin as (requests & Hreq & Hin).
    apply in_map_iff in Hreq. destruct Hreq as (c & <- & Hc).
    unfold lookup_requests in Hin. destruct Hin as [Hin|Hin]; [discriminate|].
    destruct (find_in_prefix _ (fun c' => strict_eq (Company.id c') (Company.id c))
                20 companies c Hc) as (found & Hfound & Hprefix).
    { now apply strict_eq_spec. }
    unfold Js.find in Hin. rewrite Hfound in Hin.
    destruct Hin as [Hin|[]]. inversion Hin; subst.
    split; [reflexivity|]. now exists found.
  - intros p Hp. apply slice0_In, sort_In, in_flat_map in Hp.
    destruct Hp as (c & Hc & Hp). unfold performance_of in Hp.
    destruct (window remote days c) as [historical|message] eqn:Hw; [|contradiction].
    destruct historical as [|recent [|second rest]]; try contradiction.
    destruct Hp as [<-|[]].
    exists c, (recent :: second :: rest), recent,
      (last (recent :: second :: rest) recent).
    cbn [Performance.symbol Performance.current_price Performance.period_change].
    unfold percent_change.
    split; [exact Hc|]. split; [exact Hw|]. split; [cbn; lia|].
    split; [reflexivity|]. split; [apply nth_error_last; discriminate|].
    split; [reflexivity|]. split; [reflexivity|].
    set (old := HistoricalPrice.close (last (recent :: second :: rest) recent)).
    split; [|split].
    + intros Hold. destruct (Qeq_bool old 0) eqn:E; [|reflexivity].
      apply Qeq_bool_eq in E. contradiction.
    + intros Hold Hrecent. rewrite (Qeq_eq_bool _ _ Hold).
      destruct (Qeq_bool (HistoricalPrice.close recent) 0) eqn:E;
        [|eexists; reflexivity].
      apply Qeq_bool_eq in E. contradiction.
    + intros Hold Hrecent. now rewrite (Qeq_eq_bool _ _ Hold), (Qeq_eq_bool _ _ Hrecent).
  - intros c [[message Hw]|[historical [Hw Hshort]]]; unfold performance_of; rewrite Hw.
    + reflexivity.
    + destruct historical as [|recent [|second rest]]; try reflexivity.
      cbn in Hshort. lia.
Qed.

Lemma sample_windows_rise_or_fall :
  forall c, In c (firstn 20 Sample.companies) -> ~ flat_at_zero Sample.remote 30 c.
Proof.
  intros c Hc (recent & rest & Hw & _ & Hrecent & _).
  cbn in Hc. destruct Hc as [<-|[<-|[<-|[<-|[]]]]]; cbn in Hw;
    inversion Hw; subst; discriminate.
Qed.

(** Of the two companies of the sample with a window of two prices or
    more, the one that gained 10 per cent comes before the one that lost
    10; a limit of 1 leaves the first. *)
Lemma top_performers_ranked_and_capped_witness :
  (exists performers issued,
      getTopPerformers 30 10 Sample.remote = (Returned performers, issued) /\
      map (fun p => (Performance.symbol p, Performance.period_change p)) performers
      = [(val "SAN", Num.Finite ((110 - 100) / 100 * 100));
         (val "BBVA", Num.Finite ((90 - 100) / 100 * 100))] /\
      ranked performers /\
      List.length (filter is_price_request issued) = 4) /\
  (exists performers issued,
      getTopPerformers 30 1 Sample.remote = (Returned performers, issued) /\
      map Performance.symbol performers = [val "SAN"] /\
      (Z.of_nat (List.length performers) <= 1)%Z /\
      ranked performers).
Proof.
  split.
  - destruct (top_performers_ranked_and_capped Sample.remote 30 10 Sample.companies eq_refl)
      as (performers & issued & Hrun & _ & _ & _ & Hranked & _).
    destruct (Hranked sample_windows_rise_or_fall) as [_ Hsorted].
    exists performers, issued. split; [exact Hrun|].
    vm_compute in Hrun. injection Hrun as Hperformers Hissued.
    subst performers issued.
    split; [reflexivity|]. split; [exact Hsorted | reflexivity].
  - destruct (top_performers_ranked_and_capped Sample.remote 30 1 Sample.companies eq_refl)
      as (performers & issued & Hrun & _ & Hcount & _ & Hranked & _).
    destruct (Hranked sample_windows_rise_or_fall) as [_ Hsorted].
    exists performers, issued. split; [exact Hrun|].
    split; [|split; [apply Hcount; discriminate | exact Hsorted]].
    vm_compute in Hrun. injection Hrun as Hperformers Hissued.
    now subst performers.
Defined.

End PerformerFacts.

(** ** Natural-language query routing *)

Module RouterFacts.

Import Router Spec.

(** The aliases the comparison branch extracts are the matched words in
    upper case, not stock symbols: "santander" gives SANTANDER. *)
Lemma santander_is_not_resolved_to_its_symbol :
  foundCompanies (toLowerCase "Compare Santander vs BBVA") <> ["SAN"; "BBVA"].
Proof. vm_compute. discriminate. Qed.

Section Comparison.

Variables ComparisonReport Payload : Type.
Variable compareCompanies : list string -> list string -> M ComparisonReport.
Variables bankingResults riskResults priceResults generalResults : M Payload.
Variable sectorResults : string -> M Payload.

Let analyze : string -> optional string -> M (Analysis ComparisonReport Payload) :=
  analyzeNaturalQuery compareCompanies bankingResults riskResults priceResults
                      generalResults sectorResults.

(** C2. What the router does with the two queries.  "Compare Santander vs
    BBVA" is a comparison query; the names found in it are SANTANDER and
    BBVA, the matched words in upper case, and the analysis carries what
    [compareCompanies] returns for that list and the metric [all] (or, if
    the comparison throws, the structured failure).  "compare foo vs bar" is
    a comparison query with no name found: the analysis is returned, not
    thrown, no request is issued, and its results are the error with the
    suggested phrasing. *)
Theorem comparison_query_routed :
  forall (context : optional string) (remote : Remote),
    classify (toLowerCase "Compare Santander vs BBVA") = Comparison /\
    foundCompanies (toLowerCase "Compare Santander vs BBVA") = ["SANTANDER"; "BBVA"] /\
    analyze "Compare Santander vs BBVA" context remote
    = (let (outcome, issued) := compareCompanies ["SANTANDER"; "BBVA"] ["all"] remote in
       (Returned
          match outcome with
          | Returned report =>
              comparison_done ComparisonReport Payload
                              "Compare Santander vs BBVA" context
                              (Compared Payload report)
          | Thrown message =>
              failed (comparison_pending ComparisonReport Payload
                                         "Compare Santander vs BBVA" context)
                     message
          end,
        issued)) /\
    classify (toLowerCase "compare foo vs bar") = Comparison /\
    foundCompanies (toLowerCase "compare foo vs bar") = [] /\
    analyze "compare foo vs bar" context remote
    = (Returned
         (comparison_done ComparisonReport Payload "compare foo vs bar" context
            (NotCompared ComparisonReport Payload
               "Could not identify companies to compare"
               ("Try: " ++ quoted "Compare Santander vs BBVA"
                ++ " or use company symbols like SAN.MC vs BBVA.MC")%string)),
       []).
Proof.
  intros context remote.
  assert (Hkind : classify (toLowerCase "Compare Santander vs BBVA") = Comparison)
    by reflexivity.
  assert (Hfound : foundCompanies (toLowerCase "Compare Santander vs BBVA")
                   = ["SANTANDER"; "BBVA"]) by reflexivity.
  repeat split; try reflexivity.
  unfold analyze, analyzeNaturalQuery, branch. rewrite Hkind, Hfound.
  cbn [List.length Nat.leb]. unfold try_catch, bind, ret.
  destruct (compareCompanies ["SANTANDER"; "BBVA"] ["all"] remote)
    as [[report|message] issued]; rewrite !app_nil_r; reflexivity.
Qed.

End Comparison.

End RouterFacts.

(** ** Further queries *)

Module QueryFacts.

Import DatabaseManager AnalyticsManager Queries Spec Vocabulary JsFacts FacadeFacts.

Lemma gt_true (a b : Q) : gt a b = true <-> (b < a)%Q.
Proof. apply ConcentrationFacts.gt_spec. Qed.

Lemma gt_not (a b : Q) : gt a b = false <-> (a <= b)%Q.
Proof. apply ConcentrationFacts.gt_false. Qed.

Lemma find_resolves (companies : list Company.t) (companyId : optional string)
      (company : Company.t) :
  resolves_to companies companyId company ->
  Js.find (fun c => strict_eq (Company.id c) companyId) companies = val company.
Proof.
  intros (before & after & -> & Hid & Hbefore). unfold Js.find.
  induction before as [|b before IH]; simpl.
  - assert (E : strict_eq (Company.id company) companyId = true)
      by now apply strict_eq_spec.
    now rewrite E.
  - assert (E : strict_eq (Company.id b) companyId = false).
    { apply strict_eq_false, Hbefore. now left. }
    rewrite E. apply IH. intros c Hc. apply Hbefore. now right.
Qed.

Lemma find_absent (companies : list Company.t) (companyId : optional string) :
  (forall c, In c companies -> Company.id c <> companyId) ->
  Js.find (fun c => strict_eq (Company.id c) companyId) companies = undefined.
Proof.
  intros Habsent. unfold Js.find.
  destruct (List.find _ companies) as [c|] eqn:E; [|reflexivity].
  apply find_some in E. destruct E as [Hin Heq].
  apply strict_eq_spec in Heq. now apply Habsent in Hin.
Qed.

(** X1. [getCompaniesWithPERatio] keeps, in the order of the list, exactly
    the companies that have a price-earnings ratio (the first field if it
    is truthy, else the second) within the bounds given; a bound that is
    absent is not applied. *)
Theorem getCompaniesWithPERatio_exact :
  forall (remote : Remote) (companies : list Company.t) (minPE maxPE : optional Q),
    fst (getAllCompanies remote) = Returned companies ->
    exists keep : Company.t -> bool,
      getCompaniesWithPERatio minPE maxPE remote
      = (Returned (filter keep companies), [GetCompanies]) /\
      forall c, keep c = true <-> pe_within minPE maxPE c.
Proof.
  intros remote companies minPE maxPE Hfetch.
  eexists. split.
  - unfold getCompaniesWithPERatio. rewrite (with_companies _ _ _ _ Hfetch).
    reflexivity.
  - intros c. cbv beta zeta. unfold pe_within, lt_opt, gt_opt.
    destruct (company_pe c) as [| |pe]; cbn [nullish to_number].
    + split; [discriminate | intros (q & H & _); discriminate].
    + split; [discriminate | intros (q & H & _); discriminate].
    + destruct minPE as [| |low], maxPE as [| |high];
        cbn [is_defined to_number andb];
        repeat match goal with
               | |- context [gt ?a ?b] => destruct (gt a b) eqn:?
               end;
        split;
        try discriminate;
        try (intros _; exists pe; repeat split; trivial;
             intros ? [=]; subst;
             repeat match goal with
                    | H : gt _ _ = false |- _ => apply gt_not in H
                    end; assumption);
        try (intros (q & [=] & Hlow & Hhigh); subst q;
             repeat match goal with
                    | H : gt _ _ = true |- _ => apply gt_true in H
                    end;
             try (specialize (Hlow _ eq_refl)); try (specialize (Hhigh _ eq_refl));
             exfalso; lra);
        try reflexivity.
Qed.

Lemma getCompaniesWithPERatio_exact_witness :
  exists keep : Company.t -> bool,
    getCompaniesWithPERatio undefined (val 15%Q) Sample.remote
    = (Returned (filter keep Sample.companies), [GetCompanies]) /\
    forall c, keep c = true <-> pe_within undefined (val 15%Q) c.
Proof.
  exact (getCompaniesWithPERatio_exact Sample.remote Sample.companies
           undefined (val 15%Q) eq_refl).
Defined.

Lemma shareholders_run (A : Type) (k : PositionsData -> M A)
      (remote : Remote) (json : PositionsData) :
  positions_endpoint remote = inr json ->
  bind (fetchAPI GetShareholderPositions positions_endpoint) k remote
  = (fst (k json remote), GetShareholderPositions :: snd (k json remote)).
Proof.
  intros H. unfold bind, fetchAPI. rewrite H. now destruct (k json remote).
Qed.

(** X2. [getCompanyShareholders] asks for the positions and then for the
    companies.  For an id that no company carries it returns the empty
    list; otherwise it returns the positions whose [company_symbol] or
    [ticker] is the symbol of the first company carrying the id. *)
Theorem getCompanyShareholders_by_symbol :
  forall (remote : Remote) (json : PositionsData) (companies : list Company.t)
         (companyId : optional string),
    positions_endpoint remote = inr json ->
    fst (getAllCompanies remote) = Returned companies ->
    ((forall c, In c companies -> Company.id c <> companyId) ->
     getCompanyShareholders companyId remote
     = (Returned [], [GetShareholderPositions; GetCompanies])) /\
    (forall company,
        resolves_to companies companyId company ->
        exists held,
          getCompanyShareholders companyId remote
          = (Returned held, [GetShareholderPositions; GetCompanies]) /\
          forall p,
            In p held <->
            In p (positions_of json) /\
            (Position.company_symbol p = Company.symbol company \/
             Position.ticker p = Company.symbol company)).
Proof.
  intros remote json companies companyId Hjson Hfetch. split.
  - intros Habsent. unfold getCompanyShareholders.
    rewrite (shareholders_run _ _ _ _ Hjson), (with_companies _ _ _ _ Hfetch).
    now rewrite (find_absent _ _ Habsent).
  - intros company Hresolves. eexists. split.
    + unfold getCompanyShareholders.
      rewrite (shareholders_run _ _ _ _ Hjson), (with_companies _ _ _ _ Hfetch).
      rewrite (find_resolves _ _ _ Hresolves). reflexivity.
    + intros p. rewrite filter_In. unfold held_in, positions_of.
      rewrite orb_true_iff, !strict_eq_spec. reflexivity.
Qed.

Lemma getCompanyShareholders_by_symbol_witness :
  getCompanyShareholders (val "99") Sample.remote
  = (Returned [], [GetShareholderPositions; GetCompanies]) /\
  exists held,
    getCompanyShareholders (val "2") Sample.remote
    = (Returned held, [GetShareholderPositions; GetCompanies]) /\
    forall p,
      In p held <->
      In p Sample.shareholders /\
      (Position.company_symbol p = val "BBVA" \/ Position.ticker p = val "BBVA").
Proof.
  destruct (getCompanyShareholders_by_symbol Sample.remote _ Sample.companies
              (val "99") eq_refl eq_refl) as [Habsent _].
  destruct (getCompanyShareholders_by_symbol Sample.remote _ Sample.companies
              (val "2") eq_refl eq_refl) as [_ Hfound].
  split.
  - apply Habsent. intros c Hc. simpl in Hc.
    repeat (destruct Hc as [<-|Hc]; [discriminate|]). contradiction.
  - apply (Hfound Sample.bbva).
    exists [Sample.santander], [Sample.iberdrola; Sample.unlisted].
    repeat split. intros c [<-|[]]. discriminate.
Defined.

Lemma sector_kept_iff (sector : string) (c : Company.t) :
  and_then (Company.sector c)
           (fun s => includes (toLowerCase s) (toLowerCase sector)) = true
  <-> sector_contains c sector.
Proof.
  unfold sector_contains, and_then.
  destruct (Company.sector c) as [| |s] eqn:E.
  - split; [discriminate | intros (s & pre & post & H & _); discriminate].
  - split; [discriminate | intros (s & pre & post & H & _); discriminate].
  - rewrite andb_true_iff, includes_spec. split.
    + intros [Ht (pre & post & H)]. exists s, pre, post.
      repeat split; trivial. intros ->. discriminate.
    + intros (s' & pre & post & H & Hne & Hin). inversion H; subst s'.
      split; [destruct s; [contradiction | reflexivity] | now exists pre, post].
Qed.

(** X3. For a non-negative [limit], [getTopShareholdersBySector] returns
    at most [limit] positions, in non-increasing order of [percentage]
    (zero when absent); each is a position of the answer whose
    [company_symbol] (or else [ticker]) is the symbol of a company whose
    sector contains the query.  It asks for the companies, then for the
    positions. *)
Theorem getTopShareholdersBySector_ranked :
  forall (remote : Remote) (json : PositionsData) (companies : list Company.t)
         (sector : string) (limit : Z),
    (0 <= limit)%Z ->
    positions_endpoint remote = inr json ->
    fst (getAllCompanies remote) = Returned companies ->
    exists top,
      getTopShareholdersBySector sector limit remote
      = (Returned top, [GetCompanies; GetShareholderPositions]) /\
      (Z.of_nat (List.length top) <= limit)%Z /\
      by_share top /\
      forall p, In p top ->
        In p (positions_of json) /\
        exists c, In c companies /\ sector_contains c sector /\
                  position_company p = Company.symbol c.
Proof.
  intros remote json companies sector limit Hlimit Hjson Hfetch.
  eexists. split; [|split; [|split]].
  - unfold getTopShareholdersBySector, getCompaniesBySector.
    unfold bind at 1. rewrite (with_companies _ _ _ _ Hfetch). cbn [fst snd ret].
    rewrite (shareholders_run _ _ _ _ Hjson). cbn [fst snd ret app]. reflexivity.
  - now apply slice0_length.
  - apply slice0_sorted, sort_sorted.
    + intros a b c Hab Hbc.
      now apply Qle_trans with (or_zero (Position.percentage b)).
    + intros a b H. apply gt_true in H. lra.
    + intros a b H. apply gt_not in H. lra.
  - intros p Hp. apply slice0_In, sort_In, filter_In in Hp.
    destruct Hp as [Hin Hsym]. split; [exact Hin|].
    unfold array_includes in Hsym. apply existsb_exists in Hsym.
    destruct Hsym as (symbol & Hsymbol & Heq). apply strict_eq_spec in Heq.
    apply in_map_iff in Hsymbol. destruct Hsymbol as (c & Hc & Hkept).
    apply filter_In in Hkept. destruct Hkept as [Hcin Hkeep].
    exists c. split; [exact Hcin|]. split; [now apply sector_kept_iff | congruence].
Qed.

Lemma getTopShareholdersBySector_ranked_witness :
  exists top,
    getTopShareholdersBySector "bank" 1 Sample.remote
    = (Returned top, [GetCompanies; GetShareholderPositions]) /\
    (Z.of_nat (List.length top) <= 1)%Z /\
    by_share top.
Proof.
  assert (Hlimit : (0 <= 1)%Z) by discriminate.
  destruct (getTopShareholdersBySector_ranked Sample.remote _ Sample.companies
              "bank" 1 Hlimit eq_refl eq_refl)
    as (top & Hrun & Hlen & Hsorted & _).
  now exists top.
Defined.

End QueryFacts.

(** ** Network analysis *)

Module NetworkFacts.

Import DatabaseManager Network Spec Vocabulary JsFacts FacadeFacts QueryFacts.

Lemma flags_of_levels (interlocks : list Interlock.t) (company : Company.t) :
  two_levels (flags_of interlocks company).
Proof.
  unfold two_levels, flags_of.
  destruct (3 <? _); destruct (and_then _ _); simpl;
    repeat (apply Forall_cons || apply Forall_nil);
    unfold interlock_flag, dominance_flag; simpl; auto.
Qed.

Lemma raised_levels (interlocks : list Interlock.t) (companies : list Company.t) :
  two_levels (flat_map (flags_of interlocks) companies).
Proof.
  unfold two_levels. induction companies as [|c cs IH]; simpl; [constructor|].
  apply Forall_app. split; [apply flags_of_levels | exact IH].
Qed.

Lemma insert_interlock_flag (x : RedFlag.t) (flags : list RedFlag.t) :
  interlock_flag x -> two_levels flags -> insert by_severity x flags = x :: flags.
Proof.
  intros [Hx _] Hflags. destruct flags as [|y ys]; [reflexivity|].
  inversion Hflags as [|? ? Hy _]; subst. simpl.
  unfold by_severity, severity_rank. rewrite Hx.
  destruct Hy as [[Hy _]|[Hy _]]; rewrite Hy; reflexivity.
Qed.

Lemma insert_dominance_flag (x : RedFlag.t) (mediums lows : list RedFlag.t) :
  dominance_flag x -> Forall interlock_flag mediums -> Forall dominance_flag lows ->
  insert by_severity x (mediums ++ lows) = mediums ++ x :: lows.
Proof.
  intros [Hx _] Hmediums Hlows. induction Hmediums as [|y ys [Hy _] _ IH]; simpl.
  - destruct lows as [|z zs]; [reflexivity|].
    inversion Hlows as [|? ? [Hz _] _]; subst. simpl.
    unfold by_severity, severity_rank. now rewrite Hx, Hz.
  - unfold by_severity at 1, severity_rank. rewrite Hx, Hy. cbn. now rewrite IH.
Qed.

(** Sorted by severity, the flags are the interlock flags followed by the
    dominance flags, each group in the order it was raised. *)
Lemma sort_by_severity (flags : list RedFlag.t) :
  two_levels flags ->
  exists mediums lows,
    sort by_severity flags = mediums ++ lows /\
    Forall interlock_flag mediums /\ Forall dominance_flag lows /\
    List.length lows
    = List.length (filter (fun f => String.eqb (RedFlag.severity f) "low") flags).
Proof.
  induction 1 as [|x flags Hx Hflags (mediums & lows & Hsort & Hm & Hl & Hcount)].
  - exists [], []. repeat split; constructor.
  - cbn [sort filter]. rewrite Hsort. destruct Hx as [Hx|Hx].
    + exists (x :: mediums), lows. repeat split; trivial.
      * apply insert_interlock_flag; [exact Hx|].
        apply Forall_app. split.
        -- eapply Forall_impl; [|exact Hm]. now left.
        -- eapply Forall_impl; [|exact Hl]. now right.
      * now constructor.
      * destruct Hx as [Hx _]. now rewrite Hx.
    + exists mediums, (x :: lows). repeat split; trivial.
      * now apply insert_dominance_flag.
      * now constructor.
      * destruct Hx as [Hx' _]. rewrite Hx'. cbn. now rewrite Hcount.
Qed.

Lemma dominance_flags_counted (interlocks : list Interlock.t) (companies : list Company.t) :
  List.length
    (filter (fun f => String.eqb (RedFlag.severity f) "low")
            (flat_map (flags_of interlocks) companies))
  = List.length (filter dominant companies).
Proof.
  induction companies as [|c cs IH]; simpl; [reflexivity|].
  rewrite filter_app, length_app, IH. unfold flags_of, dominant.
  destruct (3 <? _); destruct (and_then _ _); reflexivity.
Qed.

Lemma no_high_flag (flags : list RedFlag.t) :
  Forall (fun f => interlock_flag f \/ dominance_flag f) flags ->
  filter (fun f => String.eqb (RedFlag.severity f) "high") flags = [].
Proof.
  induction 1 as [|x flags Hx _ IH]; simpl; [reflexivity|].
  destruct Hx as [[Hx _]|[Hx _]]; rewrite Hx; exact IH.
Qed.

(** X4. [getGovernanceRiskFactors] never raises a flag of high severity, so
    its [high_risk_companies] is always 0.  Its flags are the
    [high_director_interlocks] flags (medium) followed by the
    [market_dominance] flags (low); there is one of the latter for each
    company whose market cap is above fifty billion, and [total_red_flags]
    counts them all. *)
Theorem governance_flags_never_high :
  forall (companies : list Company.t) (interlocks : list Interlock.t) (remote : Remote),
    exists risks,
      getGovernanceRiskFactors companies interlocks remote = (Returned risks, []) /\
      GovernanceRisks.high_risk_companies risks = 0 /\
      GovernanceRisks.total_red_flags risks
      = List.length (GovernanceRisks.governance_red_flags risks) /\
      exists mediums lows,
        GovernanceRisks.governance_red_flags risks = mediums ++ lows /\
        Forall interlock_flag mediums /\
        Forall dominance_flag lows /\
        List.length lows = List.length (filter dominant companies).
Proof.
  intros companies interlocks remote. eexists. split; [reflexivity|].
  cbn [GovernanceRisks.high_risk_companies GovernanceRisks.total_red_flags
       GovernanceRisks.governance_red_flags].
  destruct (sort_by_severity _ (raised_levels interlocks companies))
    as (mediums & lows & Hsort & Hm & Hl & Hcount).
  split; [|split; [reflexivity|]].
  - rewrite no_high_flag; [reflexivity|]. rewrite Hsort. apply Forall_app. split.
    + eapply Forall_impl; [|exact Hm]. now left.
    + eapply Forall_impl; [|exact Hl]. now right.
  - exists mediums, lows. repeat split; trivial.
    rewrite Hcount. apply dominance_flags_counted.
Qed.

(** In a list in non-increasing order, the elements above a threshold form
    a prefix. *)
Lemma above_threshold_prefix (A : Type) (key : A -> nat) (threshold : nat) (xs : list A) :
  StronglySorted (fun a b => key b <= key a) xs ->
  filter (fun x => threshold <? key x) xs
  = firstn (List.length (filter (fun x => threshold <? key x) xs)) xs.
Proof.
  induction 1 as [|x xs _ IH Hx]; [reflexivity|]. cbn [filter].
  destruct (threshold <? key x) eqn:E.
  - cbn [List.length firstn]. f_equal. exact IH.
  - assert (Hnone : filter (fun y => threshold <? key y) xs = []).
    { apply Nat.ltb_ge in E. clear IH. induction xs as [|y ys IHys]; [reflexivity|].
      inversion Hx as [|? ? Hy Hys]; subst. cbn [filter].
      assert (Ey : (threshold <? key y) = false) by (apply Nat.ltb_ge; lia).
      rewrite Ey. now apply IHys. }
    rewrite Hnone. reflexivity.
Qed.

Lemma sorted_split (A : Type) (R : A -> A -> Prop) (xs ys : list A) :
  StronglySorted R (xs ++ ys) ->
  forall a b, In a xs -> In b ys -> R a b.
Proof.
  induction xs as [|x xs IH]; intros H a b Ha Hb; [contradiction|].
  simpl in H. inversion H as [|? ? Hs Hall]; subst.
  destruct Ha as [<-|Ha].
  - rewrite Forall_forall in Hall. apply Hall, in_or_app. now right.
  - now apply IH.
Qed.

Lemma overlaps_by_holdings (shareholders : list Position.t) :
  by_holdings (overlaps_in shareholders).
Proof.
  unfold by_holdings, overlaps_in. apply sort_sorted.
  - intros a b c Hab Hbc. lia.
  - intros a b H. unfold by_company_count in H. apply Z.ltb_lt in H. lia.
  - intros a b H. unfold by_company_count in H. apply Z.ltb_ge in H. lia.
Qed.

Lemma interlocks_by_count (companies : list Company.t) :
  descending (interlocks_in companies).
Proof.
  unfold descending, interlocks_in. apply sort_sorted.
  - intros a b c Hab Hbc. lia.
  - intros a b H. unfold by_board_count in H. apply Z.ltb_lt in H. lia.
  - intros a b H. unfold by_board_count in H. apply Z.ltb_ge in H. lia.
Qed.

Lemma getComplexNetworkAnalysis_run (remote : Remote) (json : PositionsData)
      (companies : list Company.t) :
  positions_endpoint remote = inr json ->
  fst (getAllCompanies remote) = Returned companies ->
  getComplexNetworkAnalysis remote
  = (Returned
       {| NetworkAnalysis.director_network :=
            calculateDirectorNetworkMetrics (interlocks_in companies);
          NetworkAnalysis.shareholder_network :=
            calculateShareholderNetworkMetrics (overlaps_in (positions_of json));
          NetworkAnalysis.cross_ownership_analysis := overlaps_in (positions_of json);
          NetworkAnalysis.governance_risk_factors :=
            match fst (getGovernanceRiskFactors companies (interlocks_in companies) remote) with
            | Returned risks => risks
            | Thrown _ => GovernanceRisks.mk [] 0 0
            end |},
     [GetCompanies; GetCompanies; GetShareholderPositions]).
Proof.
  intros Hjson Hfetch.
  assert (Hall : getAllCompanies remote = (Returned companies, [GetCompanies])).
  { pose proof (getAllCompanies_run remote) as R.
    destruct (getAllCompanies remote) as [outcome issued]. simpl in Hfetch.
    subst outcome. now inversion R. }
  unfold getComplexNetworkAnalysis, getBoardInterlocks, getShareholderOverlap,
    getGovernanceRiskFactors, bind, fetchAPI, ret, positions_of.
  rewrite Hall, Hjson. reflexivity.
Qed.

(** X5. In the result of [getComplexNetworkAnalysis] the cross-sector
    investors are the overlap records with more than two companies, and
    because the overlaps come sorted they are a prefix of the cross-ownership
    list.  The analysis costs three requests. *)
Theorem cross_sector_investors_lead :
  forall (remote : Remote) (json : PositionsData) (companies : list Company.t),
    positions_endpoint remote = inr json ->
    fst (getAllCompanies remote) = Returned companies ->
    exists analysis,
      getComplexNetworkAnalysis remote
      = (Returned analysis, [GetCompanies; GetCompanies; GetShareholderPositions]) /\
      let overlaps := NetworkAnalysis.cross_ownership_analysis analysis in
      let investors :=
        ShareholderMetrics.cross_sector_investors
          (NetworkAnalysis.shareholder_network analysis) in
      overlaps = overlaps_in (positions_of json) /\
      ShareholderMetrics.multi_company_shareholders
        (NetworkAnalysis.shareholder_network analysis) = overlaps /\
      investors = firstn (List.length investors) overlaps /\
      forall o, In o investors <-> In o overlaps /\ 2 < Overlap.company_count o.
Proof.
  intros remote json companies Hjson Hfetch. eexists.
  split; [exact (getComplexNetworkAnalysis_run _ _ _ Hjson Hfetch)|].
  cbn [NetworkAnalysis.cross_ownership_analysis NetworkAnalysis.shareholder_network
       calculateShareholderNetworkMetrics ShareholderMetrics.cross_sector_investors
       ShareholderMetrics.multi_company_shareholders].
  split; [reflexivity|]. split; [reflexivity|]. split.
  - apply (above_threshold_prefix _ Overlap.company_count 2).
    apply overlaps_by_holdings.
  - intros o. rewrite filter_In, Nat.ltb_lt. reflexivity.
Qed.

Lemma cross_sector_investors_lead_witness :
  exists analysis,
    getComplexNetworkAnalysis Sample.remote
    = (Returned analysis, [GetCompanies; GetCompanies; GetShareholderPositions]) /\
    NetworkAnalysis.cross_ownership_analysis analysis
    = overlaps_in Sample.shareholders.
Proof.
  destruct (cross_sector_investors_lead Sample.remote _ Sample.companies
              eq_refl eq_refl) as (analysis & Hrun & Hoverlaps & _).
  now exists analysis.
Defined.

(** X6. The director network of [getComplexNetworkAnalysis] is read off
    the board interlocks: it counts them all, lists the first ten and, of
    those, the first five; no interlock left out of the ten sits on more
    boards than one that is listed; and the density is the count over 35,
    which exceeds 1 as soon as there are more than 35 interlocks. *)
Theorem director_network_lists_the_top :
  forall (remote : Remote) (json : PositionsData) (companies : list Company.t),
    positions_endpoint remote = inr json ->
    fst (getAllCompanies remote) = Returned companies ->
    exists analysis,
      fst (getComplexNetworkAnalysis remote) = Returned analysis /\
      let interlocks := interlocks_in companies in
      let network := NetworkAnalysis.director_network analysis in
      DirectorMetrics.total_interlocks network = List.length interlocks /\
      DirectorMetrics.interlocked_directors network = firstn 10 interlocks /\
      DirectorMetrics.most_connected_directors network = firstn 5 interlocks /\
      (forall listed omitted,
          In listed (DirectorMetrics.interlocked_directors network) ->
          In omitted (skipn 10 interlocks) ->
          Interlock.board_count omitted <= Interlock.board_count listed) /\
      (DirectorMetrics.network_density network
       == number_of_nat (List.length interlocks) / 35)%Q /\
      (35 < List.length interlocks ->
       (1 < DirectorMetrics.network_density network)%Q).
Proof.
  intros remote json companies Hjson Hfetch. eexists.
  split; [now rewrite (getComplexNetworkAnalysis_run _ _ _ Hjson Hfetch)|].
  cbn [NetworkAnalysis.director_network calculateDirectorNetworkMetrics
       DirectorMetrics.total_interlocks DirectorMetrics.interlocked_directors
       DirectorMetrics.most_connected_directors DirectorMetrics.network_density].
  change (slice0 10 (interlocks_in companies)) with (firstn 10 (interlocks_in companies)).
  change (slice0 5 (firstn 10 (interlocks_in companies)))
    with (firstn 5 (firstn 10 (interlocks_in companies))).
  set (interlocks := interlocks_in companies).
  assert (Hdensity :
            ((if 0 <? List.length interlocks
              then number_of_nat (List.length interlocks) / 35 else 0)
             == number_of_nat (List.length interlocks) / 35)%Q).
  { destruct (List.length interlocks); [reflexivity|]. reflexivity. }
  split; [reflexivity|]. split; [reflexivity|]. split; [|split; [|split]].
  - rewrite firstn_firstn. reflexivity.
  - intros listed omitted Hlisted Homitted.
    apply (sorted_split _ (fun a b => Interlock.board_count b <= Interlock.board_count a)
             (firstn 10 interlocks) (skipn 10 interlocks)); trivial.
    rewrite firstn_skipn. apply interlocks_by_count.
  - exact Hdensity.
  - intros Hmany. rewrite Hdensity. unfold number_of_nat.
    apply Qlt_shift_div_l; [reflexivity|].
    change (1 * 35)%Q with (inject_Z 35). rewrite <- Zlt_Qlt. lia.
Qed.

Lemma director_network_lists_the_top_witness :
  exists analysis,
    fst (getComplexNetworkAnalysis Sample.remote) = Returned analysis /\
    DirectorMetrics.total_interlocks (NetworkAnalysis.director_network analysis)
    = List.length (interlocks_in Sample.companies).
Proof.
  destruct (director_network_lists_the_top Sample.remote _ Sample.companies
              eq_refl eq_refl) as (analysis & Hrun & Htotal & _).
  now exists analysis.
Defined.

End NetworkFacts.

(** ** Sector performance *)

Module SectorFacts.

Import DatabaseManager AnalyticsManager Spec Vocabulary JsFacts FacadeFacts GroupingFacts
       ConcentrationFacts.
Local Open Scope Q_scope.

Lemma eqb_spec (a b : string) : String.eqb a b = true <-> a = b.
Proof. apply String.eqb_eq. Qed.

Lemma sectorMap_collect (companies : list Company.t) :
  sectorMap companies
  = fold_left (step _ _ String.eqb (fun c => negb (has_sector c)) sector_key) companies [].
Proof.
  unfold sectorMap. generalize (@nil (string * list Company.t)).
  induction companies as [|c cs IH]; intros m; [reflexivity|].
  cbn [fold_left]. rewrite IH. f_equal.
  unfold step, has_sector, sector_key.
  destruct (Company.sector c) as [| |s]; reflexivity.
Qed.

Lemma filed_under_sector (sector : string) (companies : list Company.t) :
  filter (filed_under _ _ String.eqb (fun c => negb (has_sector c)) sector_key sector)
         companies
  = filter (in_sector sector) companies.
Proof.
  apply filter_ext. intros c. unfold filed_under, has_sector, in_sector, sector_key.
  rewrite negb_involutive. destruct (Company.sector c) as [| |s]; reflexivity.
Qed.

Lemma lookup_In (A : Type) (k : string) (vs : list A) (m : list (string * list A)) :
  lookup _ _ String.eqb k m = Some vs -> In (k, vs) m.
Proof.
  induction m as [|[k' vs'] m IH]; simpl; [discriminate|].
  destruct (String.eqb k k') eqn:E.
  - apply String.eqb_eq in E. subst k'. intros H. inversion H. now left.
  - intros H. right. now apply IH.
Qed.

(** The entries of the sector map: one per sector that some company
    names, holding the companies of that sector in their order. *)
Lemma sectorMap_entries (companies : list Company.t) (sector : string)
      (members : list Company.t) :
  In (sector, members) (sectorMap companies) <->
  members = filter (in_sector sector) companies /\ members <> [].
Proof.
  rewrite sectorMap_collect. split.
  - intros H. apply (collect_entry _ _ String.eqb eqb_spec) in H.
    now rewrite filed_under_sector in H.
  - intros [-> Hne]. apply lookup_In.
    rewrite (lookup_collect _ _ String.eqb eqb_spec), filed_under_sector.
    destruct (filter (in_sector sector) companies); [contradiction|reflexivity].
Qed.

Lemma sectorMap_NoDup (companies : list Company.t) :
  NoDup (map fst (sectorMap companies)).
Proof.
  rewrite sectorMap_collect. apply (NoDup_collect _ _ String.eqb eqb_spec). constructor.
Qed.

Lemma or_zero_falsy (o : optional Q) : truthy o = false -> or_zero o = 0.
Proof.
  destruct o as [| |q]; try reflexivity. unfold or_zero. cbn. now intros ->.
Qed.

(** The loop over the companies of one sector. *)
Lemma sector_entry_fields (sector : string) (members : list Company.t) :
  let entry := sector_entry (sector, members) in
  SectorPerformance.sector entry = sector /\
  SectorPerformance.company_count entry = List.length members /\
  SectorPerformance.total_market_cap entry == sum (map cap_of members) /\
  SectorPerformance.avg_market_cap entry
  == (if (0 <? with_cap members)%nat
      then sum (map cap_of members) / inject_Z (Z.of_nat (with_cap members))
      else 0) /\
  match SectorPerformance.avg_pe_ratio entry with
  | val average =>
      (0 < with_pe members)%nat /\
      average == sum (map pe_of members) / inject_Z (Z.of_nat (with_pe members))
  | null => with_pe members = 0%nat
  | undefined => False
  end /\
  SectorPerformance.companies entry
  = map (fun c => (Company.symbol c, Company.name c, Company.market_cap c))
        (firstn 5 members).
Proof.
  unfold sector_entry.
  match goal with
  | |- context [fold_left ?F members ?init] =>
      assert (Hloop : forall (cs : list Company.t) (start : running),
                 let '(t0, n0, a0, k0) := start in
                 let '(t, n, a, k) := fold_left F cs start in
                 t == t0 + sum (map cap_of cs) /\
                 n = (n0 + with_cap cs)%nat /\
                 a == a0 + sum (map pe_of cs) /\
                 k = (k0 + with_pe cs)%nat)
  end.
  { induction cs as [|c cs IH]; intros [[[t0 n0] a0] k0].
    - cbn. repeat split; try ring; lia.
    - cbn [fold_left map sum]. unfold with_cap, with_pe, cap_of, pe_of in *.
      cbn [filter].
      destruct (truthy (Company.market_cap c)) eqn:Ecap;
        destruct (truthy (company_pe c)) eqn:Epe;
        match goal with
        | |- context [fold_left _ cs ?start] => specialize (IH start)
        end;
        cbv beta iota in IH;
        destruct (fold_left _ cs _) as [[[t n] a] k];
        destruct IH as (Ht & Hn & Ha & Hk).
      all: cbn [List.length]; repeat split; try lia.
      all: try apply or_zero_falsy in Ecap; try apply or_zero_falsy in Epe.
      all: try (rewrite Ht; ring); try (rewrite Ha; ring).
      all: try (rewrite Ht, Ecap; ring); try (rewrite Ha, Epe; ring). }
  specialize (Hloop members (0, 0%nat, 0, 0%nat)). cbv beta iota in Hloop.
  destruct (fold_left _ members _) as [[[t n] a] k].
  destruct Hloop as (Ht & Hn & Ha & Hk). cbn in Hn, Hk. subst n k.
  cbn [SectorPerformance.sector SectorPerformance.company_count
       SectorPerformance.total_market_cap SectorPerformance.avg_market_cap
       SectorPerformance.avg_pe_ratio SectorPerformance.companies].
  split; [reflexivity|]. split; [reflexivity|].
  split; [rewrite Ht; ring|]. split; [|split].
  - destruct (0 <? with_cap members)%nat; [|reflexivity]. rewrite Ht.
    now rewrite Qplus_0_l.
  - destruct (0 <? with_pe members)%nat eqn:E.
    + apply Nat.ltb_lt in E. split; [exact E|]. rewrite Ha. now rewrite Qplus_0_l.
    + apply Nat.ltb_ge in E. lia.
  - reflexivity.
Qed.

Lemma sector_performance_In (companies : list Company.t) (entry : SectorPerformance.t) :
  In entry (sector_performance_of companies) <->
  exists sector,
    filter (in_sector sector) companies <> [] /\
    entry = sector_entry (sector, filter (in_sector sector) companies).
Proof.
  unfold sector_performance_of. rewrite sort_In, in_map_iff. split.
  - intros ([sector members] & <- & Hin). apply sectorMap_entries in Hin.
    destruct Hin as [-> Hne]. now exists sector.
  - intros (sector & Hne & ->). eexists. split; [reflexivity|].
    now apply sectorMap_entries.
Qed.

Lemma sector_performance_by_cap (companies : list Company.t) :
  by_cap (sector_performance_of companies).
Proof.
  unfold by_cap, sector_performance_of. apply sort_sorted.
  - intros a b c Hab Hbc. lra.
  - intros a b H. unfold by_total_market_cap in H. apply gt_spec in H. lra.
  - intros a b H. unfold by_total_market_cap in H. apply gt_false in H. lra.
Qed.

Lemma sector_names_distinct (companies : list Company.t) :
  NoDup (map SectorPerformance.sector (sector_performance_of companies)).
Proof.
  unfold sector_performance_of.
  apply (Permutation_NoDup
           (l := map SectorPerformance.sector (map sector_entry (sectorMap companies)))).
  - apply Permutation_map, sort_perm.
  - rewrite map_map.
    rewrite (map_ext _ fst); [apply sectorMap_NoDup|].
    intros [sector members]. apply (sector_entry_fields sector members).
Qed.

Lemma in_sector_named (sector : string) (company : Company.t) :
  in_sector sector company = true <->
  Company.sector company = val sector /\ sector <> EmptyString.
Proof.
  unfold in_sector. destruct (Company.sector company) as [| |s].
  - split; [discriminate | intros [H _]; discriminate].
  - split; [discriminate | intros [H _]; discriminate].
  - rewrite andb_true_iff, String.eqb_eq. split.
    + intros [Ht ->]. split; [reflexivity|]. intros ->. discriminate.
    + intros [H Hne]. inversion H; subst. split; [|reflexivity].
      destruct sector; [contradiction | reflexivity].
Qed.

Lemma getSectorCorrelationAnalysis_run (remote : Remote) (days : Z)
      (companies : list Company.t) :
  fst (getAllCompanies remote) = Returned companies ->
  getSectorCorrelationAnalysis days remote
  = (Returned
       {| Correlation.period_days := days;
          Correlation.sector_performance := sector_performance_of companies;
          Correlation.total_sectors := List.length (sector_performance_of companies);
          Correlation.largest_sector :=
            match sector_performance_of companies with
            | first :: _ => or_else (SectorPerformance.sector first) "Unknown"%string
            | [] => "Unknown"%string
            end;
          Correlation.market_concentration :=
            calculateMarketConcentration (sector_performance_of companies) |},
     [GetCompanies]).
Proof.
  intros Hfetch. unfold getSectorCorrelationAnalysis.
  rewrite (with_companies _ _ _ _ Hfetch). reflexivity.
Qed.

(** X7. [getSectorCorrelationAnalysis] costs one request and reports one
    row per sector that some company names, each sector once, in
    non-increasing order of total market cap.  A row counts the companies of
    its sector, totals their market caps (a missing or zero cap adds
    nothing), averages the total over the companies that have a cap, has the
    mean P/E ([null] when no company of the sector has one), and lists the
    first five of its companies.  Companies without a sector, or with an
    empty one, are in no row. *)
Theorem sector_rows_group_the_companies :
  forall (remote : Remote) (days : Z) (companies : list Company.t),
    fst (getAllCompanies remote) = Returned companies ->
    exists analysis,
      getSectorCorrelationAnalysis days remote = (Returned analysis, [GetCompanies]) /\
      let rows := Correlation.sector_performance analysis in
      Correlation.period_days analysis = days /\
      Correlation.total_sectors analysis = List.length rows /\
      NoDup (map SectorPerformance.sector rows) /\
      by_cap rows /\
      (forall company sector,
          In company companies ->
          Company.sector company = val sector -> sector <> EmptyString ->
          In sector (map SectorPerformance.sector rows)) /\
      (forall row,
          In row rows ->
          let members := filter (in_sector (SectorPerformance.sector row)) companies in
          members <> [] /\
          SectorPerformance.company_count row = List.length members /\
          SectorPerformance.total_market_cap row == sum (map cap_of members) /\
          SectorPerformance.avg_market_cap row
          == (if (0 <? with_cap members)%nat
              then sum (map cap_of members) / inject_Z (Z.of_nat (with_cap members))
              else 0) /\
          match SectorPerformance.avg_pe_ratio row with
          | val average =>
              (0 < with_pe members)%nat /\
              average == sum (map pe_of members) / inject_Z (Z.of_nat (with_pe members))
          | null => with_pe members = 0%nat
          | undefined => False
          end /\
          SectorPerformance.companies row
          = map (fun c => (Company.symbol c, Company.name c, Company.market_cap c))
                (firstn 5 members)).
Proof.
  intros remote days companies Hfetch. eexists.
  split; [exact (getSectorCorrelationAnalysis_run _ _ _ Hfetch)|].
  cbn [Correlation.sector_performance Correlation.period_days Correlation.total_sectors].
  split; [reflexivity|]. split; [reflexivity|].
  split; [apply sector_names_distinct|]. split; [apply sector_performance_by_cap|].
  split.
  - intros company sector Hin Hsector Hne. apply in_map_iff.
    exists (sector_entry (sector, filter (in_sector sector) companies)).
    split; [apply (sector_entry_fields sector _)|].
    apply sector_performance_In. exists sector. split; [|reflexivity].
    intros Hnone.
    assert (Hmember : In company (filter (in_sector sector) companies)).
    { apply filter_In. split; [exact Hin|]. now apply in_sector_named. }
    rewrite Hnone in Hmember. contradiction.
  - intros row Hrow. apply sector_performance_In in Hrow.
    destruct Hrow as (sector & Hne & ->).
    pose proof (sector_entry_fields sector (filter (in_sector sector) companies)) as H.
    cbv zeta in H. destruct H as (Hsector & H). rewrite Hsector.
    split; [exact Hne | exact H].
Qed.

Lemma sector_rows_group_the_companies_witness :
  exists analysis,
    getSectorCorrelationAnalysis 30 Sample.remote = (Returned analysis, [GetCompanies]) /\
    map SectorPerformance.sector (Correlation.sector_performance analysis)
    = ["Energy"; "Banking"; "Retail banking"]%string.
Proof.
  destruct (sector_rows_group_the_companies Sample.remote 30 Sample.companies eq_refl)
    as (analysis & Hrun & _).
  exists analysis. split; [exact Hrun|].
  inversion Hrun. reflexivity.
Defined.












End SectorFacts.

(** ** Sectors of equal size *)

Module ShareFacts.

Import AnalyticsManager Spec Vocabulary JsFacts ConcentrationFacts.
Local Open Scope Q_scope.




End ShareFacts.

(** ** Screening for opportunities *)

Module ScreenFacts.

Import DatabaseManager AnalyticsManager Spec Vocabulary JsFacts FacadeFacts QueryFacts.
Local Open Scope Q_scope.





Lemma raw_score_bounds (company : Company.t) :
  42 # 10 <= raw_score company /\ raw_score company <= 68 # 10.
Proof.
  unfold raw_score, base_score.
  destruct (and_then (company_pe company) (fun pe => lt pe 15));
    destruct (and_then (company_pe company) (fun pe => gt pe 25));
    destruct (gt_opt (Company.market_cap company) (val 10000000000));
    destruct (lt_opt (Company.market_cap company) (val 1000000000));
    destruct (and_then (Company.sector company) _);
    split; vm_compute; discriminate.
Qed.

Lemma score_is_raw (company : Company.t) :
  Opportunity.score (score_company company) == raw_score company.
Proof.
  destruct (raw_score_bounds company) as [Hlow Hhigh].
  cbn [score_company Opportunity.score].
  rewrite (Q.min_r 10 (raw_score company)) by lra.
  apply Q.max_r. lra.
Qed.

Lemma ranked_by_score (opportunities : list Opportunity.t) :
  by_scores (sort by_score opportunities).
Proof.
  unfold by_scores. apply sort_sorted.
  - intros a b c Hab Hbc. lra.
  - intros a b H. unfold by_score in H. apply gt_true in H. lra.
  - intros a b H. unfold by_score in H. apply gt_not in H. lra.
Qed.

(** X11. [scoreOpportunities] issues no request and ignores the criteria.
    It returns one entry per company, in non-increasing order of score; a
    score is 5 plus the adjustments, which keep it between 4.2 and 6.8, so
    the clamp to the range from 0 to 10 never takes effect. *)
Theorem scores_between_adjustments :
  forall (companies : list Company.t) (criteria : Criteria.t) (remote : Remote),
    exists scored,
      scoreOpportunities companies criteria remote = (Returned scored, []) /\
      Permutation (map Opportunity.company scored) companies /\
      by_scores scored /\
      forall opportunity,
        In opportunity scored ->
        Opportunity.score opportunity == raw_score (Opportunity.company opportunity) /\
        42 # 10 <= Opportunity.score opportunity /\
        Opportunity.score opportunity <= 68 # 10.
Proof.
  intros companies criteria remote. eexists. split; [reflexivity|].
  split; [|split].
  - rewrite <- (Permutation_map Opportunity.company
                  (sort_perm _ by_score (map score_company companies))).
    rewrite map_map. cbn [score_company Opportunity.company]. now rewrite map_id.
  - apply ranked_by_score.
  - intros opportunity Hin. apply sort_In, in_map_iff in Hin.
    destruct Hin as (company & <- & _).
    pose proof (score_is_raw company) as Hraw.
    pose proof (raw_score_bounds company) as [Hlow Hhigh].
    cbn [score_company Opportunity.company] in *. lra.
Qed.

Lemma scores_between_adjustments_witness :
  exists scored,
    scoreOpportunities Sample.companies Sample.any_criteria Sample.remote
    = (Returned scored, []) /\
    Forall (fun o => 42 # 10 <= Opportunity.score o /\ Opportunity.score o <= 68 # 10)
           scored.
Proof.
  destruct (scores_between_adjustments Sample.companies Sample.any_criteria Sample.remote)
    as (scored & Hrun & _ & _ & Hall).
  exists scored. split; [exact Hrun|].
  apply Forall_forall. intros o Ho. now apply Hall.
Defined.





End ScreenFacts.

(** ** When the service does not answer *)

Module FailureFacts.

Import DatabaseManager AnalyticsManager Queries Network Spec Vocabulary FacadeFacts.

Lemma getAllCompanies_fails (remote : Remote) (cause : string) :
  companies_endpoint remote = inl cause ->
  getAllCompanies remote = (Thrown ("API request failed: " ++ cause)%string, [GetCompanies]).
Proof. intros H. now rewrite getAllCompanies_run, H. Qed.

Lemma without_companies (A : Type) (k : list Company.t -> M A)
      (remote : Remote) (cause : string) :
  companies_endpoint remote = inl cause ->
  bind getAllCompanies k remote
  = (Thrown ("API request failed: " ++ cause)%string, [GetCompanies]).
Proof.
  intros H. unfold bind at 1. now rewrite (getAllCompanies_fails _ _ H).
Qed.

(** X13. When the request for the companies fails, every analysis stops
    after that one request: [getSectorCorrelationAnalysis],
    [getComplexNetworkAnalysis], [getCompaniesWithPERatio] and
    [getTopShareholdersBySector] throw the fetch error as it is, and
    [screenOpportunities] throws it wrapped in its own message.  When only
    the positions fail, [getComplexNetworkAnalysis] throws after its third
    request and [getCompanyShareholders] after its first. *)
Theorem fetch_failures_surface :
  forall (remote : Remote) (cause : string),
    (companies_endpoint remote = inl cause ->
     let failure := ("API request failed: " ++ cause)%string in
     (forall days,
         getSectorCorrelationAnalysis days remote = (Thrown failure, [GetCompanies])) /\
     getComplexNetworkAnalysis remote = (Thrown failure, [GetCompanies]) /\
     (forall minPE maxPE,
         getCompaniesWithPERatio minPE maxPE remote = (Thrown failure, [GetCompanies])) /\
     (forall sector limit,
         getTopShareholdersBySector sector limit remote
         = (Thrown failure, [GetCompanies])) /\
     (forall criteria limit,
         screenOpportunities criteria limit remote
         = (Thrown ("Opportunity screening failed: Error: " ++ failure)%string,
            [GetCompanies]))) /\
    (positions_endpoint remote = inl cause ->
     let failure := ("API request failed: " ++ cause)%string in
     (forall companyId,
         getCompanyShareholders companyId remote
         = (Thrown failure, [GetShareholderPositions])) /\
     (forall companies,
         fst (getAllCompanies remote) = Returned companies ->
         getComplexNetworkAnalysis remote
         = (Thrown failure, [GetCompanies; GetCompanies; GetShareholderPositions]))).
Proof.
  intros remote cause. split.
  - intros Hfail. cbv zeta. repeat split; intros.
    + apply (without_companies _ _ _ _ Hfail).
    + apply (without_companies _ _ _ _ Hfail).
    + apply (without_companies _ _ _ _ Hfail).
    + unfold getTopShareholdersBySector, getCompaniesBySector. unfold bind at 1.
      now rewrite (without_companies _ _ _ _ Hfail).
    + unfold screenOpportunities, try_catch.
      rewrite (without_companies _ _ _ _ Hfail). reflexivity.
  - intros Hfail. cbv zeta. split.
    + intros companyId. unfold getCompanyShareholders, bind, fetchAPI.
      now rewrite Hfail.
    + intros companies Hfetch.
      assert (Hall : getAllCompanies remote = (Returned companies, [GetCompanies])).
      { pose proof (getAllCompanies_run remote) as R.
        destruct (getAllCompanies remote) as [outcome issued]. simpl in Hfetch.
        subst outcome. now inversion R. }
      unfold getComplexNetworkAnalysis, getBoardInterlocks, getShareholderOverlap,
        bind, fetchAPI, ret.
      rewrite Hall, Hfail. reflexivity.
Qed.

Lemma fetch_failures_surface_witness :
  let down :=
    {| companies_endpoint := inl "503"%string;
       positions_endpoint := inl "503"%string;
       prices_endpoint := Sample.prices |} in
  getComplexNetworkAnalysis down
  = (Thrown "API request failed: 503"%string, [GetCompanies]) /\
  getCompanyShareholders (val "1"%string) down
  = (Thrown "API request failed: 503"%string, [GetShareholderPositions]).
Proof.
  cbv zeta.
  destruct (fetch_failures_surface
              {| companies_endpoint := inl "503"%string;
                 positions_endpoint := inl "503"%string;
                 prices_endpoint := Sample.prices |} "503"%string)
    as [Hcompanies Hpositions].
  destruct (Hcompanies eq_refl) as (_ & Hnetwork & _).
  destruct (Hpositions eq_refl) as (Hholders & _).
  split; [exact Hnetwork | apply Hholders].
Defined.

End FailureFacts.

(** ** Percentiles, concentration ratio, market direction, price trend *)

Module MetricsFacts.

Import DatabaseManager AnalyticsManager Network Metrics Spec Vocabulary JsFacts QueryFacts.
Local Open Scope Q_scope.


Lemma lt_not (a b : Q) : lt a b = false <-> b <= a.
Proof. unfold lt. apply gt_not. Qed.

Lemma ascending_sorted (xs : list Q) : StronglySorted Qle (sort ascending xs).
Proof.
  apply sort_sorted.
  - intros a b c Hab Hbc. lra.
  - intros a b H. unfold ascending in H. apply gt_true in H. lra.
  - intros a b H. unfold ascending in H. apply gt_not in H. lra.
Qed.

Lemma filter_length_perm (A : Type) (p : A -> bool) (xs ys : list A) :
  Permutation xs ys -> List.length (filter p xs) = List.length (filter p ys).
Proof.
  induction 1 as [|x xs ys _ IH|x y xs|xs ys zs _ IH1 _ IH2]; simpl.
  - reflexivity.
  - destruct (p x); simpl; now rewrite IH.
  - destruct (p x), (p y); reflexivity.
  - now rewrite IH1.
Qed.

(** In an ascending list the first element not below [x] sits at the
    number of elements below [x]. *)
Lemma findIndex_ascending (x : Q) (xs : list Q) :
  StronglySorted Qle xs ->
  match findIndex (fun v => negb (lt v x)) xs with
  | Some index =>
      index = List.length (below x xs) /\ (index < List.length xs)%nat
  | None => List.length (below x xs) = List.length xs
  end.
Proof.
  unfold below. induction 1 as [|v xs _ IH Hv]; simpl; [reflexivity|].
  destruct (lt v x) eqn:E; simpl.
  - destruct (findIndex _ xs) as [index|].
    + destruct IH as [-> Hlt]. split; [reflexivity | lia].
    + now rewrite IH.
  - apply lt_not in E. split; [|lia].
    assert (Hnone : filter (fun w => lt w x) xs = []).
    { clear IH. induction xs as [|w ws IHws]; [reflexivity|].
      inversion Hv as [|? ? Hw Hws]; subst. simpl.
      assert (Ew : lt w x = false) by (apply lt_not; lra).
      rewrite Ew. now apply IHws. }
    now rewrite Hnone.
Qed.

Lemma filter_length_le (A : Type) (p : A -> bool) (xs : list A) :
  (List.length (filter p xs) <= List.length xs)%nat.
Proof.
  induction xs as [|x xs IH]; simpl; [lia|]. destruct (p x); simpl; lia.
Qed.

Lemma percentile_formula (value : Q) (dataset : list (optional Q)) :
  ~ value == 0 -> dataset <> [] ->
  calculatePercentile (val value) dataset
  = (if (List.length (below value (present dataset)) =? List.length (present dataset))%nat
     then 100
     else number_of_nat (List.length (below value (present dataset)))
          / number_of_nat (List.length (present dataset)) * 100).
Proof.
  intros Hvalue Hdata. set (known := present dataset).
  unfold calculatePercentile.
  assert (Etruthy : truthy value = true).
  { change (truthy value) with (negb (Qeq_bool value 0)).
    destruct (Qeq_bool value 0) eqn:E; [|reflexivity].
    apply Qeq_bool_eq in E. contradiction. }
  rewrite Etruthy. cbn [negb orb].
  destruct dataset as [|d dataset]; [contradiction|]. cbn [List.length Nat.eqb].
  fold known.
  pose proof (findIndex_ascending value _ (ascending_sorted known)) as Hindex.
  assert (Hbelow : List.length (below value (sort ascending known))
                   = List.length (below value known)).
  { symmetry. apply filter_length_perm, sort_perm. }
  rewrite Hbelow, sort_length in Hindex. rewrite sort_length.
  destruct (findIndex _ (sort ascending known)) as [index|].
  - destruct Hindex as [-> Hlt].
    assert (E : (List.length (below value known) =? List.length known)%nat = false)
      by (apply Nat.eqb_neq; lia).
    now rewrite E.
  - rewrite Hindex, Nat.eqb_refl. reflexivity.
Qed.

Lemma percentile_range (value : optional Q) (dataset : list (optional Q)) :
  0 <= calculatePercentile value dataset /\ calculatePercentile value dataset <= 100.
Proof.
  destruct value as [| |value]; try (split; discriminate).
  destruct (Qeq_bool value 0) eqn:Ezero.
  { unfold calculatePercentile.
    change (truthy value) with (negb (Qeq_bool value 0)). rewrite Ezero.
    split; discriminate. }
  apply Qeq_bool_neq in Ezero.
  destruct dataset as [|d dataset].
  { unfold calculatePercentile. cbn. rewrite orb_true_r. split; discriminate. }
  rewrite (percentile_formula value (d :: dataset) Ezero) by discriminate.
  set (known := present (d :: dataset)).
  destruct (List.length (below value known) =? List.length known)%nat eqn:E.
  - split; discriminate.
  - apply Nat.eqb_neq in E.
    pose proof (filter_length_le _ (fun v => lt v value) known) as Hle.
    fold (below value known) in Hle.
    set (b := List.length (below value known)) in *.
    set (n := List.length known) in *.
    assert (Hn : 0 < number_of_nat n).
    { unfold number_of_nat. change 0 with (inject_Z 0). rewrite <- Zlt_Qlt. lia. }
    assert (Hb : 0 <= number_of_nat b).
    { unfold number_of_nat. change 0 with (inject_Z 0). rewrite <- Zle_Qle. lia. }
    assert (Hbn : number_of_nat b <= number_of_nat n).
    { unfold number_of_nat. rewrite <- Zle_Qle. lia. }
    assert (Hratio : 0 <= number_of_nat b / number_of_nat n /\
                     number_of_nat b / number_of_nat n <= 1).
    { split.
      - apply Qle_shift_div_l; [exact Hn | lra].
      - apply Qle_shift_div_r; [exact Hn | lra]. }
    lra.
Qed.

(** X14. [calculatePercentile] is 0 for a value that is missing or zero
    and for an empty data set.  Otherwise it is the percentage of the data
    (ignoring the missing ones) that are strictly below the value, and 100
    when all of them are, also when no datum is left; so it lies between 0
    and 100. *)
Theorem percentile_counts_below :
  forall (value : Q) (dataset : list (optional Q)),
    calculatePercentile undefined dataset = 0 /\
    calculatePercentile null dataset = 0 /\
    calculatePercentile (val 0) dataset = 0 /\
    calculatePercentile (val value) [] = 0 /\
    (~ value == 0 -> dataset <> [] ->
     let known := present dataset in
     calculatePercentile (val value) dataset
     = (if (List.length (below value known) =? List.length known)%nat
        then 100
        else number_of_nat (List.length (below value known))
             / number_of_nat (List.length known) * 100) /\
     0 <= calculatePercentile (val value) dataset /\
     calculatePercentile (val value) dataset <= 100).
Proof.
  intros value dataset. split; [reflexivity|]. split; [reflexivity|].
  split; [reflexivity|]. split.
  { unfold calculatePercentile. cbn. now rewrite orb_true_r. }
  intros Hvalue Hdata known.
  split; [exact (percentile_formula value dataset Hvalue Hdata)|].
  apply percentile_range.
Qed.

Lemma percentile_counts_below_witness :
  calculatePercentile (val 3) [val 1; null; val 5; val 2; undefined] == 200 # 3.
Proof.
  destruct (percentile_counts_below 3 [val 1; null; val 5; val 2; undefined])
    as (_ & _ & _ & _ & H).
  destruct H as (Hresult & _); [discriminate | discriminate |].
  rewrite Hresult. reflexivity.
Defined.







End MetricsFacts.

(** ** Price trend *)

Module TrendFacts.

Import Metrics Spec Vocabulary QueryFacts MetricsFacts.
Local Open Scope Q_scope.






End TrendFacts.

(** ** Risk assessment *)

Module RiskFacts.

Import DatabaseManager Risk Spec Vocabulary.
Local Open Scope Q_scope.

Lemma resolve_target_run (target : string) (remote : Remote) :
  exists kind,
    resolve_target target remote
    = (Returned kind,
       match companies_endpoint remote with
       | inr _ => [GetCompanies]
       | inl _ => [GetCompanies; GetCompanies]
       end).
Proof.
  unfold resolve_target, try_catch, getCompanyBySymbol, getCompaniesBySector,
    getAllCompanies, bind, fetchAPI, ret.
  destruct (companies_endpoint remote); eexists; reflexivity.
Qed.

(** What the assessment is made of depends on the risk types alone. *)
Lemma assessInvestmentRisk_run (riskTypes : list string) :
  exists breakdown,
    (forall target remote,
        assessInvestmentRisk target riskTypes remote
        = (Returned
             {| RiskAssessment.target := target;
                RiskAssessment.risk_types_analyzed := riskTypes;
                RiskAssessment.overall_risk_score := calculateOverallRiskScore breakdown;
                RiskAssessment.risk_breakdown := breakdown;
                RiskAssessment.recommendations := generateRiskRecommendations breakdown |},
           match companies_endpoint remote with
           | inr _ => [GetCompanies]
           | inl _ => [GetCompanies; GetCompanies]
           end)) /\
    map fst breakdown
    = filter (requested riskTypes)
             ["market_risk"; "governance_risk"; "sector_risk"; "liquidity_risk";
              "concentration_risk"]%string /\
    List.length (generateRiskRecommendations breakdown) = (2 * List.length breakdown)%nat /\
    match calculateOverallRiskScore breakdown with
    | Num.Finite score => breakdown <> [] /\ 29 # 10 <= score /\ score <= 65 # 10
    | Num.NaN => breakdown = []
    | Num.Infinity _ => False
    end.
Proof.
  unfold assessInvestmentRisk, assess_if. cbn [filter].
  destruct (requested riskTypes "market_risk");
    destruct (requested riskTypes "governance_risk");
    destruct (requested riskTypes "sector_risk");
    destruct (requested riskTypes "liquidity_risk");
    destruct (requested riskTypes "concentration_risk");
    (eexists; split;
     [ intros target remote;
       destruct (resolve_target_run target remote) as (kind & Hkind);
       unfold try_catch; unfold bind at 1; rewrite Hkind;
       cbv [bind ret assessMarketRisk assessGovernanceRisk assessSectorRisk
            assessLiquidityRisk assessConcentrationRisk];
       destruct (companies_endpoint remote); reflexivity
     | split; [reflexivity|]; split; [reflexivity|];
       vm_compute; repeat split; discriminate ]).
Qed.

(** X18. [assessInvestmentRisk] never throws, whatever the service
    answers: a failed lookup of the target is caught, at the cost of a
    second request.  The target is only echoed; the breakdown holds the
    requested ones of the five risk types, in a fixed order and with fixed
    contents, so two assessments for the same risk types agree on breakdown,
    score and recommendations.  The overall score is the mean of the
    dimension scores, between 2.9 and 6.5, and not a number when no known
    risk type was requested. *)
Theorem risk_assessment_ignores_target :
  forall (target : string) (riskTypes : list string) (remote : Remote),
    exists assessment,
      fst (assessInvestmentRisk target riskTypes remote) = Returned assessment /\
      snd (assessInvestmentRisk target riskTypes remote)
      = match companies_endpoint remote with
        | inr _ => [GetCompanies]
        | inl _ => [GetCompanies; GetCompanies]
        end /\
      RiskAssessment.target assessment = target /\
      RiskAssessment.risk_types_analyzed assessment = riskTypes /\
      map fst (RiskAssessment.risk_breakdown assessment)
      = filter (requested riskTypes)
               ["market_risk"; "governance_risk"; "sector_risk"; "liquidity_risk";
                "concentration_risk"]%string /\
      List.length (RiskAssessment.recommendations assessment)
      = (2 * List.length (RiskAssessment.risk_breakdown assessment))%nat /\
      match RiskAssessment.overall_risk_score assessment with
      | Num.Finite score =>
          RiskAssessment.risk_breakdown assessment <> [] /\
          29 # 10 <= score /\ score <= 65 # 10
      | Num.NaN => RiskAssessment.risk_breakdown assessment = []
      | Num.Infinity _ => False
      end /\
      forall (target' : string) (remote' : Remote),
        exists assessment',
          fst (assessInvestmentRisk target' riskTypes remote') = Returned assessment' /\
          RiskAssessment.risk_breakdown assessment'
          = RiskAssessment.risk_breakdown assessment /\
          RiskAssessment.overall_risk_score assessment'
          = RiskAssessment.overall_risk_score assessment /\
          RiskAssessment.recommendations assessment'
          = RiskAssessment.recommendations assessment.
Proof.
  intros target riskTypes remote.
  destruct (assessInvestmentRisk_run riskTypes)
    as (breakdown & Hrun & Hnames & Hadvice & Hscore).
  eexists. rewrite (Hrun target remote). cbn [fst snd].
  split; [reflexivity|]. split; [reflexivity|].
  cbn [RiskAssessment.target RiskAssessment.risk_types_analyzed
       RiskAssessment.risk_breakdown RiskAssessment.recommendations
       RiskAssessment.overall_risk_score].
  split; [reflexivity|]. split; [reflexivity|]. split; [exact Hnames|].
  split; [exact Hadvice|]. split; [exact Hscore|].
  intros target' remote'. eexists. rewrite (Hrun target' remote').
  cbn [fst]. split; [reflexivity|]. repeat split.
Qed.

End RiskFacts.

(** ** Lobbying, news and the director network *)

Module FeedFacts.

Import Feeds FeedQueries Spec Vocabulary FeedVocabulary JsFacts QueryFacts.

Lemma entry_of_update (k org : string) (f : Lobbyist.entry -> Lobbyist.entry)
      (m : list (string * Lobbyist.entry)) :
  entry_of k (update org f m)
  = if String.eqb org k then option_map f (entry_of k m) else entry_of k m.
Proof.
  induction m as [|[k' e] m IH]; simpl.
  - now destruct (String.eqb org k).
  - destruct (String.eqb org k') eqn:E1; simpl; destruct (String.eqb k k') eqn:E2.
    + apply String.eqb_eq in E1, E2. subst. now rewrite String.eqb_refl.
    + exact IH.
    + apply String.eqb_eq in E2. subst. now rewrite E1.
    + exact IH.
Qed.

Lemma entry_of_app (k org : string) (e : Lobbyist.entry)
      (m : list (string * Lobbyist.entry)) :
  entry_of k (m ++ [(org, e)])
  = match entry_of k m with
    | Some found => Some found
    | None => if String.eqb k org then Some e else None
    end.
Proof.
  induction m as [|[k' e'] m IH]; simpl; [reflexivity|].
  now destruct (String.eqb k k').
Qed.

Lemma has_key_entry (org : string) (m : list (string * Lobbyist.entry)) :
  has_key org m = match entry_of org m with Some _ => true | None => false end.
Proof.
  unfold has_key. induction m as [|[k e] m IH]; simpl; [reflexivity|].
  now destruct (String.eqb org k).
Qed.

Lemma has_key_In (org : string) (m : list (string * Lobbyist.entry)) :
  has_key org m = true <-> In org (map fst m).
Proof.
  unfold has_key. rewrite existsb_exists, in_map_iff. split.
  - intros ([k e] & Hin & Heq). apply String.eqb_eq in Heq. subst. now exists (k, e).
  - intros ([k e] & <- & Hin). exists (k, e). split; [exact Hin | apply String.eqb_refl].
Qed.

Lemma update_keys (org : string) (f : Lobbyist.entry -> Lobbyist.entry)
      (m : list (string * Lobbyist.entry)) :
  map fst (update org f m) = map fst m.
Proof.
  unfold update. rewrite map_map. apply map_ext. intros [k e]. simpl.
  now destruct (String.eqb org k).
Qed.

Lemma tally_entry (acc : list (string * Lobbyist.entry)) (meeting : Meeting.t)
      (k : string) :
  entry_of k (tally acc meeting)
  = if named k meeting
    then Some (record_meeting
                 (match entry_of k acc with Some e => e | None => fresh k end) meeting)
    else entry_of k acc.
Proof.
  unfold tally, named. destruct (Meeting.organization_name meeting) as [| |org];
    try reflexivity.
  destruct (truthy org); cbn [negb andb]; [|reflexivity].
  rewrite entry_of_update, (String.eqb_sym org k).
  destruct (String.eqb k org) eqn:E.
  - apply String.eqb_eq in E. subst k. rewrite has_key_entry.
    destruct (entry_of org acc) as [e|] eqn:Eacc.
    + now rewrite Eacc.
    + now rewrite entry_of_app, Eacc, String.eqb_refl.
  - destruct (has_key org acc); [reflexivity|].
    rewrite entry_of_app, E. now destruct (entry_of k acc).
Qed.

Lemma tally_keys (acc : list (string * Lobbyist.entry)) (meeting : Meeting.t) :
  NoDup (map fst acc) -> NoDup (map fst (tally acc meeting)).
Proof.
  intros Hnd. unfold tally. destruct (Meeting.organization_name meeting) as [| |org];
    try exact Hnd.
  destruct (truthy org); cbn [negb]; [|exact Hnd].
  rewrite update_keys. destruct (has_key org acc) eqn:E; [exact Hnd|].
  rewrite map_app. simpl. apply NoDup_app; [exact Hnd | repeat constructor; intros [] |].
  intros k Hk [<-|[]]. apply has_key_In in Hk. congruence.
Qed.

Lemma orgCounts_keys (meetings : list Meeting.t) (acc : list (string * Lobbyist.entry)) :
  NoDup (map fst acc) -> NoDup (map fst (fold_left tally meetings acc)).
Proof.
  revert acc. induction meetings as [|m ms IH]; intros acc H; simpl; [exact H|].
  apply IH, tally_keys, H.
Qed.

Lemma fold_entry (meetings : list Meeting.t) (acc : list (string * Lobbyist.entry))
      (k : string) :
  entry_of k (fold_left tally meetings acc)
  = match filter (named k) meetings with
    | [] => entry_of k acc
    | own =>
        Some (fold_left record_meeting own
                (match entry_of k acc with Some e => e | None => fresh k end))
    end.
Proof.
  revert acc. induction meetings as [|m ms IH]; intros acc; simpl; [reflexivity|].
  rewrite IH, tally_entry. destruct (named k m); simpl.
  - now destruct (filter (named k) ms).
  - reflexivity.
Qed.

Lemma In_entry (k : string) (e : Lobbyist.entry) (m : list (string * Lobbyist.entry)) :
  NoDup (map fst m) -> In (k, e) m -> entry_of k m = Some e.
Proof.
  induction m as [|[k' e'] m IH]; simpl; intros Hnd Hin; [contradiction|].
  inversion Hnd as [|? ? Hnotin Hrest]; subst. destruct Hin as [Heq|Hin].
  - inversion Heq; subst. now rewrite String.eqb_refl.
  - destruct (String.eqb k k') eqn:E; [|now apply IH].
    apply String.eqb_eq in E. subst k'. exfalso. apply Hnotin.
    apply in_map_iff. now exists (k, e).
Qed.

Lemma entry_In (k : string) (e : Lobbyist.entry) (m : list (string * Lobbyist.entry)) :
  entry_of k m = Some e -> In (k, e) m.
Proof.
  induction m as [|[k' e'] m IH]; simpl; [discriminate|].
  destruct (String.eqb k k') eqn:E.
  - apply String.eqb_eq in E. subst k'. intros H. inversion H. now left.
  - intros H. right. now apply IH.
Qed.

(** The entries of the map: one per organization that some meeting names,
    built from the meetings of that organization in their order. *)
Lemma orgCounts_entries (meetings : list Meeting.t) (k : string) (e : Lobbyist.entry) :
  In (k, e) (orgCounts meetings) <->
  filter (named k) meetings <> [] /\
  e = fold_left record_meeting (filter (named k) meetings) (fresh k).
Proof.
  unfold orgCounts. split.
  - intros Hin. apply In_entry in Hin; [|apply orgCounts_keys; constructor].
    rewrite fold_entry in Hin. simpl in Hin.
    destruct (filter (named k) meetings) as [|m ms]; [discriminate|].
    inversion Hin. split; [discriminate | reflexivity].
  - intros [Hne ->]. apply entry_In. rewrite fold_entry. simpl.
    destruct (filter (named k) meetings); [contradiction | reflexivity].
Qed.

Lemma recorded (own : list Meeting.t) (start : Lobbyist.entry) :
  let entry := fold_left record_meeting own start in
  Lobbyist.entry_name entry = Lobbyist.entry_name start /\
  Lobbyist.entry_count entry = Lobbyist.entry_count start + List.length own /\
  Lobbyist.entry_spending entry = Lobbyist.entry_spending start ++ amounts own.
Proof.
  revert start. induction own as [|m ms IH]; intros start; simpl.
  - repeat split; [lia | now rewrite app_nil_r].
  - destruct (IH (record_meeting start m)) as (Hname & Hcount & Hspending).
    cbv zeta in *. rewrite Hname, Hcount, Hspending. cbn [record_meeting Lobbyist.entry_name
      Lobbyist.entry_count Lobbyist.entry_spending].
    repeat split; [lia|].
    unfold amounts. cbn [flat_map].
    destruct (Meeting.quarterly_spending m) as [| |amount]; try reflexivity.
    destruct (truthy amount); [|reflexivity]. now rewrite <- app_assoc.
Qed.

Lemma ranked_In (meetings : list Meeting.t) (lobbyist : Lobbyist.t) :
  In lobbyist (ranked_lobbyists meetings) <->
  exists org,
    filter (named org) meetings <> [] /\
    lobbyist = lobbyist_of (fold_left record_meeting (filter (named org) meetings)
                                      (fresh org)).
Proof.
  unfold ranked_lobbyists. rewrite sort_In, in_map_iff. split.
  - intros ([k e] & <- & Hin). apply orgCounts_entries in Hin.
    destruct Hin as [Hne ->]. now exists k.
  - intros (org & Hne & ->). eexists (org, _). split; [reflexivity|].
    now apply orgCounts_entries.
Qed.

Lemma ranked_names (meetings : list Meeting.t) :
  NoDup (map Lobbyist.organization_name (ranked_lobbyists meetings)).
Proof.
  unfold ranked_lobbyists.
  apply (Permutation_NoDup
           (l := map Lobbyist.organization_name
                     (map (fun e => lobbyist_of (snd e)) (orgCounts meetings)))).
  - apply Permutation_map, sort_perm.
  - rewrite map_map.
    rewrite (map_ext_in _ fst).
    + apply orgCounts_keys. constructor.
    + intros [k e] Hin. apply orgCounts_entries in Hin. destruct Hin as [_ ->].
      cbn [snd fst lobbyist_of Lobbyist.organization_name].
      apply (recorded _ (fresh k)).
Qed.

Lemma ranked_by_meetings (meetings : list Meeting.t) :
  by_meetings (ranked_lobbyists meetings).
Proof.
  unfold by_meetings, ranked_lobbyists. apply sort_sorted.
  - intros a b c Hab Hbc. lia.
  - intros a b H. unfold by_meeting_count in H. apply Z.ltb_lt in H. lia.
  - intros a b H. unfold by_meeting_count in H. apply Z.ltb_ge in H. lia.
Qed.

Lemma NoDup_firstn (A : Type) (n : nat) (xs : list A) :
  NoDup xs -> NoDup (firstn n xs).
Proof.
  intros H. revert n. induction H as [|x xs Hnotin _ IH]; intros [|n]; simpl;
    try constructor.
  - intros Hin. apply Hnotin. eapply firstn_In; eauto.
  - apply IH.
Qed.

Lemma named_spec (org : string) (meeting : Meeting.t) :
  named org meeting = true <->
  Meeting.organization_name meeting = val org /\ org <> EmptyString.
Proof.
  unfold named. destruct (Meeting.organization_name meeting) as [| |o].
  - split; [discriminate | intros [H _]; discriminate].
  - split; [discriminate | intros [H _]; discriminate].
  - rewrite andb_true_iff, String.eqb_eq. split.
    + intros [Ht ->]. split; [reflexivity|]. intros ->. discriminate.
    + intros [H Hne]. inversion H; subst. split; [|reflexivity].
      destruct org; [contradiction | reflexivity].
Qed.

(** X19. [getMostActiveLobbyists] asks once for the lobbying data, without
    a limit, and returns the leading entries of a ranking that has one
    entry per organization named in some meeting, each organization once,
    in non-increasing order of meeting count; for a non-negative [limit] at
    most [limit] of them.  An entry counts the meetings that name the
    organization and lists their non-zero spendings in order;
    [avg_spending] is their mean, or [null] when there are none.  Meetings
    without an organization are in no entry. *)
Theorem lobbyists_count_their_meetings :
  forall (service : Service) (json : LobbyingData) (limit : Z),
    lobbying_endpoint service None = inr json ->
    exists lobbyists,
      getMostActiveLobbyists limit service = (Returned lobbyists, [GetLobbying None]) /\
      lobbyists = slice0 limit (ranked_lobbyists (meetings_of json)) /\
      NoDup (map Lobbyist.organization_name lobbyists) /\
      by_meetings lobbyists /\
      ((0 <= limit)%Z -> (Z.of_nat (List.length lobbyists) <= limit)%Z) /\
      (forall meeting org,
          In meeting (meetings_of json) ->
          Meeting.organization_name meeting = val org -> org <> EmptyString ->
          In org (map Lobbyist.organization_name (ranked_lobbyists (meetings_of json)))) /\
      (forall lobbyist,
          In lobbyist lobbyists ->
          let own :=
            filter (named (Lobbyist.organization_name lobbyist)) (meetings_of json) in
          Lobbyist.organization_name lobbyist <> EmptyString /\
          (1 <= Lobbyist.meeting_count lobbyist)%nat /\
          Lobbyist.meeting_count lobbyist = List.length own /\
          Lobbyist.spending lobbyist = amounts own /\
          match Lobbyist.avg_spending lobbyist with
          | val average =>
              amounts own <> [] /\
              (average == sum (amounts own) / count _ (amounts own))%Q
          | null => amounts own = []
          | undefined => False
          end).
Proof.
  intros service json limit Hjson. eexists. split.
  { unfold getMostActiveLobbyists, bind, fetchAPI, ret. rewrite Hjson. reflexivity. }
  set (meetings := meetings_of json).
  split; [reflexivity|]. split; [|split; [|split; [|split]]].
  - unfold slice0. destruct (limit <? 0)%Z; rewrite <- firstn_map;
      apply NoDup_firstn, ranked_names.
  - apply slice0_sorted, ranked_by_meetings.
  - apply slice0_length.
  - intros meeting org Hin Horg Hne. apply in_map_iff.
    exists (lobbyist_of (fold_left record_meeting (filter (named org) meetings) (fresh org))).
    split.
    + cbn [lobbyist_of Lobbyist.organization_name]. apply (recorded _ (fresh org)).
    + apply ranked_In. exists org. split; [|reflexivity]. intros Hnone.
      assert (Hm : In meeting (filter (named org) meetings)).
      { apply filter_In. split; [exact Hin|]. now apply named_spec. }
      rewrite Hnone in Hm. contradiction.
  - intros lobbyist Hin. apply slice0_In, ranked_In in Hin.
    destruct Hin as (org & Hne & ->).
    destruct (recorded (filter (named org) meetings) (fresh org))
      as (Hname & Hcount & Hspending).
    cbn [lobbyist_of Lobbyist.organization_name Lobbyist.meeting_count
         Lobbyist.spending Lobbyist.avg_spending].
    rewrite Hname, Hcount, Hspending. cbn [fresh Lobbyist.entry_name Lobbyist.entry_count
      Lobbyist.entry_spending app Nat.add].
    destruct (filter (named org) meetings) as [|m ms] eqn:Eown; [contradiction|].
    assert (Hm : In m (filter (named org) meetings)) by (rewrite Eown; now left).
    apply filter_In in Hm. destruct Hm as [_ Hm]. apply named_spec in Hm.
    split; [apply Hm|]. split; [simpl; lia|]. split; [reflexivity|].
    split; [reflexivity|].
    destruct (amounts (m :: ms)) as [|a rest]; [reflexivity|].
    cbn [List.length Nat.ltb Nat.leb]. split; [discriminate|].
    unfold count, Network.number_of_nat.
    apply Qdiv_comp; [|reflexivity].
    generalize (a :: rest). intros xs.
    assert (H : forall start, (fold_left Qplus xs start == start + sum xs)%Q).
    { induction xs as [|x xs IH]; intros start; simpl; [ring|]. rewrite IH. ring. }
    rewrite H. ring.
Qed.

Lemma lobbyists_count_their_meetings_witness :
  exists lobbyists,
    getMostActiveLobbyists 1 SampleFeeds.service
    = (Returned lobbyists, [GetLobbying None]) /\
    map (fun l => (Lobbyist.organization_name l, Lobbyist.meeting_count l)) lobbyists
    = [("Iberdrola SA"%string, 3)].
Proof.
  destruct (lobbyists_count_their_meetings SampleFeeds.service _ 1 eq_refl)
    as (lobbyists & Hrun & -> & _).
  eexists. split; [exact Hrun | reflexivity].
Defined.

Lemma lifted_companies (A : Type) (k : list Company.t -> Task A)
      (service : Service) (companies : list Company.t) :
  fst (DatabaseManager.getAllCompanies (core service)) = Returned companies ->
  bind (lift DatabaseManager.getAllCompanies) k service
  = (fst (k companies service), Core GetCompanies :: snd (k companies service)).
Proof.
  intros H. unfold bind, lift.
  pose proof (FacadeFacts.getAllCompanies_run (core service)) as R.
  destruct (DatabaseManager.getAllCompanies (core service)) as [outcome issued].
  simpl in H. subst outcome.
  assert (issued = [GetCompanies]) as -> by now inversion R.
  now destruct (k companies service).
Qed.

Lemma contains_spec (s sub : string) :
  includes (toLowerCase s) (toLowerCase sub) = true <-> contains s sub.
Proof. apply includes_spec. Qed.

(** X20. [getLobbyingMeetings] first asks for the meetings, with the
    limit.  Without a company id it returns them all.  With one it then
    asks for the companies: an unknown id gives the empty list; a company
    with a name gives the meetings whose organization contains that name,
    letter case aside; a company without a name makes the call throw a
    [TypeError] as soon as some meeting names an organization. *)
Theorem lobbying_meetings_of_a_company :
  forall (service : Service) (json : LobbyingData)
         (companyId : optional string) (limit : Z),
    lobbying_endpoint service (Some limit) = inr json ->
    let meetings := meetings_of json in
    (truthy companyId = false ->
     getLobbyingMeetings companyId limit service
     = (Returned meetings, [GetLobbying (Some limit)])) /\
    (truthy companyId = true ->
     forall companies,
       fst (DatabaseManager.getAllCompanies (core service)) = Returned companies ->
       snd (getLobbyingMeetings companyId limit service)
       = [GetLobbying (Some limit); Core GetCompanies] /\
       ((forall c, In c companies -> Company.id c <> companyId) ->
        fst (getLobbyingMeetings companyId limit service) = Returned []) /\
       (forall company,
           resolves_to companies companyId company ->
           (forall name,
               Company.name company = val name ->
               exists keep : Meeting.t -> bool,
                 fst (getLobbyingMeetings companyId limit service)
                 = Returned (filter keep meetings) /\
                 forall m,
                   keep m = true <->
                   exists org,
                     Meeting.organization_name m = val org /\
                     org <> EmptyString /\ contains org name) /\
           ((forall name, Company.name company <> val name) ->
            (forall m, In m meetings -> truthy (Meeting.organization_name m) = false) ->
            fst (getLobbyingMeetings companyId limit service) = Returned []) /\
           ((forall name, Company.name company <> val name) ->
            (exists m, In m meetings /\ truthy (Meeting.organization_name m) = true) ->
            exists message,
              fst (getLobbyingMeetings companyId limit service)
              = Thrown ("TypeError: " ++ message)%string))).
Proof.
  intros service json companyId limit Hjson meetings. split.
  - intros Hid. unfold getLobbyingMeetings, bind, fetchAPI. rewrite Hjson, Hid.
    reflexivity.
  - intros Hid companies Hfetch.
    assert (Hrun : getLobbyingMeetings companyId limit service
                   = (let (outcome, issued) :=
                        match Js.find (fun c => strict_eq (Company.id c) companyId)
                                      companies with
                        | val company =>
                            match Company.name company with
                            | val name =>
                                ret (filter
                                       (fun meeting =>
                                          and_then (Meeting.organization_name meeting)
                                            (fun org => includes (toLowerCase org)
                                                                 (toLowerCase name)))
                                       meetings)
                            | missing =>
                                if existsb
                                     (fun meeting =>
                                        truthy (Meeting.organization_name meeting))
                                     meetings
                                then throw
                                       ("TypeError: Cannot read properties of "
                                        ++ match missing with
                                           | null => "null"
                                           | _ => "undefined"
                                           end
                                        ++ " (reading 'toLowerCase')")%string
                                else ret []
                            end
                        | _ => ret []
                        end service in
                      (outcome, [GetLobbying (Some limit); Core GetCompanies] ++ issued))).
    { unfold getLobbyingMeetings. unfold bind at 1. unfold fetchAPI at 1.
      rewrite Hjson, Hid. fold meetings.
      rewrite (lifted_companies _ _ _ _ Hfetch).
      destruct (Js.find _ companies) as [| |company]; try reflexivity.
      destruct (Company.name company) as [| |name]; try reflexivity;
        destruct (existsb _ meetings); reflexivity. }
    rewrite Hrun. split; [|split].
    + destruct (Js.find _ companies) as [| |company]; try reflexivity.
      destruct (Company.name company) as [| |name]; try reflexivity;
        destruct (existsb _ meetings); reflexivity.
    + intros Habsent. now rewrite (find_absent _ _ Habsent).
    + intros company Hresolves. rewrite (find_resolves _ _ _ Hresolves).
      split; [|split].
      * intros name Hname. rewrite Hname. eexists. split; [reflexivity|].
        intros m. cbv beta. unfold and_then.
        destruct (Meeting.organization_name m) as [| |org].
        -- split; [discriminate | intros (o & H & _); discriminate].
        -- split; [discriminate | intros (o & H & _); discriminate].
        -- rewrite andb_true_iff, contains_spec. split.
           ++ intros [Ht Hc]. exists org. split; [reflexivity|]. split; [|exact Hc].
              intros ->. discriminate.
           ++ intros (o & Heq & Hne & Hc). inversion Heq; subst o.
              split; [|exact Hc]. destruct org; [contradiction | reflexivity].
      * intros Hmissing Hnone.
        assert (E : existsb (fun m => truthy (Meeting.organization_name m)) meetings
                    = false).
        { destruct (existsb _ meetings) eqn:E; [|reflexivity].
          apply existsb_exists in E. destruct E as (m & Hm & Ht).
          rewrite (Hnone m Hm) in Ht. discriminate. }
        destruct (Company.name company) as [| |name]; rewrite ?E; try reflexivity.
        now destruct (Hmissing name).
      * intros Hmissing (m & Hm & Ht).
        assert (E : existsb (fun m => truthy (Meeting.organization_name m)) meetings
                    = true).
        { apply existsb_exists. now exists m. }
        destruct (Company.name company) as [| |name]; rewrite ?E.
        -- eexists. reflexivity.
        -- eexists. reflexivity.
        -- now destruct (Hmissing name).
Qed.

Lemma lobbying_meetings_of_a_company_witness :
  exists keep : Meeting.t -> bool,
    fst (getLobbyingMeetings (val "3"%string) 20 SampleFeeds.service)
    = Returned (filter keep SampleFeeds.agenda) /\
    keep (SampleFeeds.meeting (val "Iberdrola SA"%string) (val "Council"%string) null)
    = true.
Proof.
  destruct (lobbying_meetings_of_a_company SampleFeeds.service _ (val "3"%string) 20
              eq_refl) as [_ Hcompany].
  destruct (Hcompany eq_refl Sample.companies eq_refl) as (_ & _ & Hfound).
  destruct (Hfound Sample.iberdrola) as (Hnamed & _).
  { exists [Sample.santander; Sample.bbva], [Sample.unlisted].
    split; [reflexivity|]. split; [reflexivity|].
    intros c [<-|[<-|[]]]; discriminate. }
  destruct (Hnamed _ eq_refl) as (keep & Hrun & Hkeep).
  exists keep. split; [exact Hrun|].
  apply Hkeep. exists "Iberdrola SA"%string. split; [reflexivity|].
  split; [discriminate|]. exists EmptyString, " sa"%string. reflexivity.
Defined.

(** X21. [getRecentNews] without a company id asks the general feed, with
    the limit.  With an id it asks for the companies first: for an unknown
    id it returns the empty list and asks nothing more; otherwise it asks
    for the news of the symbol of the first company carrying the id.  A
    missing [news] field counts as no news. *)
Theorem recent_news_routing :
  forall (service : Service) (companyId : optional string) (limit : Z),
    (truthy companyId = false ->
     forall json,
       news_endpoint service limit = inr json ->
       getRecentNews companyId limit service
       = (Returned (or_empty (news json)), [GetNews limit])) /\
    (truthy companyId = true ->
     forall companies,
       fst (DatabaseManager.getAllCompanies (core service)) = Returned companies ->
       ((forall c, In c companies -> Company.id c <> companyId) ->
        getRecentNews companyId limit service = (Returned [], [Core GetCompanies])) /\
       (forall company json,
           resolves_to companies companyId company ->
           company_news_endpoint service (query_param (Company.symbol company)) limit
           = inr json ->
           getRecentNews companyId limit service
           = (Returned (or_empty (news json)),
              [Core GetCompanies;
               GetCompanyNews (query_param (Company.symbol company)) limit]))).
Proof.
  intros service companyId limit. split.
  - intros Hid json Hjson. unfold getRecentNews. rewrite Hid.
    unfold bind, fetchAPI. now rewrite Hjson.
  - intros Hid companies Hfetch. unfold getRecentNews. rewrite Hid.
    rewrite (lifted_companies _ _ _ _ Hfetch). split.
    + intros Habsent. now rewrite (find_absent _ _ Habsent).
    + intros company json Hresolves Hjson. rewrite (find_resolves _ _ _ Hresolves).
      unfold bind, fetchAPI. now rewrite Hjson.
Qed.

Lemma recent_news_routing_witness :
  getRecentNews (val "1"%string) 5 SampleFeeds.service
  = (Returned [SampleFeeds.item "Santander"],
     [Core GetCompanies; GetCompanyNews (Some "SAN"%string) 5]) /\
  getRecentNews (val "99"%string) 5 SampleFeeds.service
  = (Returned [], [Core GetCompanies]).
Proof.
  destruct (recent_news_routing SampleFeeds.service (val "1"%string) 5) as [_ Hknown].
  destruct (recent_news_routing SampleFeeds.service (val "99"%string) 5) as [_ Hunknown].
  destruct (Hknown eq_refl Sample.companies eq_refl) as [_ Hfound].
  destruct (Hunknown eq_refl Sample.companies eq_refl) as [Habsent _].
  split.
  - apply (Hfound Sample.santander {| news := val [SampleFeeds.item "Santander"] |}).
    + exists [], [Sample.bbva; Sample.iberdrola; Sample.unlisted].
      split; [reflexivity|]. split; [reflexivity|]. intros c [].
    + reflexivity.
  - apply Habsent. intros c [<-|[<-|[<-|[<-|[]]]]]; discriminate.
Defined.

(** X22. Both director queries ask once for the network and keep, in
    order, the directors that match: [getDirectorsByName] those with a
    non-empty name that contains the query, letter case aside (so all named
    directors for an empty query); [getCompanyDirectors] those whose
    [company_id] is strictly equal to the id given.  A missing [directors]
    field counts as no directors. *)
Theorem director_queries_filter_the_network :
  forall (service : Service) (json : NetworkData),
    network_endpoint service = inr json ->
    (forall name,
        exists keep : Director.t -> bool,
          getDirectorsByName name service
          = (Returned (filter keep (or_empty (directors json))), [GetNetwork]) /\
          forall d,
            keep d = true <->
            exists n, Director.name d = val n /\ n <> EmptyString /\ contains n name) /\
    (forall companyId,
        exists keep : Director.t -> bool,
          getCompanyDirectors companyId service
          = (Returned (filter keep (or_empty (directors json))), [GetNetwork]) /\
          forall d, keep d = true <-> Director.company_id d = companyId).
Proof.
  intros service json Hjson. split.
  - intros name. eexists. split.
    + unfold getDirectorsByName, bind, fetchAPI. rewrite Hjson. reflexivity.
    + intros d. cbv beta. unfold and_then.
      destruct (Director.name d) as [| |n].
      * split; [discriminate | intros (o & H & _); discriminate].
      * split; [discriminate | intros (o & H & _); discriminate].
      * rewrite andb_true_iff, contains_spec. split.
        -- intros [Ht Hc]. exists n. split; [reflexivity|]. split; [|exact Hc].
           intros ->. discriminate.
        -- intros (o & Heq & Hne & Hc). inversion Heq; subst o.
           split; [|exact Hc]. destruct n; [contradiction | reflexivity].
  - intros companyId. eexists. split.
    + unfold getCompanyDirectors, bind, fetchAPI. rewrite Hjson. reflexivity.
    + intros d. apply strict_eq_spec.
Qed.

Lemma director_queries_filter_the_network_witness :
  exists keep : Director.t -> bool,
    getDirectorsByName "ana" SampleFeeds.service
    = (Returned (filter keep SampleFeeds.board), [GetNetwork]) /\
    keep (SampleFeeds.network_director (val "ANA PATRICIA"%string) undefined) = true.
Proof.
  destruct (director_queries_filter_the_network SampleFeeds.service _ eq_refl)
    as [Hname _].
  destruct (Hname "ana"%string) as (keep & Hrun & Hkeep).
  exists keep. split; [exact Hrun|].
  apply Hkeep. exists "ANA PATRICIA"%string. split; [reflexivity|].
  split; [discriminate|]. exists EmptyString, " patricia"%string. reflexivity.
Defined.

End FeedFacts.

(** ** What the router finds in a query *)

Module RoutingFacts.

Import Regex Router Spec RouterVocabulary.

Lemma lit_sound (ignore_case : bool) (R : Type) (p : string) :
  forall (prev : option ascii) (s : string) (k : option ascii -> string -> option R)
         (r : R),
    lit ignore_case p prev s k = Some r ->
    exists m rest prev',
      s = (m ++ rest)%string /\ spells ignore_case m p /\ k prev' rest = Some r.
Proof.
  induction p as [|a p IH]; intros prev s k r H; simpl in H.
  - exists EmptyString, s, prev. repeat split; [|exact H].
    unfold spells. now destruct ignore_case.
  - destruct s as [|b s]; [discriminate|].
    destruct (same_char ignore_case a b) eqn:E; [|discriminate].
    apply IH in H. destruct H as (m & rest & prev' & -> & Hm & Hk).
    exists (String b m), rest, prev'. repeat split; [|exact Hk].
    unfold spells, same_char in *. destruct ignore_case; simpl.
    + apply Ascii.eqb_eq in E. now rewrite Hm, E.
    + apply Ascii.eqb_eq in E. now rewrite Hm, E.
Qed.

Lemma one_of_sound (ignore_case : bool) (R : Type) (others : list string) :
  forall (first : string) (prev : option ascii) (s : string)
         (k : option ascii -> string -> option R) (r : R),
    run ignore_case (one_of first others) prev s k = Some r ->
    exists w m rest prev',
      In w (first :: others) /\ s = (m ++ rest)%string /\
      spells ignore_case m w /\ k prev' rest = Some r.
Proof.
  induction others as [|next others IH]; intros first prev s k r H; simpl in H.
  - apply lit_sound in H. destruct H as (m & rest & prev' & Hs & Hm & Hk).
    exists first, m, rest, prev'. repeat split; trivial. now left.
  - destruct (lit ignore_case first prev s k) as [x|] eqn:E.
    + inversion H; subst x. apply lit_sound in E.
      destruct E as (m & rest & prev' & Hs & Hm & Hk).
      exists first, m, rest, prev'. repeat split; trivial. now left.
    + apply IH in H. destruct H as (w & m & rest & prev' & Hw & Hs & Hm & Hk).
      exists w, m, rest, prev'. repeat split; trivial. now right.
Qed.

Lemma word_sound (ignore_case : bool) (first : string) (others : list string)
      (prev : option ascii) (s rest : string) :
  match_here ignore_case (word first others) prev s = Some rest ->
  exists w m,
    In w (first :: others) /\ s = (m ++ rest)%string /\ spells ignore_case m w.
Proof.
  unfold match_here, word. cbn [run].
  destruct (at_boundary prev s); [|discriminate]. intros H.
  apply one_of_sound in H. destruct H as (w & m & rest' & prev' & Hw & Hs & Hm & Hk).
  destruct (at_boundary prev' rest'); [|discriminate]. inversion Hk; subst rest'.
  now exists w, m.
Qed.

Lemma exec_from_sound (ignore_case : bool) (r : Regex.t) (s : string) :
  forall (prev : option ascii) (x : string),
    exec_from ignore_case r prev s = Some x ->
    exists prev' s' rest,
      match_here ignore_case r prev' s' = Some rest /\
      x = substring 0 (String.length s' - String.length rest) s'.
Proof.
  induction s as [|c s IH]; intros prev x H; simpl in H.
  - destruct (match_here ignore_case r prev EmptyString) as [rest|] eqn:E;
      [|discriminate].
    inversion H. now exists prev, EmptyString, rest.
  - destruct (match_here ignore_case r prev (String c s)) as [rest|] eqn:E.
    + inversion H. now exists prev, (String c s), rest.
    + now apply IH in H.
Qed.

Lemma length_append (m rest : string) :
  String.length (m ++ rest) = String.length m + String.length rest.
Proof. induction m as [|c m IH]; cbn [String.length append]; lia. Qed.

Lemma matched_text (m rest : string) :
  substring 0 (String.length (m ++ rest) - String.length rest) (m ++ rest) = m.
Proof.
  replace (String.length (m ++ rest) - String.length rest) with (String.length m)
    by (rewrite length_append; lia).
  induction m as [|c m IH]; simpl.
  - now destruct rest.
  - now rewrite IH.
Qed.

(** The text a word pattern matches spells one of its alternatives. *)
Lemma exec_word (ignore_case : bool) (first : string) (others : list string)
      (s x : string) :
  exec ignore_case (word first others) s = Some x ->
  exists w, In w (first :: others) /\ spells ignore_case x w.
Proof.
  unfold exec. intros H. apply exec_from_sound in H.
  destruct H as (prev' & s' & rest & Hmatch & ->).
  apply word_sound in Hmatch. destruct Hmatch as (w & m & Hw & -> & Hm).
  exists w. split; [exact Hw|]. now rewrite matched_text.
Qed.

Lemma found_by_pattern (query : string) (patterns : list Regex.t) (found : list string) :
  fold_left
    (fun found pattern =>
       if test true pattern query
       then match exec true pattern query with
            | Some match0 => found ++ [toUpperCase match0]
            | None => found
            end
       else found)
    patterns found
  = found ++ flat_map (pick query) patterns.
Proof.
  revert found. induction patterns as [|p ps IH]; intros found; simpl.
  - now rewrite app_nil_r.
  - rewrite IH. unfold pick at 2.
    destruct (test true p query); [|reflexivity].
    destruct (exec true p query); [|reflexivity].
    now rewrite <- app_assoc.
Qed.

Lemma pick_alias (query : string) (first : string) (others : list string) :
  one_alias (pick query (word first others)) (map toUpperCase (first :: others)).
Proof.
  unfold one_alias, pick. destruct (test true (word first others) query); [|now left].
  destruct (exec true (word first others) query) as [x|] eqn:E; [|now left].
  right. exists (toUpperCase x). split; [reflexivity|].
  apply exec_word in E. destruct E as (w & Hw & Hspells).
  unfold spells in Hspells. rewrite Hspells. now apply in_map.
Qed.

(** X24. The names the router extracts from a comparison query are upper
    case spellings of the aliases it knows, at most one per company, and
    they come in the order Santander, BBVA, Iberdrola, Telefonica, Inditex
    whatever their order in the query; so at most five names are found. *)
Theorem found_companies_are_aliases :
  forall query : string,
    exists san bbva ibe tef itx : list string,
      foundCompanies query = san ++ bbva ++ ibe ++ tef ++ itx /\
      one_alias san ["SANTANDER"; "SAN.MC"; "SAN"]%string /\
      one_alias bbva ["BBVA"; "BBVA.MC"]%string /\
      one_alias ibe ["IBERDROLA"; "IBE.MC"; "IBE"]%string /\
      one_alias tef ["TELEFONICA"; "TEF.MC"; "TEF"]%string /\
      one_alias itx ["INDITEX"; "ITX.MC"; "ITX"]%string /\
      List.length (foundCompanies query) <= 5.
Proof.
  intros query.
  pose proof (pick_alias query "santander" ["san.mc"; "san"]%string) as Hsan.
  pose proof (pick_alias query "bbva" ["bbva.mc"]%string) as Hbbva.
  pose proof (pick_alias query "iberdrola" ["ibe.mc"; "ibe"]%string) as Hibe.
  pose proof (pick_alias query "telefonica" ["tef.mc"; "tef"]%string) as Htef.
  pose proof (pick_alias query "inditex" ["itx.mc"; "itx"]%string) as Hitx.
  assert (Hfound : foundCompanies query
                   = pick query (word "santander" ["san.mc"; "san"])
                     ++ pick query (word "bbva" ["bbva.mc"])
                     ++ pick query (word "iberdrola" ["ibe.mc"; "ibe"])
                     ++ pick query (word "telefonica" ["tef.mc"; "tef"])
                     ++ pick query (word "inditex" ["itx.mc"; "itx"])).
  { unfold foundCompanies. rewrite found_by_pattern. unfold companyPatterns.
    cbn [flat_map app]. now rewrite app_nil_r. }
  do 5 eexists. split; [exact Hfound|].
  split; [exact Hsan|]. split; [exact Hbbva|]. split; [exact Hibe|].
  split; [exact Htef|]. split; [exact Hitx|].
  rewrite Hfound, !length_app.
  assert (Hone : forall picked names, one_alias picked names -> List.length picked <= 1).
  { intros picked names [->|(n & -> & _)]; simpl; lia. }
  apply Hone in Hsan, Hbbva, Hibe, Htef, Hitx. lia.
Qed.

Section Routing.

Variables ComparisonReport Payload : Type.
Variable compareCompanies : list string -> list string -> M ComparisonReport.
Variables bankingResults riskResults priceResults generalResults : M Payload.
Variable sectorResults : string -> M Payload.

Let analyze : string -> optional string -> M (Analysis ComparisonReport Payload) :=
  analyzeNaturalQuery compareCompanies bankingResults riskResults priceResults
                      generalResults sectorResults.

(** X23. [analyzeNaturalQuery] never throws.  When the work of its branch
    fails, it returns the analysis with the [error] and the
    [fallback_suggestion], with no results and no suggested actions.
    Otherwise the suggested actions are the two generic ones, preceded by
    the two banking ones for a banking query; the suggestions about risk
    are never given, not even for a risk query, whose interpretation spells
    the word with a capital.  The execution plan has three steps for
    banking and risk queries and none otherwise. *)
Theorem router_always_answers :
  forall (query : string) (context : optional string) (remote : Remote),
    exists analysis,
      fst (analyze query context remote) = Returned analysis /\
      original_query analysis = query /\
      Router.context analysis = context /\
      List.length (execution_plan analysis)
      = match classify (toLowerCase query) with
        | BankingPerformance | RiskGovernance => 3
        | _ => 0
        end /\
      ((error analysis = undefined /\
        fallback_suggestion analysis = undefined /\
        results analysis <> NoResults ComparisonReport Payload /\
        suggested_actions analysis
        = match classify (toLowerCase query) with
          | BankingPerformance => banking_suggestions
          | _ => []
          end ++ generic_suggestions)
       \/
       (exists message,
           error analysis
           = val ("Failed to process natural language query: Error: " ++ message)%string /\
           fallback_suggestion analysis
           = val "Try using specific tool names like get_all_companies, get_recent_news, or get_board_interlocks"%string /\
           results analysis = NoResults ComparisonReport Payload /\
           suggested_actions analysis = [])).
Proof.
  intros query context remote.
  unfold analyze, analyzeNaturalQuery, branch.
  destruct (classify (toLowerCase query)) eqn:Ekind.
  - unfold try_catch, bind, ret.
    destruct (bankingResults remote) as [[p|message] issued];
      (eexists; split; [reflexivity|]; repeat split;
       solve [ left; repeat split; (reflexivity || discriminate)
             | right; eexists; repeat split; reflexivity ]).
  - unfold try_catch, bind, ret.
    destruct (riskResults remote) as [[p|message] issued];
      (eexists; split; [reflexivity|]; repeat split;
       solve [ left; repeat split; (reflexivity || discriminate)
             | right; eexists; repeat split; reflexivity ]).
  - destruct (2 <=? List.length (foundCompanies (toLowerCase query))).
    + unfold try_catch, bind, ret.
      destruct (compareCompanies (foundCompanies (toLowerCase query)) ["all"%string] remote)
        as [[p|message] issued];
        (eexists; split; [reflexivity|]; repeat split;
         solve [ left; repeat split; (reflexivity || discriminate)
               | right; eexists; repeat split; reflexivity ]).
    + eexists. split; [reflexivity|]. repeat split.
      left. repeat split; (reflexivity || discriminate).
  - assert (Hsector :
              In (match exec false sector_name_pattern (toLowerCase query) with
                  | Some name => name
                  | None => "energy"%string
                  end)
                 ["banking"; "energy"; "telecom"; "textile"; "steel"; "aviation";
                  "infrastructure"]%string).
    { destruct (exec false sector_name_pattern (toLowerCase query)) as [name|] eqn:E.
      - apply exec_word in E. destruct E as (w & Hw & Hspells).
        unfold spells in Hspells. now subst name.
      - right. now left. }
    destruct Hsector as [<-|[<-|[<-|[<-|[<-|[<-|[<-|[]]]]]]]];
      unfold try_catch, bind, ret;
      match goal with
      | |- context [sectorResults ?sector remote] =>
          destruct (sectorResults sector remote) as [[p|message] issued]
      end;
      (eexists; split; [reflexivity|]; repeat split;
       solve [ left; repeat split; (reflexivity || discriminate)
             | right; eexists; repeat split; reflexivity ]).
  - unfold try_catch, bind, ret.
    destruct (priceResults remote) as [[p|message] issued];
      (eexists; split; [reflexivity|]; repeat split;
       solve [ left; repeat split; (reflexivity || discriminate)
             | right; eexists; repeat split; reflexivity ]).
  - unfold try_catch, bind, ret.
    destruct (generalResults remote) as [[p|message] issued];
      (eexists; split; [reflexivity|]; repeat split;
       solve [ left; repeat split; (reflexivity || discriminate)
             | right; eexists; repeat split; reflexivity ]).
Qed.

End Routing.

End RoutingFacts.

(** ** Market position *)

Module StandingFacts.

Import DatabaseManager Metrics Standing Spec Vocabulary JsFacts FacadeFacts MetricsFacts.

Lemma findIndex_bound (A : Type) (p : A -> bool) (xs : list A) (index : nat) :
  findIndex p xs = Some index -> index < List.length xs.
Proof.
  revert index. induction xs as [|x xs IH]; intros index; simpl; [discriminate|].
  destruct (p x); [intros [= <-]; lia|].
  destruct (findIndex p xs) as [i|]; [|discriminate].
  intros [= <-]. specialize (IH i eq_refl). lia.
Qed.

Lemma findIndex_none (A : Type) (p : A -> bool) (xs : list A) :
  findIndex p xs = None <-> forall x, In x xs -> p x = false.
Proof.
  induction xs as [|x xs IH]; simpl.
  - split; [intros _ x [] | reflexivity].
  - destruct (p x) eqn:E.
    + split; [discriminate|]. intros H. rewrite (H x (or_introl eq_refl)) in E.
      discriminate.
    + destruct (findIndex p xs) as [i|].
      * split; [discriminate|]. intros H.
        assert (Hnone : Some i = None); [|discriminate].
        apply IH. intros y Hy. apply H. now right.
      * split; [|reflexivity]. intros _ y [<-|Hy]; [exact E|].
        now apply (proj1 IH).
Qed.

Lemma sector_kept (sector : string) (company : Company.t) :
  and_then (Company.sector company)
           (fun s => includes (toLowerCase s) (toLowerCase sector)) = true
  <-> sector_contains company sector.
Proof.
  unfold sector_contains, and_then.
  destruct (Company.sector company) as [| |s] eqn:E.
  - split; [discriminate | intros (s & pre & post & H & _); discriminate].
  - split; [discriminate | intros (s & pre & post & H & _); discriminate].
  - rewrite andb_true_iff, includes_spec. split.
    + intros [Ht (pre & post & H)]. exists s, pre, post.
      repeat split; trivial. intros ->. discriminate.
    + intros (s' & pre & post & H & Hne & Hin). inversion H; subst s'.
      split; [destruct s; [contradiction | reflexivity] | now exists pre, post].
Qed.

Lemma append_empty (s : string) : (s ++ EmptyString)%string = s.
Proof. induction s as [|c s IH]; simpl; [reflexivity | now rewrite IH]. Qed.

(** X25. For a company with a sector, [getCompanyMarketPosition] asks
    once for the companies and ranks the company among those whose sector
    contains its own: the rank is its place in the order of the list, not
    by market cap, and never exceeds the number of such companies.  A
    company found in the list with a non-empty sector has rank 1 or more;
    one whose id is not among them has rank 0 and is called a [leader], as
    are ranks up to 3; ranks up to 10 are [challenger], beyond that
    [follower].  The percentile lies between 0 and 100. *)
Theorem market_position_ranks_by_place :
  forall (remote : Remote) (companies : list Company.t)
         (company : Company.t) (sector : string),
    fst (getAllCompanies remote) = Returned companies ->
    Company.sector company = val sector ->
    exists (keep : Company.t -> bool) (position : MarketPosition.t),
      (forall c, keep c = true <-> sector_contains c sector) /\
      getCompanyMarketPosition company remote = (Returned position, [GetCompanies]) /\
      let peers := filter keep companies in
      let rank := MarketPosition.sector_rank position in
      MarketPosition.sector_companies position = List.length peers /\
      rank <= List.length peers /\
      (rank = 0 <-> forall c, In c peers -> Company.id c <> Company.id company) /\
      (forall before c after,
          peers = before ++ c :: after ->
          Company.id c = Company.id company ->
          (forall b, In b before -> Company.id b <> Company.id company) ->
          rank = S (List.length before)) /\
      (In company companies -> sector <> EmptyString -> 1 <= rank) /\
      (rank <= 3 -> MarketPosition.competitive_position position = "leader"%string) /\
      (4 <= rank <= 10 ->
       MarketPosition.competitive_position position = "challenger"%string) /\
      (10 < rank -> MarketPosition.competitive_position position = "follower"%string) /\
      (0 <= MarketPosition.market_cap_percentile position)%Q /\
      (MarketPosition.market_cap_percentile position <= 100)%Q.
Proof.
  intros remote companies company sector Hfetch Hsector.
  set (keep := fun c : Company.t =>
                 and_then (Company.sector c)
                   (fun s => includes (toLowerCase s) (toLowerCase sector))).
  exists keep. eexists. split; [intros c; apply sector_kept|]. split.
  { unfold getCompanyMarketPosition, sector_peers. rewrite Hsector.
    unfold getCompaniesBySector. unfold bind at 1.
    rewrite (with_companies _ _ _ _ Hfetch). reflexivity. }
  fold keep. set (peers := filter keep companies).
  set (same := fun c : Company.t => strict_eq (Company.id c) (Company.id company)).
  cbn [MarketPosition.sector_rank MarketPosition.sector_companies
       MarketPosition.market_cap_percentile MarketPosition.competitive_position].
  pose proof (findIndex_bound _ same peers) as Hbound.
  pose proof (findIndex_none _ same peers) as Hnone.
  split; [reflexivity|]. split; [|split; [|split; [|split; [|split; [|split; [|split]]]]]].
  - destruct (findIndex same peers) as [i|]; [|lia]. specialize (Hbound i eq_refl). lia.
  - destruct (findIndex same peers) as [i|].
    + split; [discriminate|]. intros Habsent.
      assert (E : Some i = None); [|discriminate].
      apply Hnone. intros c Hc. apply strict_eq_false. now apply Habsent.
    + split; [|reflexivity]. intros _ c Hc. apply strict_eq_false.
      now apply (proj1 Hnone).
  - intros before c after Hsplit Hid Hbefore. rewrite Hsplit. clear Hbound Hnone Hsplit.
    induction before as [|b before IH]; simpl.
    + assert (E : same c = true) by (apply strict_eq_spec; exact Hid).
      now rewrite E.
    + assert (E : same b = false).
      { apply strict_eq_false. apply Hbefore. now left. }
      rewrite E.
      assert (IH' : match findIndex same (before ++ c :: after) with
                    | Some index => S index
                    | None => 0
                    end = S (List.length before)).
      { apply IH. intros x Hx. apply Hbefore. now right. }
      destruct (findIndex same (before ++ c :: after)) as [i|]; [|discriminate].
      now rewrite IH'.
  - intros Hin Hne.
    assert (Hpeer : In company peers).
    { apply filter_In. split; [exact Hin|]. apply sector_kept.
      exists sector, EmptyString, EmptyString. repeat split; trivial.
      simpl. now rewrite append_empty. }
    destruct (findIndex same peers) as [i|]; [lia|].
    assert (E : same company = false) by now apply (proj1 Hnone).
    apply strict_eq_false in E. now destruct E.
  - intros Hrank. apply Nat.leb_le in Hrank. now rewrite Hrank.
  - intros [Hlow Hhigh].
    assert (E3 : (match findIndex same peers with Some index => S index | None => 0 end
                  <=? 3) = false) by (apply Nat.leb_gt; lia).
    apply Nat.leb_le in Hhigh. now rewrite E3, Hhigh.
  - intros Hrank.
    assert (E3 : (match findIndex same peers with Some index => S index | None => 0 end
                  <=? 3) = false) by (apply Nat.leb_gt; lia).
    assert (E10 : (match findIndex same peers with Some index => S index | None => 0 end
                   <=? 10) = false) by (apply Nat.leb_gt; lia).
    now rewrite E3, E10.
  - apply percentile_range.
Qed.

Lemma market_position_ranks_by_place_witness :
  exists position,
    getCompanyMarketPosition Sample.bbva Sample.remote = (Returned position, [GetCompanies]) /\
    MarketPosition.sector_rank position = 1 /\
    MarketPosition.competitive_position position = "leader"%string.
Proof.
  destruct (market_position_ranks_by_place Sample.remote Sample.companies Sample.bbva
              "Retail banking" eq_refl eq_refl)
    as (keep & position & _ & Hrun & _).
  exists position. split; [exact Hrun|].
  inversion Hrun. split; reflexivity.
Defined.

End StandingFacts.
